(** * ResumeAI: the batch orchestrator, the analysis client and the history store

    A shallow embedding of the parts of the application that screen a
    batch of resumes and keep a history of the sessions:

    - [types.ts]: the data model;
    - [services/historyService.ts]: [saveSession], [getHistory],
      [clearHistory], [deleteSession];
    - [services/geminiService.ts]: [getTemperature], [getAIClient],
      [analyzeResume], [extractResumeRawText];
    - [components/ApiKeyModal.tsx]: [handleTemperatureChange], [handleSave],
      [handleClearKey];
    - [App.tsx]: [handleBatchAnalyze], the mount effect and the handlers
      of the settings dialog, of the history drawer and of the views;
    - [components/AnalysisView.tsx]: [handleExtractRawText];
    - [components/ResumeUploader.tsx]: [processFiles], [handlePasteSubmit],
      [removeFile];
    - [components/BatchResults.tsx]: the rows of the table.

    The code is JavaScript run by a browser.  What the browser and the
    network provide ([JSON], the model provider, the storage quota) is
    gathered in the class [Platform]; the model and every theorem are
    stated for an arbitrary platform.  Effects are explicit: a
    computation is a function of the [World] that returns a value or
    throws, together with the next world.  The world carries a ghost
    [trace] of what an observer sees, in order. *)

From Stdlib Require Import Ascii String ZArith QArith Qabs Qround Lqa Sorted.
From Stdlib Require DecimalString.
From Ceres Require Ceres.
From stdpp Require Import base option list strings gmap.

Local Open Scope string_scope.

(** ** The data model ([types.ts]) *)

Inductive HiringRecommendation := HIRE | MAYBE | REJECT.

Module PersonalityProfile.
Record t := mk {
  archetype : string;
  traits : list string;
  communicationStyle : string;
  cultureFit : string
}.
End PersonalityProfile.

Module AnalysisResult.
Record t := mk {
  candidateName : string;
  score : Z;
  headline : string;
  summary : string;
  pros : list string;
  cons : list string;
  skillsGap : list string;
  personality : PersonalityProfile.t;
  recommendation : HiringRecommendation;
  reasoning : string
}.
End AnalysisResult.

Module JobContext.
Record t := mk { title : string; description : string }.
End JobContext.

Inductive FileType := text | image | pdf.

Module UploadedFile.
Record t := mk {
  id : string;
  type : FileType;
  content : string;
  name : string;
  mimeType : option string
}.
End UploadedFile.

Inductive AnalysisStatus := idle | analyzing | completed | error.

(** [result] is [None] for JavaScript's [null] (and for any other falsy
    value the provider's text may parse to). *)
Module BatchItem.
Record t := mk {
  file : UploadedFile.t;
  status : AnalysisStatus;
  result : option AnalysisResult.t;
  error : option string
}.
End BatchItem.

Module HistorySession.
Record t := mk {
  id : string;
  timestamp : Z;
  jobTitle : string;
  jobDescription : string;
  items : list BatchItem.t;
  totalCandidates : nat;
  averageScore : Z
}.
End HistorySession.

#[global] Instance FileType_eq_dec : EqDecision FileType.
Proof. solve_decision. Defined.

#[global] Instance AnalysisStatus_eq_dec : EqDecision AnalysisStatus.
Proof. solve_decision. Defined.

(** ** JavaScript numbers

    A number is [NaN], an infinity or a finite value.  Finite values are
    exact rationals: the rounding of binary64, overflow and the sign of
    zero are not modelled.  Only the operations the sources call are
    defined. *)

Module Number.

Inductive t := NaN | Infinity (negative : bool) | Finite (q : Q).

Definition of_Z (z : Z) : t := Finite (inject_Z z).

(** [isNaN(x)] *)
Definition isNaN (x : t) : bool :=
  match x with NaN => true | _ => false end.

(** [a <= b] on numbers that are not [NaN]. *)
Definition leb (a b : t) : bool :=
  match a, b with
  | Finite p, Finite q => Qle_bool p q
  | Infinity true, _ => true
  | _, Infinity false => true
  | _, _ => false
  end.

(** [Math.min(a, b)] and [Math.max(a, b)]: [NaN] as soon as one
    argument is [NaN]. *)
Definition Math_min (a b : t) : t :=
  match a, b with
  | NaN, _ | _, NaN => NaN
  | _, _ => if leb a b then a else b
  end.

Definition Math_max (a b : t) : t :=
  match a, b with
  | NaN, _ | _, NaN => NaN
  | _, _ => if leb a b then b else a
  end.

(** *** [parseFloat]

    Leading white space is skipped, then the longest prefix that is a
    decimal literal is read: a sign, then [Infinity] or digits with an
    optional fraction and an optional exponent.  No such prefix gives
    [NaN]. *)

Definition digit_of (c : ascii) : option Z :=
  let n := Z.of_N (Ascii.N_of_ascii c) in
  if bool_decide (48 <= n <= 57)%Z then Some (n - 48)%Z else None.

(** A text is the sequence of the bytes of its UTF-8 encoding.  The
    white space that [parseFloat] and [trim] skip is ECMAScript's
    [WhiteSpace] and [LineTerminator]: the characters of one byte TAB,
    LF, VT, FF, CR and SP; U+00A0, of two bytes; and, of three bytes,
    U+1680, U+2000 to U+200A, U+2028, U+2029, U+202F, U+205F, U+3000
    and U+FEFF. *)
Definition is_white (c : ascii) : bool :=
  let n := Ascii.N_of_ascii c in
  bool_decide (n = 32 \/ (9 <= n <= 13))%N.

Definition is_white2 (c1 c2 : ascii) : bool :=
  bool_decide (Ascii.N_of_ascii c1 = 194 /\ Ascii.N_of_ascii c2 = 160)%N.

Definition is_white3 (c1 c2 c3 : ascii) : bool :=
  let a := Ascii.N_of_ascii c1 in
  let b := Ascii.N_of_ascii c2 in
  let c := Ascii.N_of_ascii c3 in
  bool_decide
    ((a = 225 /\ b = 154 /\ c = 128)
     \/ (a = 226 /\ b = 128 /\ (128 <= c <= 138 \/ c = 168 \/ c = 169 \/ c = 175))
     \/ (a = 226 /\ b = 129 /\ c = 159)
     \/ (a = 227 /\ b = 128 /\ c = 128)
     \/ (a = 239 /\ b = 187 /\ c = 191))%N.

Fixpoint skip_white (s : string) : string :=
  match s with
  | String c1 r1 =>
      if is_white c1 then skip_white r1
      else
        match r1 with
        | String c2 r2 =>
            if is_white2 c1 c2 then skip_white r2
            else
              match r2 with
              | String c3 r3 => if is_white3 c1 c2 c3 then skip_white r3 else s
              | EmptyString => s
              end
        | EmptyString => s
        end
  | EmptyString => s
  end.

(** [s.trimEnd()]: the text is cut where what remains is white space
    only.  (No white space character starts with a continuation byte,
    so the cut falls between two characters.) *)
Fixpoint trim_end (s : string) : string :=
  match s with
  | String c r =>
      match skip_white s with
      | EmptyString => EmptyString
      | _ => String c (trim_end r)
      end
  | EmptyString => s
  end.

(** The digits at the head of [s], most significant first, and what
    follows them. *)
Fixpoint digits (s : string) : list Z * string :=
  match s with
  | String c r =>
      match digit_of c with
      | Some d => let '(ds, rest) := digits r in (d :: ds, rest)
      | None => ([], s)
      end
  | EmptyString => ([], s)
  end.

Definition value_of (ds : list Z) : Z :=
  fold_left (fun acc d => 10 * acc + d)%Z ds 0%Z.

Definition sign (s : string) : bool * string :=
  match s with
  | String "-" r => (true, r)
  | String "+" r => (false, r)
  | _ => (false, s)
  end.

Definition exponent (s : string) : Z :=
  match s with
  | String c r =>
      if bool_decide (c = "e"%char \/ c = "E"%char) then
        let '(neg, r') := sign r in
        let '(ds, _) := digits r' in
        if neg then (- value_of ds)%Z else value_of ds
      else 0%Z
  | EmptyString => 0%Z
  end.

Definition parseFloat (s : string) : t :=
  let '(neg, body) := sign (skip_white s) in
  if String.prefix "Infinity" body then Infinity neg
  else
    let '(int_part, after_int) := digits body in
    let '(frac_part, after_frac) :=
      match after_int with
      | String "." r => digits r
      | _ => ([], after_int)
      end in
    match (int_part ++ frac_part)%list with
    | [] => NaN
    | ds =>
        let e := (exponent after_frac - Z.of_nat (length frac_part))%Z in
        let magnitude := (inject_Z (value_of ds) * Qpower (inject_Z 10) e)%Q in
        Finite (Qred (if neg then - magnitude else magnitude)%Q)
    end.

(** *** [x.toFixed(1)]

    The integer [n] with [n / 10] nearest to the magnitude of [x] (the
    larger one on a tie), printed with one digit after the point.
    (Magnitudes from 1e21 on print in exponent notation in JavaScript;
    no value reaches them here.) *)

Definition decimal (n : Z) : string :=
  DecimalString.NilZero.string_of_uint (N.to_uint (Z.to_N n)).

Definition toFixed1 (x : t) : string :=
  match x with
  | NaN => "NaN"
  | Infinity neg => if neg then "-Infinity" else "Infinity"
  | Finite q =>
      let neg := negb (Qle_bool 0 q) in
      let n := Qfloor (Qabs q * inject_Z 10 + (1 # 2))%Q in
      (if neg then "-" else "") ++ decimal (n / 10) ++ "." ++ decimal (n mod 10)
  end.

(** [lo <= x <= hi], which [NaN] never satisfies. *)
Definition between (lo hi : Q) (x : t) : Prop :=
  match x with
  | Finite q => (lo <= q /\ q <= hi)%Q
  | _ => False
  end.

End Number.

(** [Math.round] on a finite number: the nearest integer, the larger one
    on a tie. *)
Definition Math_round (q : Q) : Z := Qfloor (q + (1 # 2))%Q.

(** ** Errors, provider requests and the platform *)

(** [new Error(message)], and any other thrown value, by its message. *)
Record JsError := Error { message : string }.

(** The instruction text of a request.  The templates are fixed texts of
    the sources into which the job title and description are spliced;
    they are kept symbolic. *)
Inductive Prompt :=
| analysisPrompt (job : JobContext.t)
| extractionPrompt.

(** One entry of [contents.parts].  A text part is the prompt, followed
    for a text resume by the resume's content. *)
Inductive Part :=
| inlineData (mimeType : string) (data : string)
| textPart (prompt : Prompt) (resume : option string).

Inductive Schema := analysisSchema.

(** [new GoogleGenAI({ apiKey })] *)
Record GoogleGenAI := mkClient { apiKey : string }.

Module GenerateContent.
Record request := mk {
  model : string;
  parts : list Part;
  responseSchema : option Schema;
  temperature : Number.t;
  thinkingBudget : Z
}.
(** The provider call rejects, or resolves to a response whose [text]
    may be undefined. *)
Inductive reply := rejects (e : JsError) | responds (text : option string).
End GenerateContent.

(** What the browser and the network provide.

    - [JSON_stringify], [JSON_parse_history], [JSON_parse_analysis]:
      [JSON.stringify] on a session list and [JSON.parse] at the two
      types the sources read its result at; [inl e] is a thrown
      [SyntaxError].  (A valid JSON text of another shape is outside the
      model.)
    - [generateContent n ai req]: the provider's answer to the request
      [req] made through the client [ai] when [n] requests were issued
      before it.
    - [background n]: what other handlers (the settings dialog) do to the
      storage while that request is awaited.
    - [quota m]: whether the storage accepts to hold the entries [m]. *)
Class Platform := {
  JSON_stringify : list HistorySession.t -> string;
  JSON_parse_history : string -> JsError + list HistorySession.t;
  JSON_parse_analysis : string -> JsError + option AnalysisResult.t;
  generateContent :
    nat -> GoogleGenAI -> GenerateContent.request -> GenerateContent.reply;
  background : nat -> gmap string string -> gmap string string;
  quota : gmap string string -> bool
}.

(** ** The world and its trace *)

(** How a computation completes: with a value, or by throwing. *)
Inductive Completion (A : Type) :=
| Normal (a : A)
| Throw (e : JsError).
Arguments Normal {A} a.
Arguments Throw {A} e.


Inductive ToastType := success | warning | failure.
Inductive ConsoleLevel := level_warn | level_error.

(** What an observer of a run sees, in order. *)
Inductive Event :=
| Rendered (items : list BatchItem.t)
    (* the [batchItems] state takes this value *)
| Requested (ai : GoogleGenAI) (req : GenerateContent.request)
    (* a provider call is issued *)
| Saving (job : JobContext.t) (items : list BatchItem.t)
    (* [saveSession] is entered *)
| Settled (i : nat) (outcome : Completion (option AnalysisResult.t))
    (* the analysis of item [i], awaited by the batch handler, settles *)
| Logged (level : ConsoleLevel) (msg : string) (e : option JsError)
| Toasted (msg : string) (kind : ToastType).

Inductive View := input | list_view | detail.

(** The state of the [App] component that the batch handler reads and
    writes. *)
Module App.
Record state := mk {
  files : list UploadedFile.t;
  jobContext : JobContext.t;
  batchItems : list BatchItem.t;
  isProcessing : bool;
  currentView : View;
  historySessions : list HistorySession.t;
  isSettingsOpen : bool;
  hasApiKey : bool
}.
End App.

Record World := mkWorld {
  localStorage : gmap string string;
  clock : Z;
  issued : nat;
  trace : list Event;
  ui : App.state
}.

Definition with_storage (m : gmap string string) (w : World) : World :=
  mkWorld m (clock w) (issued w) (trace w) (ui w).

Definition with_issued (n : nat) (w : World) : World :=
  mkWorld (localStorage w) (clock w) n (trace w) (ui w).

Definition with_ui (u : App.state) (w : World) : World :=
  mkWorld (localStorage w) (clock w) (issued w) (trace w) u.

Definition emit (e : Event) (w : World) : World :=
  mkWorld (localStorage w) (clock w) (issued w) (trace w ++ [e]) (ui w).

(** ** Computations *)

Definition JS (A : Type) : Type := World -> Completion A * World.

#[global] Instance JS_ret : MRet JS := fun A a w => (Normal a, w).

#[global] Instance JS_bind : MBind JS := fun A B k m w =>
  match m w with
  | (Normal a, w') => k a w'
  | (Throw e, w') => (Throw e, w')
  end.

Definition throw {A} (e : JsError) : JS A := fun w => (Throw e, w).

(** [try { body } catch (e) { handler e }] *)
Definition try_catch {A} (body : JS A) (handler : JsError -> JS A) : JS A :=
  fun w =>
    match body w with
    | (Normal a, w') => (Normal a, w')
    | (Throw e, w') => handler e w'
    end.

Definition update (f : World -> World) : JS unit := fun w => (Normal (), f w).
Definition observe {A} (f : World -> A) : JS A := fun w => (Normal (f w), w).

(** A value used as a condition: [null], [undefined] and the empty
    string are falsy. *)
Definition truthy (s : option string) : bool :=
  match s with
  | Some (String _ _) => true
  | _ => false
  end.

Section Runtime.
Context `{Platform}.

Definition localStorage_getItem (key : string) : JS (option string) :=
  observe (fun w => localStorage w !! key).

(** [setItem] throws when the storage refuses the new contents. *)
Definition localStorage_setItem (key value : string) : JS unit :=
  m ← observe localStorage;
  if quota (<[key := value]> m)
  then update (with_storage (<[key := value]> m))
  else throw (Error "QuotaExceededError").

Definition localStorage_removeItem (key : string) : JS unit :=
  update (fun w => with_storage (delete key (localStorage w)) w).

Definition console_warn (msg : string) : JS unit :=
  update (emit (Logged level_warn msg None)).

Definition console_error (msg : string) (e : JsError) : JS unit :=
  update (emit (Logged level_error msg (Some e))).

Definition Date_now : JS Z := observe clock.

(** [await ai.models.generateContent(req)]: the request goes out, other
    handlers run while it is awaited, then the reply arrives. *)
Definition ai_generateContent (ai : GoogleGenAI) (req : GenerateContent.request)
  : JS (option string) :=
  n ← observe issued;
  update (emit (Requested ai req));;
  update (with_issued (S n));;
  update (fun w => with_storage (background n (localStorage w)) w);;
  match generateContent n ai req with
  | GenerateContent.rejects e => throw e
  | GenerateContent.responds txt => mret txt
  end.

End Runtime.

(** ** The history store ([services/historyService.ts]) *)

Definition lift_parse {A} (r : JsError + A) : JS A :=
  match r with
  | inl e => throw e
  | inr a => mret a
  end.

(** [n.toString()] for an integer [n]. *)
Definition Z_toString (n : Z) : string :=
  DecimalString.NilZero.string_of_int (Z.to_int n).

(** [x || 0] where [x] is [curr.result?.score]. *)
Definition or_zero (x : option Z) : Z :=
  match x with
  | Some z => if (z =? 0)%Z then 0%Z else z
  | None => 0%Z
  end.

(** [i.status === 'completed' && i.result] *)
Definition is_completed (i : BatchItem.t) : Prop :=
  BatchItem.status i = completed /\ is_Some (BatchItem.result i).

#[global] Instance is_completed_dec i : Decision (is_completed i).
Proof. unfold is_completed. apply _. Defined.

(** [{ ...item, file: { ...item.file, content: '' } }] *)
Definition without_content (item : BatchItem.t) : BatchItem.t :=
  let f := BatchItem.file item in
  BatchItem.mk
    (UploadedFile.mk (UploadedFile.id f) (UploadedFile.type f) ""
                     (UploadedFile.name f) (UploadedFile.mimeType f))
    (BatchItem.status item) (BatchItem.result item) (BatchItem.error item).

(** [{ ...session, items: session.items.map(...) }] *)
Definition lightSession_of (session : HistorySession.t) : HistorySession.t :=
  HistorySession.mk
    (HistorySession.id session) (HistorySession.timestamp session)
    (HistorySession.jobTitle session) (HistorySession.jobDescription session)
    (without_content <$> HistorySession.items session)
    (HistorySession.totalCandidates session) (HistorySession.averageScore session).

Definition STORAGE_KEY : string := "resume_ai_history_v1".

Section HistoryService.
Context `{Platform}.

Definition getHistory : JS (list HistorySession.t) :=
  try_catch
    (json ← localStorage_getItem STORAGE_KEY;
     if truthy json then lift_parse (JSON_parse_history (default "" json))
     else mret [])
    (fun error =>
       console_error "Failed to load history:" error;;
       mret []).

(** The session object is built from the job and the items; its
    [headcount] field is read from a job that has none and is dropped
    by [JSON.stringify], so it is left out.  Both readings of the clock
    give the same instant.  The first line is ghost: it records the call
    in the trace. *)
Definition saveSession (job : JobContext.t) (items : list BatchItem.t)
  : JS (option HistorySession.t) :=
  update (emit (Saving job items));;
  try_catch
    (let completedItems := filter is_completed items in
     if bool_decide (length completedItems = 0) then mret None
     else
       let totalScore :=
         foldl (fun acc curr =>
                  (acc + or_zero (AnalysisResult.score <$> BatchItem.result curr))%Z)
               0%Z completedItems in
       let averageScore :=
         Math_round (inject_Z totalScore
                     / inject_Z (Z.of_nat (length completedItems)))%Q in
       id_now ← Date_now;
       timestamp_now ← Date_now;
       let session :=
         HistorySession.mk (Z_toString id_now) timestamp_now
           (JobContext.title job) (JobContext.description job)
           items (length items) averageScore in
       existingHistory ← getHistory;
       let newHistory := take 20 (session :: existingHistory) in
       try_catch
         (localStorage_setItem STORAGE_KEY (JSON_stringify newHistory))
         (fun e =>
            console_warn
              "Storage quota exceeded, trying to save without file content backup...";;
            let lightSession := lightSession_of session in
            let lightHistory := take 20 (lightSession :: existingHistory) in
            localStorage_setItem STORAGE_KEY (JSON_stringify lightHistory));;
       mret (Some session))
    (fun error =>
       console_error "Failed to save history:" error;;
       mret None).

End HistoryService.

(** ** The analysis client ([services/geminiService.ts]) *)

(** [Math.max(0, Math.min(1, x))] *)
Definition clamp (x : Number.t) : Number.t :=
  Number.Math_max (Number.of_Z 0) (Number.Math_min (Number.of_Z 1) x).

(** [storedTemp ? Math.max(0, Math.min(1, parseFloat(storedTemp))) : 0.4] *)
Definition temperature_of (storedTemp : option string) : Number.t :=
  if truthy storedTemp then clamp (Number.parseFloat (default "" storedTemp))
  else Number.Finite (4 # 10).

(** [file.mimeType || (file.type === 'pdf' ? 'application/pdf' : 'image/png')] *)
Definition mimeType_of (file : UploadedFile.t) : string :=
  if truthy (UploadedFile.mimeType file) then default "" (UploadedFile.mimeType file)
  else if decide (UploadedFile.type file = pdf) then "application/pdf"
  else "image/png".

Section GeminiService.
Context `{Platform}.

Definition getApiKey : JS (option string) :=
  localStorage_getItem "gemini_api_key".

Definition getTemperature : JS Number.t :=
  storedTemp ← localStorage_getItem "gemini_temperature";
  mret (temperature_of storedTemp).

Definition getAIClient : JS GoogleGenAI :=
  key ← getApiKey;
  if negb (truthy key) then throw (Error "API_KEY_MISSING")
  else mret (mkClient (default "" key)).

Definition analyzeResume (file : UploadedFile.t) (job : JobContext.t)
  : JS (option AnalysisResult.t) :=
  let model := "gemini-2.5-flash" in
  ai ← getAIClient;
  temperature ← getTemperature;
  let promptText := analysisPrompt job in
  let parts :=
    if bool_decide (UploadedFile.type file = image \/ UploadedFile.type file = pdf)
    then [ inlineData (mimeType_of file) (UploadedFile.content file);
           textPart promptText None ]
    else [ textPart promptText (Some (UploadedFile.content file)) ] in
  try_catch
    (response_text ←
       ai_generateContent ai
         (GenerateContent.mk model parts (Some analysisSchema) temperature 24576);
     if truthy response_text
     then lift_parse (JSON_parse_analysis (default "" response_text))
     else throw (Error "Gemini API 未返回文本数据"))
    (fun error =>
       console_error "Gemini Analysis Error:" error;;
       throw error).

Definition extractResumeRawText (file : UploadedFile.t) : JS string :=
  let model := "gemini-2.5-flash" in
  ai ← getAIClient;
  temperature ← getTemperature;
  if decide (UploadedFile.type file = text) then mret (UploadedFile.content file)
  else
    let promptText := extractionPrompt in
    let parts :=
      [ textPart promptText None;
        inlineData (mimeType_of file) (UploadedFile.content file) ] in
    try_catch
      (response_text ←
         ai_generateContent ai
           (GenerateContent.mk model parts None temperature 24576);
       mret (if truthy response_text then default "" response_text
             else "未能从文件中提取到任何文本。"))
      (fun error =>
         console_error "Gemini Raw Text Extraction Error:" error;;
         throw error).

End GeminiService.

(** ** The settings dialog ([components/ApiKeyModal.tsx]) *)

Module ApiKeyModal.

Record state := mk { apiKey : string; temperature : Number.t }.

Definition setTemperature (x : Number.t) (st : state) : state :=
  mk (apiKey st) x.

(** [s.trim()]: the white space at both ends is removed. *)
Definition trim (s : string) : string :=
  Number.trim_end (Number.skip_white s).

(** The effect run when the dialog opens. *)
Definition onOpen (st : state) : JS state :=
  storedKey ← localStorage_getItem "gemini_api_key";
  let st := if truthy storedKey then mk (default "" storedKey) (temperature st) else st in
  storedTemp ← localStorage_getItem "gemini_temperature";
  mret (setTemperature (temperature_of storedTemp) st).

(** [value] is [e.target.value], the text of the input. *)
Definition handleTemperatureChange (value : string) (st : state) : state :=
  let value := Number.parseFloat value in
  if negb (Number.isNaN value) then setTemperature (clamp value) st
  else st.

Definition handleSave `{Platform} (onClose : JS unit) (st : state) : JS unit :=
  (if truthy (Some (trim (apiKey st)))
   then localStorage_setItem "gemini_api_key" (trim (apiKey st))
   else localStorage_removeItem "gemini_api_key");;
  localStorage_setItem "gemini_temperature" (Number.toFixed1 (temperature st));;
  onClose.

End ApiKeyModal.

(** ** The batch orchestrator ([App.tsx]) *)

Definition with_status (s : AnalysisStatus) (p : BatchItem.t) : BatchItem.t :=
  BatchItem.mk (BatchItem.file p) s (BatchItem.result p) (BatchItem.error p).

Definition file_id (p : BatchItem.t) : string :=
  UploadedFile.id (BatchItem.file p).

(** [prev.map(p => p.file.id === item.file.id ? q p : p)] *)
Definition replace_by_id (item : BatchItem.t) (q : BatchItem.t -> BatchItem.t)
    (prev : list BatchItem.t) : list BatchItem.t :=
  (fun p => if decide (file_id p = file_id item) then q p else p) <$> prev.

(** How one turn of the loop ends: it goes on with the updated local
    tracker, or the handler returns. *)
Inductive Turn := goes_on (processedItems : list BatchItem.t) | returns.

(** The state setters of the component, as changes of the world.  A new
    value of [batchItems] is also what the results table renders next. *)
Definition set_batchItems (f : list BatchItem.t -> list BatchItem.t) (w : World)
  : World :=
  let u := ui w in
  let next := f (App.batchItems u) in
  emit (Rendered next)
    (with_ui (App.mk (App.files u) (App.jobContext u) next
                     (App.isProcessing u) (App.currentView u)
                     (App.historySessions u) (App.isSettingsOpen u)
                     (App.hasApiKey u)) w).

Definition set_isProcessing (b : bool) (w : World) : World :=
  let u := ui w in
  with_ui (App.mk (App.files u) (App.jobContext u) (App.batchItems u)
                  b (App.currentView u) (App.historySessions u)
                  (App.isSettingsOpen u) (App.hasApiKey u)) w.

Definition set_currentView (v : View) (w : World) : World :=
  let u := ui w in
  with_ui (App.mk (App.files u) (App.jobContext u) (App.batchItems u)
                  (App.isProcessing u) v (App.historySessions u)
                  (App.isSettingsOpen u) (App.hasApiKey u)) w.

Definition set_historySessions
    (f : list HistorySession.t -> list HistorySession.t) (w : World) : World :=
  let u := ui w in
  with_ui (App.mk (App.files u) (App.jobContext u) (App.batchItems u)
                  (App.isProcessing u) (App.currentView u)
                  (f (App.historySessions u))
                  (App.isSettingsOpen u) (App.hasApiKey u)) w.

Definition set_isSettingsOpen (b : bool) (w : World) : World :=
  let u := ui w in
  with_ui (App.mk (App.files u) (App.jobContext u) (App.batchItems u)
                  (App.isProcessing u) (App.currentView u)
                  (App.historySessions u) b (App.hasApiKey u)) w.

Definition set_hasApiKey (b : bool) (w : World) : World :=
  let u := ui w in
  with_ui (App.mk (App.files u) (App.jobContext u) (App.batchItems u)
                  (App.isProcessing u) (App.currentView u)
                  (App.historySessions u) (App.isSettingsOpen u) b) w.

Definition setBatchItems f : JS unit := update (set_batchItems f).
Definition setIsProcessing b : JS unit := update (set_isProcessing b).
Definition setCurrentView v : JS unit := update (set_currentView v).
Definition setHistorySessions f : JS unit := update (set_historySessions f).
Definition setIsSettingsOpen b : JS unit := update (set_isSettingsOpen b).
Definition setHasApiKey b : JS unit := update (set_hasApiKey b).

(** The toast is shown; its removal five seconds later is not modelled. *)
Definition showToast (msg : string) (kind : ToastType) : JS unit :=
  update (emit (Toasted msg kind)).

(** [await promise], for the promise of the analysis of item [i]: its
    settlement is recorded in the trace. *)
Definition await (i : nat) (promise : JS (option AnalysisResult.t))
  : JS (option AnalysisResult.t) :=
  fun w => let '(c, w') := promise w in (c, emit (Settled i c) w').

Section AppHandlers.
Context `{Platform}.

(** The body of [for (let i = 0; i < initialItems.length; i++)], from
    index [i] on: [remaining] is [initialItems.slice(i)]. *)
Fixpoint batchLoop (jobContext : JobContext.t) (i : nat)
    (remaining processedItems : list BatchItem.t)
  : JS (option (list BatchItem.t)) :=
  match remaining with
  | [] => mret (Some processedItems)
  | item :: rest =>
      setBatchItems (replace_by_id item (with_status analyzing));;
      turn ←
        try_catch
          (result ← await i (analyzeResume (BatchItem.file item) jobContext);
           let updatedItem :=
             BatchItem.mk (BatchItem.file item) completed result
                          (BatchItem.error item) in
           let processedItems := <[i := updatedItem]> processedItems in
           setBatchItems (replace_by_id item (fun _ => updatedItem));;
           showToast ("简历 '" ++ UploadedFile.name (BatchItem.file item)
                      ++ "' 分析完成。") success;;
           mret (goes_on processedItems))
          (fun e =>
             if decide (message e = "API_KEY_MISSING") then
               setIsProcessing false;;
               setIsSettingsOpen true;;
               setHasApiKey false;;
               showToast "您的 API Key 无效或未设置，请重新配置。" failure;;
               mret returns
             else
               let errorItem :=
                 BatchItem.mk (BatchItem.file item) error
                              (BatchItem.result item) (Some (message e)) in
               let processedItems := <[i := errorItem]> processedItems in
               setBatchItems (replace_by_id item (fun _ => errorItem));;
               showToast ("简历 '" ++ UploadedFile.name (BatchItem.file item)
                          ++ "' 分析失败：" ++ message e) failure;;
               mret (goes_on processedItems));
      match turn with
      | returns => mret None
      | goes_on processedItems => batchLoop jobContext (S i) rest processedItems
      end
  end.

Definition handleBatchAnalyze : JS unit :=
  u ← observe ui;
  let files := App.files u in
  let jobContext := App.jobContext u in
  if negb (App.hasApiKey u) then
    setIsSettingsOpen true;;
    showToast "请先配置 Google Gemini API Key 才能开始分析。" warning
  else if bool_decide (length files = 0)
          || negb (truthy (Some (JobContext.description jobContext))) then
    showToast "请至少上传一份简历并填写职位描述。" warning
  else
    let initialItems := (fun f => BatchItem.mk f idle None None) <$> files in
    setBatchItems (fun _ => initialItems);;
    setCurrentView list_view;;
    setIsProcessing true;;
    showToast ("开始分析 " ++ Z_toString (Z.of_nat (length files)) ++ " 份简历...")
              success;;
    let processedItems := initialItems in
    finished ← batchLoop jobContext 0 initialItems processedItems;
    match finished with
    | None => mret ()
    | Some processedItems =>
        setIsProcessing false;;
        showToast "所有简历批处理完成！" success;;
        saved ← saveSession jobContext processedItems;
        match saved with
        | Some session =>
            setHistorySessions (fun prev => session :: prev);;
            showToast "本次分析结果已保存到历史记录。" success
        | None => mret ()
        end
    end.

End AppHandlers.

(** ** A platform to run the model on

    The theorems below hold for every platform.  To evaluate the model on
    concrete inputs this module builds one: texts are printed and parsed
    by Ceres (S-expressions standing in for JSON), the provider follows a
    script, and the storage accepts contents up to a number of
    characters. *)

Module Demo.
Definition failed : AnalysisStatus := error.  (* [error] names Ceres's errors below *)
Import Ceres.Ceres.

#[local] Instance Serialize_HiringRecommendation : Serialize HiringRecommendation :=
  fun x => match x with
           | HIRE => Atom "HIRE" | MAYBE => Atom "MAYBE" | REJECT => Atom "REJECT"
           end%sexp.
#[local] Instance Deserialize_HiringRecommendation : Deserialize HiringRecommendation :=
  Deser.match_con "HiringRecommendation"
    [("HIRE", HIRE); ("MAYBE", MAYBE); ("REJECT", REJECT)] [].

#[local] Instance Serialize_FileType : Serialize FileType :=
  fun x => match x with
           | text => Atom "text" | image => Atom "image" | pdf => Atom "pdf"
           end%sexp.
#[local] Instance Deserialize_FileType : Deserialize FileType :=
  Deser.match_con "FileType" [("text", text); ("image", image); ("pdf", pdf)] [].

#[local] Instance Serialize_AnalysisStatus : Serialize AnalysisStatus :=
  fun x => match x with
           | idle => Atom "idle" | analyzing => Atom "analyzing"
           | completed => Atom "completed" | _ => Atom "error"
           end%sexp.
#[local] Instance Deserialize_AnalysisStatus : Deserialize AnalysisStatus :=
  Deser.match_con "AnalysisStatus"
    [("idle", idle); ("analyzing", analyzing);
     ("completed", completed); ("error", failed)] [].

Definition through {A B} (f : A -> B) `{Deserialize A} : Deserialize B :=
  fun l e => match _from_sexp l e with
             | inl bad => inl bad
             | inr a => inr (f a)
             end.

#[local] Instance Serialize_PersonalityProfile : Serialize PersonalityProfile.t :=
  fun p => to_sexp (PersonalityProfile.archetype p, PersonalityProfile.traits p,
                    PersonalityProfile.communicationStyle p,
                    PersonalityProfile.cultureFit p).
#[local] Instance Deserialize_PersonalityProfile : Deserialize PersonalityProfile.t :=
  through (fun '(a, b, c, d) => PersonalityProfile.mk a b c d).

#[local] Instance Serialize_AnalysisResult : Serialize AnalysisResult.t :=
  fun r => to_sexp (AnalysisResult.candidateName r, AnalysisResult.score r,
                    AnalysisResult.headline r, AnalysisResult.summary r,
                    AnalysisResult.pros r, AnalysisResult.cons r,
                    AnalysisResult.skillsGap r, AnalysisResult.personality r,
                    AnalysisResult.recommendation r, AnalysisResult.reasoning r).
#[local] Instance Deserialize_AnalysisResult : Deserialize AnalysisResult.t :=
  through (fun '(a, b, c, d, e, f, g, h, i, j) =>
             AnalysisResult.mk a b c d e f g h i j).

#[local] Instance Serialize_UploadedFile : Serialize UploadedFile.t :=
  fun f => to_sexp (UploadedFile.id f, UploadedFile.type f, UploadedFile.content f,
                    UploadedFile.name f, UploadedFile.mimeType f).
#[local] Instance Deserialize_UploadedFile : Deserialize UploadedFile.t :=
  through (fun '(a, b, c, d, e) => UploadedFile.mk a b c d e).

#[local] Instance Serialize_BatchItem : Serialize BatchItem.t :=
  fun i => to_sexp (BatchItem.file i, BatchItem.status i, BatchItem.result i,
                    BatchItem.error i).
#[local] Instance Deserialize_BatchItem : Deserialize BatchItem.t :=
  through (fun '(a, b, c, d) => BatchItem.mk a b c d).

#[local] Instance Serialize_HistorySession : Serialize HistorySession.t :=
  fun s => to_sexp (HistorySession.id s, HistorySession.timestamp s,
                    HistorySession.jobTitle s, HistorySession.jobDescription s,
                    HistorySession.items s, HistorySession.totalCandidates s,
                    HistorySession.averageScore s).
#[local] Instance Deserialize_HistorySession : Deserialize HistorySession.t :=
  through (fun '(a, b, c, d, e, f, g) => HistorySession.mk a b c d e f g).

Definition parse {A} `{Deserialize A} (s : string) : JsError + A :=
  match from_string s with
  | inl _ => inl (Error "SyntaxError")
  | inr a => inr a
  end.

(** The number of characters the storage holds. *)
Definition storage_size (m : gmap string string) : nat :=
  map_fold (fun k v n => String.length k + String.length v + n) 0 m.

(** The platform with a storage of [capacity] characters, a provider
    that answers the [n]-th request with the [n]-th entry of [script]
    (and rejects once the script is exhausted), and other handlers
    doing [activity n] to the storage meanwhile. *)
Definition platform (capacity : nat) (script : list GenerateContent.reply)
    (activity : nat -> gmap string string -> gmap string string) : Platform :=
  {| JSON_stringify := to_string;
     JSON_parse_history := parse;
     JSON_parse_analysis := parse;
     generateContent := fun n _ _ =>
       default (GenerateContent.rejects (Error "fetch failed")) (script !! n);
     background := activity;
     quota := fun m => bool_decide (storage_size m <= capacity) |}.

Definition quiet : nat -> gmap string string -> gmap string string :=
  fun _ m => m.

(** A world with the given storage and files, nothing observed yet. *)
Definition world (m : gmap string string) (files : list UploadedFile.t)
    (job : JobContext.t) (hasApiKey : bool) : World :=
  mkWorld m 1700000000000 0 []
    (App.mk files job [] false input [] false hasApiKey).

Definition cv (id content : string) : UploadedFile.t :=
  UploadedFile.mk id text content (id ++ ".txt") None.

Definition scan (id content : string) : UploadedFile.t :=
  UploadedFile.mk id pdf content (id ++ ".pdf") (Some "application/pdf").

Definition verdict (name : string) (score : Z) : AnalysisResult.t :=
  AnalysisResult.mk name score "headline" "summary" ["pro"] ["con"] []
    (PersonalityProfile.mk "archetype" ["trait"] "style" "fit") MAYBE "reasoning".

Definition done (f : UploadedFile.t) (score : Z) : BatchItem.t :=
  BatchItem.mk f completed (Some (verdict (UploadedFile.name f) score)) None.

Definition job : JobContext.t := JobContext.mk "Engineer" "Builds things".

Definition roomy : Platform := platform (20 * 1000) [] quiet.

(** A storage too small for three resumes with their contents, large
    enough for them without; and one too small for either. *)
Definition tight : Platform := platform 670 [] quiet.
Definition cramped : Platform := platform 100 [] quiet.

(** Three analysed resumes, scoring 80, 60 and 100. *)
Definition three_done : list BatchItem.t :=
  [done (cv "a" "AAAA") 80; done (cv "b" "BBBB") 60; done (cv "c" "CCCC") 100].

(** Items none of which counts as completed: one never started, one
    failed, one completed with a [null] result. *)
Definition none_done : list BatchItem.t :=
  [BatchItem.mk (cv "a" "AAAA") idle None None;
   BatchItem.mk (cv "b" "BBBB") failed None (Some "fetch failed");
   BatchItem.mk (cv "c" "CCCC") completed None None].

Definition empty_world : World := world ∅ [] job true.

(** What the provider answers for a resume judged at [score]. *)
Definition judged (name : string) (score : Z) : GenerateContent.reply :=
  GenerateContent.responds (Some (to_string (Some (verdict name score)))).

Definition keyed : gmap string string := {[ "gemini_api_key" := "AIza-demo" ]}.

Definition three_files : list UploadedFile.t :=
  [cv "a" "AAAA"; scan "b" "QkJCQg=="; cv "c" "CCCC"].

(** The provider judges the first resume and fails on the second and
    the third. *)
Definition steady : Platform :=
  platform (20 * 1000)
    [judged "a" 80; GenerateContent.rejects (Error "503 overloaded");
     GenerateContent.responds None]
    quiet.

(** The items while the second resume is analysed. *)
Definition second_turn : list BatchItem.t :=
  [BatchItem.mk (cv "a" "AAAA") completed (Some (verdict "a" 80)) None;
   BatchItem.mk (scan "b" "QkJCQg==") analyzing None None;
   BatchItem.mk (cv "c" "CCCC") idle None None].

(** The provider judges the first resume; while it does, the credential
    is removed through the settings dialog. *)
Definition key_cleared : Platform :=
  platform (20 * 1000) [judged "a" 80; judged "b" 60; judged "c" 100]
    (fun n m => if decide (n = 0) then delete "gemini_api_key" m else m).

(** A past session, and a storage that holds [n] of them. *)
Definition past (n : nat) : HistorySession.t :=
  HistorySession.mk (Z_toString (Z.of_nat n)) (Z.of_nat n) "Past" "Earlier job"
    [done (cv "p" "PPPP") 50] 1 50.

Definition holding (n : nat) : gmap string string :=
  {[ STORAGE_KEY := to_string (past <$> seq 0 n) ]}.

End Demo.

(** ** Vocabulary of the statements *)

Local Open Scope list_scope.

(** The sessions [getHistory] reads from the storage [m]. *)
Definition stored_history `{Platform} (m : gmap string string)
  : list HistorySession.t :=
  match m !! STORAGE_KEY with
  | Some (String c r) =>
      match JSON_parse_history (String c r) with
      | inr h => h
      | inl _ => []
      end
  | _ => []
  end.

(** The scores that count: those of the items with status [completed]
    and a present result. *)
Definition completed_scores (items : list BatchItem.t) : list Z :=
  omap (fun i => if decide (BatchItem.status i = completed)
                 then AnalysisResult.score <$> BatchItem.result i
                 else None) items.

Definition sum_Z (l : list Z) : Z := foldr Z.add 0%Z l.

Definition mean (l : list Z) : Q :=
  (inject_Z (sum_Z l) / inject_Z (Z.of_nat (length l)))%Q.

(** [z] is the integer nearest to [q], the larger one on a tie. *)
Definition rounds_to (q : Q) (z : Z) : Prop :=
  (inject_Z z - (1 # 2) <= q /\ q < inject_Z z + (1 # 2))%Q.

(** The session [saveSession] builds at time [now]. *)
Definition session_at (now : Z) (job : JobContext.t) (items : list BatchItem.t)
  : HistorySession.t :=
  HistorySession.mk (Z_toString now) now
    (JobContext.title job) (JobContext.description job)
    items (length items)
    (Math_round (mean (completed_scores items))).

(** A completion that reaches the caller as an exception. *)
Definition raises {A} (c : Completion A) : Prop :=
  match c with
  | Throw _ => True
  | Normal _ => False
  end.

(** The successive values of [batchItems], the provider calls and the
    calls of [saveSession] among the events [evs]. *)
Definition frames (evs : list Event) : list (list BatchItem.t) :=
  omap (fun e => match e with Rendered f => Some f | _ => None end) evs.

Definition requests (evs : list Event) : list GenerateContent.request :=
  omap (fun e => match e with Requested _ r => Some r | _ => None end) evs.

Definition savings (evs : list Event) : list (list BatchItem.t) :=
  omap (fun e => match e with Saving _ items => Some items | _ => None end) evs.

(** The indices of the items whose analysis settled with the
    missing-credential error. *)
Definition missing_credential (c : Completion (option AnalysisResult.t)) : Prop :=
  match c with
  | Throw e => message e = "API_KEY_MISSING"
  | Normal _ => False
  end.

#[global] Instance missing_credential_dec c : Decision (missing_credential c).
Proof. destruct c; simpl; apply _. Defined.

Definition aborted_at (evs : list Event) : list nat :=
  omap (fun e => match e with
                 | Settled i c => if decide (missing_credential c) then Some i else None
                 | _ => None
                 end) evs.

(** The indices of the items whose analysis was awaited, in order. *)
Definition settlements (evs : list Event) : list nat :=
  omap (fun e => match e with Settled i _ => Some i | _ => None end) evs.

Definition terminal (p : BatchItem.t) : Prop :=
  BatchItem.status p = completed \/ BatchItem.status p = error.

Definition is_analyzing (p : BatchItem.t) : Prop :=
  BatchItem.status p = analyzing.

#[global] Instance is_analyzing_dec p : Decision (is_analyzing p).
Proof. unfold is_analyzing. apply _. Defined.

(** [getHistory] as a function of the world: what it returns, and the
    world once a load failure is logged. *)
Definition read_history `{Platform} (w : World) : list HistorySession.t * World :=
  match localStorage w !! STORAGE_KEY with
  | Some (String c r) =>
      match JSON_parse_history (String c r) with
      | inr h => (h, w)
      | inl e => ([], emit (Logged level_error "Failed to load history:" (Some e)) w)
      end
  | _ => ([], w)
  end.

Definition quota_error : JsError := Error "QuotaExceededError".

Definition quota_warning : Event :=
  Logged level_warn
    "Storage quota exceeded, trying to save without file content backup..." None.

(** The storage after the sessions [h] are written to the history slot. *)
Definition written `{Platform} (h : list HistorySession.t) (m : gmap string string)
  : gmap string string :=
  <[STORAGE_KEY := JSON_stringify h]> m.

(** [saveSession] as a function of the world. *)
Definition save_run `{Platform} (job : JobContext.t) (items : list BatchItem.t)
    (w : World) : Completion (option HistorySession.t) * World :=
  let w0 := emit (Saving job items) w in
  match completed_scores items with
  | [] => (Normal None, w0)
  | _ =>
      let session := session_at (clock w) job items in
      let '(old, w1) := read_history w0 in
      let full := written (take 20 (session :: old)) (localStorage w) in
      let light := written (take 20 (lightSession_of session :: old)) (localStorage w) in
      if quota full then (Normal (Some session), with_storage full w1)
      else
        let w2 := emit quota_warning w1 in
        if quota light then (Normal (Some session), with_storage light w2)
        else (Normal None,
              emit (Logged level_error "Failed to save history:" (Some quota_error)) w2)
  end.

(** *** The batch, as observed *)

Definition is_idle (p : BatchItem.t) : Prop := BatchItem.status p = idle.

(** A value of [batchItems] in which the items are handled one after the
    other: finished items, then at most one item under analysis, then
    items not started. *)
Inductive in_sequence : list BatchItem.t -> Prop :=
| between_turns d r :
    Forall terminal d -> Forall is_idle r -> in_sequence (d ++ r)
| during_turn d x r :
    Forall terminal d -> is_analyzing x -> Forall is_idle r ->
    in_sequence (d ++ x :: r).

(** The events of the services: provider calls and console lines. *)
Definition service_event (e : Event) : Prop :=
  match e with
  | Requested _ _ | Logged _ _ _ => True
  | _ => False
  end.

(** What the handler makes of item [item] once its analysis settled with
    [c]: the item's next value, or [None] when the handler returns. *)
Definition settle (item : BatchItem.t) (c : Completion (option AnalysisResult.t))
  : option BatchItem.t :=
  match c with
  | Normal result =>
      Some (BatchItem.mk (BatchItem.file item) completed result (BatchItem.error item))
  | Throw e =>
      if decide (message e = "API_KEY_MISSING") then None
      else Some (BatchItem.mk (BatchItem.file item) error (BatchItem.result item)
                              (Some (message e)))
  end.

(** The toast shown for that item. *)
Definition settled_toast (item : BatchItem.t) (c : Completion (option AnalysisResult.t))
  : Event :=
  match c with
  | Normal _ =>
      Toasted ("简历 '" ++ UploadedFile.name (BatchItem.file item) ++ "' 分析完成。") success
  | Throw e =>
      Toasted ("简历 '" ++ UploadedFile.name (BatchItem.file item)
               ++ "' 分析失败：" ++ message e) failure
  end.

(** The missing-credential branch of the handler. *)
Definition abort_toast : Event :=
  Toasted "您的 API Key 无效或未设置，请重新配置。" failure.

Definition abort_world (w : World) : World :=
  emit abort_toast
    (set_hasApiKey false (set_isSettingsOpen true (set_isProcessing false w))).

(** The component state with [batchItems] replaced, and after the
    missing-credential branch. *)
Definition ui_with (b : list BatchItem.t) (u : App.state) : App.state :=
  App.mk (App.files u) (App.jobContext u) b (App.isProcessing u)
         (App.currentView u) (App.historySessions u) (App.isSettingsOpen u)
         (App.hasApiKey u).

Definition ui_aborted (b : list BatchItem.t) (u : App.state) : App.state :=
  App.mk (App.files u) (App.jobContext u) b false
         (App.currentView u) (App.historySessions u) true false.

(** How the loop over the items [all], entered at index [from] in the
    state [u], ends: with every item finished, or in the
    missing-credential branch at the item that follows [done]. *)
Inductive loop_outcome (all : list BatchItem.t) (from : nat) (u : App.state)
  : Completion (option (list BatchItem.t)) -> App.state -> list Event -> Prop :=
| loop_completes final evs :
    BatchItem.file <$> final = BatchItem.file <$> all ->
    Forall terminal final ->
    aborted_at evs = [] ->
    settlements evs = seq from (length all - from) ->
    loop_outcome all from u (Normal (Some final)) (ui_with final u) evs
| loop_aborts done item rest before o :
    BatchItem.file <$> (done ++ item :: rest) = BatchItem.file <$> all ->
    from <= length done ->
    Forall terminal done ->
    Forall is_idle rest ->
    aborted_at before = [] ->
    settlements before = seq from (length done - from) ->
    missing_credential o ->
    loop_outcome all from u (Normal None)
      (ui_aborted (done ++ with_status analyzing item :: rest) u)
      (before ++ [Settled (length done) o; abort_toast]).

(** The two guards at the head of [handleBatchAnalyze] let the batch
    start. *)
Definition gates_open (u : App.state) : Prop :=
  App.hasApiKey u = true /\ App.files u <> [] /\
  JobContext.description (App.jobContext u) <> "".

#[global] Instance gates_open_dec u : Decision (gates_open u).
Proof. unfold gates_open. apply _. Defined.

(** [{ file: f, status: 'idle', result: null }] *)
Definition idle_item (f : UploadedFile.t) : BatchItem.t := BatchItem.mk f idle None None.

(** How a call of [handleBatchAnalyze] in the state [u] ends, with the
    events [evs] it adds to the trace. *)
Inductive batch_outcome (u u' : App.state) (evs : list Event) : Prop :=
| batch_refused :
    ~ gates_open u ->
    App.batchItems u' = App.batchItems u ->
    frames evs = [] -> aborted_at evs = [] -> savings evs = [] ->
    settlements evs = [] ->
    batch_outcome u u' evs
| batch_completes :
    gates_open u ->
    BatchItem.file <$> App.batchItems u' = App.files u ->
    Forall terminal (App.batchItems u') ->
    aborted_at evs = [] ->
    settlements evs = seq 0 (length (App.files u)) ->
    savings evs = [App.batchItems u'] ->
    App.isProcessing u' = false ->
    batch_outcome u u' evs
| batch_aborts done item rest before o :
    gates_open u ->
    App.batchItems u' = done ++ with_status analyzing item :: rest ->
    BatchItem.file <$> (done ++ item :: rest) = App.files u ->
    Forall terminal done ->
    Forall is_idle rest ->
    evs = before ++ [Settled (length done) o; abort_toast] ->
    aborted_at before = [] ->
    settlements before = seq 0 (length done) ->
    missing_credential o ->
    savings evs = [] ->
    App.isSettingsOpen u' = true ->
    App.hasApiKey u' = false ->
    App.isProcessing u' = false ->
    App.historySessions u' = App.historySessions u ->
    batch_outcome u u' evs.

(** The request [analyzeResume] sends for [file] in the world [w]. *)
Definition analysis_request (file : UploadedFile.t) (job : JobContext.t) (w : World)
  : GenerateContent.request :=
  GenerateContent.mk "gemini-2.5-flash"
    (if bool_decide (UploadedFile.type file = image \/ UploadedFile.type file = pdf)
     then [ inlineData (mimeType_of file) (UploadedFile.content file);
            textPart (analysisPrompt job) None ]
     else [ textPart (analysisPrompt job) (Some (UploadedFile.content file)) ])
    (Some analysisSchema)
    (temperature_of (localStorage w !! "gemini_temperature"))
    24576.

(** [analyzeResume] and [handleBatchAnalyze] as functions of the world. *)
Definition analyze_run `{Platform} (file : UploadedFile.t) (job : JobContext.t) (w : World)
  : Completion (option AnalysisResult.t) * World :=
  if truthy (localStorage w !! "gemini_api_key") then
    let ai := mkClient (default "" (localStorage w !! "gemini_api_key")) in
    let req := analysis_request file job w in
    let w1 := with_storage (background (issued w) (localStorage w))
                (with_issued (S (issued w)) (emit (Requested ai req) w)) in
    let fail e :=
      (Throw e, emit (Logged level_error "Gemini Analysis Error:" (Some e)) w1) in
    match generateContent (issued w) ai req with
    | GenerateContent.rejects e => fail e
    | GenerateContent.responds txt =>
        if truthy txt then
          match JSON_parse_analysis (default "" txt) with
          | inl e => fail e
          | inr r => (Normal r, w1)
          end
        else fail (Error "Gemini API 未返回文本数据")
    end
  else (Throw (Error "API_KEY_MISSING"), w).

Definition batch_run `{Platform} (w : World) : Completion () * World :=
  let u := ui w in
  let files := App.files u in
  let jobContext := App.jobContext u in
  if negb (App.hasApiKey u) then
    (Normal (),
     emit (Toasted "请先配置 Google Gemini API Key 才能开始分析。" warning)
       (set_isSettingsOpen true w))
  else if bool_decide (length files = 0)
          || negb (truthy (Some (JobContext.description jobContext))) then
    (Normal (), emit (Toasted "请至少上传一份简历并填写职位描述。" warning) w)
  else
    let initialItems := idle_item <$> files in
    let w0 :=
      emit (Toasted ("开始分析 " ++ Z_toString (Z.of_nat (length files))
                     ++ " 份简历...")%string success)
        (set_isProcessing true
           (set_currentView list_view
              (set_batchItems (fun _ => initialItems) w))) in
    let run := batchLoop jobContext 0 initialItems initialItems w0 in
    match run.1 with
    | Normal (Some processedItems) =>
        let sv :=
          save_run jobContext processedItems
            (emit (Toasted "所有简历批处理完成！" success)
               (set_isProcessing false run.2)) in
        match sv.1 with
        | Normal (Some session) =>
            (Normal (),
             emit (Toasted "本次分析结果已保存到历史记录。" success)
               (set_historySessions (fun prev => session :: prev) sv.2))
        | Normal None => (Normal (), sv.2)
        | Throw e => (Throw e, sv.2)
        end
    | Normal None => (Normal (), run.2)
    | Throw e => (Throw e, run.2)
    end.

(** ** More of the code

    The remaining operations of the history store, the other handlers of
    [App.tsx], the raw-text handler of the detail view, the paste and
    remove handlers of the uploader, and the rows of the results table. *)

(** *** [services/historyService.ts], continued *)

Section HistoryService_more.
Context `{Platform}.

Definition clearHistory : JS unit :=
  localStorage_removeItem STORAGE_KEY.

Definition deleteSession (id : string) : JS (list HistorySession.t) :=
  history ← getHistory;
  let newHistory := filter (fun s => HistorySession.id s <> id) history in
  localStorage_setItem STORAGE_KEY (JSON_stringify newHistory);;
  mret newHistory.

End HistoryService_more.

(** *** [components/ApiKeyModal.tsx], continued *)

Definition handleClearKey (st : ApiKeyModal.state) : JS ApiKeyModal.state :=
  localStorage_removeItem "gemini_api_key";;
  mret (ApiKeyModal.mk "" (ApiKeyModal.temperature st)).

(** *** [App.tsx], continued

    The state of the component that [App.state] leaves out. *)

Module Screen.
Record state := mk {
  selectedDetailId : option string;
  isHistoryOpen : bool;
  temperature : Number.t
}.
End Screen.

Definition set_files (files : list UploadedFile.t) (w : World) : World :=
  let u := ui w in
  with_ui (App.mk files (App.jobContext u) (App.batchItems u)
                  (App.isProcessing u) (App.currentView u)
                  (App.historySessions u) (App.isSettingsOpen u)
                  (App.hasApiKey u)) w.

Definition set_jobContext (job : JobContext.t) (w : World) : World :=
  let u := ui w in
  with_ui (App.mk (App.files u) job (App.batchItems u)
                  (App.isProcessing u) (App.currentView u)
                  (App.historySessions u) (App.isSettingsOpen u)
                  (App.hasApiKey u)) w.

Definition setFiles files : JS unit := update (set_files files).
Definition setJobContext job : JS unit := update (set_jobContext job).

Section AppHandlers_more.
Context `{Platform}.

(** The effect run when the component mounts. *)
Definition onMount : JS unit :=
  sessions ← getHistory;
  setHistorySessions (fun _ => sessions);;
  key ← localStorage_getItem "gemini_api_key";
  let exists_ := truthy key in
  setHasApiKey exists_;;
  if negb exists_ then setIsSettingsOpen true else mret ().

Definition handleSettingsClose (sc : Screen.state) : JS Screen.state :=
  setIsSettingsOpen false;;
  key ← localStorage_getItem "gemini_api_key";
  let keyExists := truthy key in
  setHasApiKey keyExists;;
  (if negb keyExists then showToast "API Key 未配置，部分功能将受限。" warning
   else showToast "API Key 已更新。" success);;
  storedTemp ← localStorage_getItem "gemini_temperature";
  mret (Screen.mk (Screen.selectedDetailId sc) (Screen.isHistoryOpen sc)
                  (temperature_of storedTemp)).

Definition handleReset (sc : Screen.state) : JS Screen.state :=
  setFiles [];;
  setBatchItems (fun _ => []);;
  setCurrentView input;;
  showToast "应用已重置。" success;;
  mret (Screen.mk None (Screen.isHistoryOpen sc) (Screen.temperature sc)).

Definition handleViewDetails (item : BatchItem.t) (sc : Screen.state)
  : JS Screen.state :=
  setCurrentView detail;;
  mret (Screen.mk (Some (file_id item)) (Screen.isHistoryOpen sc)
                  (Screen.temperature sc)).

Definition handleBackToList (sc : Screen.state) : JS Screen.state :=
  setCurrentView list_view;;
  mret (Screen.mk None (Screen.isHistoryOpen sc) (Screen.temperature sc)).

Definition handleRestoreSession (session : HistorySession.t) (sc : Screen.state)
  : JS Screen.state :=
  setJobContext (JobContext.mk (HistorySession.jobTitle session)
                               (HistorySession.jobDescription session));;
  let restoredFiles := BatchItem.file <$> HistorySession.items session in
  setFiles restoredFiles;;
  setBatchItems (fun _ => HistorySession.items session);;
  setCurrentView list_view;;
  showToast ("已恢复历史会话 '" ++ HistorySession.jobTitle session ++ "'。") success;;
  mret (Screen.mk (Screen.selectedDetailId sc) false (Screen.temperature sc)).

Definition handleDeleteSession (id : string) : JS unit :=
  updated ← deleteSession id;
  setHistorySessions (fun _ => updated);;
  showToast "历史记录已删除。" success.

(** [confirmed] is what [window.confirm] returns. *)
Definition handleClearAllHistory (confirmed : bool) : JS unit :=
  if confirmed then
    localStorage_removeItem "resume_ai_history_v1";;
    setHistorySessions (fun _ => []);;
    showToast "所有历史记录已清除。" success
  else mret ().

End AppHandlers_more.

(** [batchItems.find(i => i.file.id === selectedDetailId)] *)
Definition selectedBatchItem (u : App.state) (sc : Screen.state)
  : option BatchItem.t :=
  match Screen.selectedDetailId sc with
  | Some id => list_find (fun i => file_id i = id) (App.batchItems u) ≫= (fun p => Some p.2)
  | None => None
  end.

(** *** The detail view ([components/AnalysisView.tsx])

    The state the raw-text handler reads and writes. *)

Module AnalysisView.
Record state := mk {
  isExtractingText : bool;
  extractedText : option string;
  isRawTextModalOpen : bool
}.

Definition setIsExtractingText (b : bool) (st : state) : state :=
  mk b (extractedText st) (isRawTextModalOpen st).

(** [file] is the optional prop of the view; [onShowToast] is the
    [showToast] of [App]. *)
Definition handleExtractRawText `{Platform} (file : option UploadedFile.t)
    (st : state) : JS state :=
  match file with
  | Some f =>
      if decide (UploadedFile.type f = text) then
        showToast "此简历类型不支持原文提取，或文件信息缺失。" warning;;
        mret st
      else
        let st := setIsExtractingText true st in
        st ← try_catch
               (txt ← extractResumeRawText f;
                let st := mk (isExtractingText st) (Some txt) true in
                showToast "简历原文提取成功！" success;;
                mret st)
               (fun e =>
                  showToast ("提取原文失败：" ++ message e) failure;;
                  console_error "" e;;
                  mret st);
        mret (setIsExtractingText false st)
  | None =>
      showToast "此简历类型不支持原文提取，或文件信息缺失。" warning;;
      mret st
  end.
End AnalysisView.

(** *** The uploader ([components/ResumeUploader.tsx]) *)

Module ResumeUploader.

Inductive Mode := upload | paste.

(** The state of the component that the paste handler reads and writes. *)
Record state := mk { textInput : string; mode : Mode }.

(** [newId] is what [generateId()] returns.  The first component is the
    list handed to [onFilesChange], or [None] when the handler returns
    without calling it. *)
Definition handlePasteSubmit (newId : string) (files : list UploadedFile.t)
    (st : state) : option (list UploadedFile.t) * state :=
  if negb (truthy (Some (ApiKeyModal.trim (textInput st)))) then (None, st)
  else
    let newFile :=
      UploadedFile.mk newId text (textInput st)
        ("粘贴文本 " ++ Z_toString (Z.of_nat (length files + 1))) None in
    (Some (files ++ [newFile]), mk "" upload).

Definition removeFile (id : string) (files : list UploadedFile.t)
  : list UploadedFile.t :=
  filter (fun f => UploadedFile.id f <> id) files.

(** A file of the browser, by its name and MIME type, and what its
    reader yields: the text of the file, or a data URL, of which
    [split(',')[1]] is the payload. *)
Record File := mkFile { file_name : string; file_type : string }.

Inductive Kind := as_binary (type : FileType) | as_text | unsupported.

(** [s.endsWith(t)] *)
Definition endsWith (s t : string) : bool :=
  String.prefix (String.rev t) (String.rev s).

Definition kind_of (file : File) : Kind :=
  let isImage := String.prefix "image/" (file_type file) in
  let isPdf := bool_decide (file_type file = "application/pdf") in
  let isText := bool_decide (file_type file = "text/plain")
                || endsWith (file_name file) ".txt"
                || endsWith (file_name file) ".md" in
  if isImage || isPdf then as_binary (if isPdf then pdf else image)
  else if isText then as_text
  else unsupported.

(** The variables of one call of [processFiles]: the files read so far,
    the counter, and the calls of [onFilesChange] made. *)
Record progress := mkProgress {
  newFiles : list UploadedFile.t;
  processedCount : nat;
  calls : list (list UploadedFile.t)
}.

(** The pass of [forEach] over one file: a reader is started, or the
    file is counted as handled at once. *)
Definition visit (files : list UploadedFile.t) (total : nat) (file : File)
    (p : progress) : progress :=
  match kind_of file with
  | unsupported =>
      let count := S (processedCount p) in
      if bool_decide (count = total) && negb (bool_decide (length (newFiles p) = 0))
      then mkProgress (newFiles p) count (calls p ++ [files ++ newFiles p])
      else mkProgress (newFiles p) count (calls p)
  | _ => p
  end.

(** The [onload] callback of the reader of [file]: [newId] is what
    [generateId()] returns and [read] what the reader yields (the text,
    or the payload of the data URL). *)
Definition onload (files : list UploadedFile.t) (total : nat) (file : File)
    (newId read : string) (p : progress) : progress :=
  match kind_of file with
  | unsupported => p
  | k =>
      let loaded :=
        match k with
        | as_binary t =>
            UploadedFile.mk newId t read (file_name file) (Some (file_type file))
        | _ => UploadedFile.mk newId text read (file_name file) None
        end in
      let new := newFiles p ++ [loaded] in
      let count := S (processedCount p) in
      if bool_decide (count = total)
      then mkProgress new count (calls p ++ [files ++ new])
      else mkProgress new count (calls p)
  end.

(** A reader that finished: the file it read, the id drawn for it and
    what it yielded. *)
Record Loaded := mkLoaded { of_file : File; drawn_id : string; yielded : string }.

(** [processFiles(fileList)] followed by the [onload] callbacks of the
    readers that finish, in the order [finished] in which they do.  The
    result lists the calls of [onFilesChange]. *)
Definition processFiles (files : list UploadedFile.t) (fileList : list File)
    (finished : list Loaded) : list (list UploadedFile.t) :=
  let total := length fileList in
  let started :=
    foldl (fun p file => visit files total file p)
          (mkProgress [] 0 []) fileList in
  calls (foldl (fun p l => onload files total (of_file l) (drawn_id l) (yielded l) p)
               started finished).

End ResumeUploader.

(** *** The results table ([components/BatchResults.tsx]) *)

(** What the table needs of JavaScript's strings: [toLowerCase] and
    [localeCompare] depend on Unicode and on the locale and are left to
    the environment. *)
Class Strings := {
  toLowerCase : string -> string;
  localeCompare : string -> string -> Z
}.

(** [s.includes(t)] *)
Fixpoint includes (s t : string) : bool :=
  String.prefix t s ||
  match s with
  | EmptyString => false
  | String _ r => includes r t
  end.

(** [l.sort(compare)] for a consistent comparator: the sort is stable,
    an element goes before the first one it does not compare greater
    than. *)
Fixpoint sort_insert {A} (compare : A -> A -> Z) (x : A) (l : list A) : list A :=
  match l with
  | [] => [x]
  | y :: r => if (compare x y <=? 0)%Z then x :: l else y :: sort_insert compare x r
  end.

Definition Array_sort {A} (compare : A -> A -> Z) (l : list A) : list A :=
  foldr (sort_insert compare) [] l.

Module BatchResults.

Inductive SortOption := scoreDesc | scoreAsc | nameAsc.
Inductive FilterStatus := ALL | only (r : HiringRecommendation).

#[global] Instance HiringRecommendation_eq_dec : EqDecision HiringRecommendation.
Proof. solve_decision. Defined.

(** [x.result?.score ?? -1] *)
Definition score_or_minus_one (x : BatchItem.t) : Z :=
  match BatchItem.result x with
  | Some r => AnalysisResult.score r
  | None => (-1)%Z
  end.

(** The comparator handed to [sort]. *)
Definition compare `{Strings} (sortBy : SortOption) (a b : BatchItem.t) : Z :=
  let scoreA := score_or_minus_one a in
  let scoreB := score_or_minus_one b in
  match sortBy with
  | scoreDesc => (scoreB - scoreA)%Z
  | scoreAsc =>
      if bool_decide (scoreA = (-1)%Z /\ scoreB <> (-1)%Z) then 1%Z
      else if bool_decide (scoreB = (-1)%Z /\ scoreA <> (-1)%Z) then (-1)%Z
      else (scoreA - scoreB)%Z
  | nameAsc =>
      localeCompare (UploadedFile.name (BatchItem.file a))
                    (UploadedFile.name (BatchItem.file b))
  end.

Definition matches_search `{Strings} (lowerTerm : string) (item : BatchItem.t) : bool :=
  includes (toLowerCase (UploadedFile.name (BatchItem.file item))) lowerTerm
  || match BatchItem.result item with
     | Some r =>
         truthy (Some (AnalysisResult.candidateName r))
         && includes (toLowerCase (AnalysisResult.candidateName r)) lowerTerm
     | None => false
     end.

(** The body of the [useMemo]: the rows shown. *)
Definition processedItems `{Strings} (items : list BatchItem.t) (searchTerm : string)
    (sortBy : SortOption) (filterRec : FilterStatus) (minScore : Z)
  : list BatchItem.t :=
  let result := items in
  let result :=
    if truthy (Some searchTerm) then
      let lowerTerm := toLowerCase searchTerm in
      List.filter (matches_search lowerTerm) result
    else result in
  let result :=
    match filterRec with
    | ALL => result
    | only rec =>
        List.filter
          (fun item =>
             bool_decide (AnalysisResult.recommendation <$> BatchItem.result item
                          = Some rec))
          result
    end in
  let result :=
    if (0 <? minScore)%Z then
      List.filter
        (fun item =>
           (minScore <=? or_zero (AnalysisResult.score <$> BatchItem.result item))%Z)
        result
    else result in
  Array_sort (compare sortBy) result.

End BatchResults.

(** *** Vocabulary of the further statements *)

(** The settlements among the events [evs]: the index of the item and
    how its analysis ended. *)
Definition outcomes (evs : list Event)
  : list (nat * Completion (option AnalysisResult.t)) :=
  omap (fun e => match e with Settled i c => Some (i, c) | _ => None end) evs.

Definition is_log (e : Event) : Prop :=
  match e with Logged _ _ _ => True | _ => False end.

Definition is_toast (e : Event) : Prop :=
  match e with Toasted _ _ => True | _ => False end.

(** The list of sessions the component shows is the stored one. *)
Definition mirrors `{Platform} (w : World) : Prop :=
  App.historySessions (ui w) = stored_history (localStorage w).

(** The part of the component state that the loop leaves alone. *)
Definition same_inputs (u u' : App.state) : Prop :=
  App.files u' = App.files u /\ App.jobContext u' = App.jobContext u /\
  App.currentView u' = App.currentView u /\
  App.historySessions u' = App.historySessions u.


(** The request [extractResumeRawText] sends for [file] in the world
    [w]. *)
Definition extraction_request (file : UploadedFile.t) (w : World)
  : GenerateContent.request :=
  GenerateContent.mk "gemini-2.5-flash"
    [ textPart extractionPrompt None;
      inlineData (mimeType_of file) (UploadedFile.content file) ]
    None
    (temperature_of (localStorage w !! "gemini_temperature"))
    24576.

(** The world once the request [req] is issued through [ai] and
    awaited. *)
Definition requested `{Platform} (ai : GoogleGenAI) (req : GenerateContent.request)
    (w : World) : World :=
  with_storage (background (issued w) (localStorage w))
    (with_issued (S (issued w)) (emit (Requested ai req) w)).

(** [extractResumeRawText], for a file that is not text, as a function
    of the world. *)
Definition extract_run `{Platform} (file : UploadedFile.t) (w : World)
  : Completion string * World :=
  if truthy (localStorage w !! "gemini_api_key") then
    let ai := mkClient (default "" (localStorage w !! "gemini_api_key")) in
    let req := extraction_request file w in
    let w1 := requested ai req w in
    match generateContent (issued w) ai req with
    | GenerateContent.rejects e =>
        (Throw e,
         emit (Logged level_error "Gemini Raw Text Extraction Error:" (Some e)) w1)
    | GenerateContent.responds txt =>
        (Normal (if truthy txt then default "" txt
                 else "未能从文件中提取到任何文本。"), w1)
    end
  else (Throw (Error "API_KEY_MISSING"), w).

(** The file a finished reader adds to [newFiles]. *)
Definition uploaded (l : ResumeUploader.Loaded) : UploadedFile.t :=
  let file := ResumeUploader.of_file l in
  match ResumeUploader.kind_of file with
  | ResumeUploader.as_binary t =>
      UploadedFile.mk (ResumeUploader.drawn_id l) t (ResumeUploader.yielded l)
        (ResumeUploader.file_name file) (Some (ResumeUploader.file_type file))
  | _ =>
      UploadedFile.mk (ResumeUploader.drawn_id l) text (ResumeUploader.yielded l)
        (ResumeUploader.file_name file) None
  end.

(** The file is one for which [processFiles] starts a reader. *)
Definition is_read (file : ResumeUploader.File) : Prop :=
  ResumeUploader.kind_of file <> ResumeUploader.unsupported.

#[global] Instance Kind_eq_dec : EqDecision ResumeUploader.Kind.
Proof. solve_decision. Defined.

#[global] Instance is_read_dec file : Decision (is_read file).
Proof. unfold is_read. apply _. Defined.

(** An item passes the filters of the table that are switched on. *)
Definition passes `{Strings} (searchTerm : string)
    (filterRec : BatchResults.FilterStatus) (minScore : Z) (item : BatchItem.t)
  : bool :=
  (negb (truthy (Some searchTerm))
   || BatchResults.matches_search (toLowerCase searchTerm) item)
  && match filterRec with
     | BatchResults.ALL => true
     | BatchResults.only rec =>
         bool_decide (AnalysisResult.recommendation <$> BatchItem.result item
                      = Some rec)
     end
  && (negb (0 <? minScore)%Z
      || (minScore <=? or_zero (AnalysisResult.score <$> BatchItem.result item))%Z).

(** [a] may stand before [b] in a list sorted with [compare]. *)
Definition precedes {A} (compare : A -> A -> Z) (a b : A) : Prop :=
  (compare a b <= 0)%Z.

(** *** Inputs for the further examples *)

Module Samples.

(** A storage that takes a one-letter key and then refuses the
    temperature. *)
Definition narrow : Platform := Demo.platform 30 [] Demo.quiet.


Definition three_past : World := Demo.world (Demo.holding 3) [] Demo.job true.
Definition two_past : World := Demo.world (Demo.holding 2) [] Demo.job true.
Definition with_key : World := Demo.world Demo.keyed [] Demo.job true.
Definition three_selected : World :=
  Demo.world Demo.keyed Demo.three_files Demo.job true.
Definition listed : World :=
  set_batchItems (fun _ => Demo.three_done) Demo.empty_world.

Definition dialog : ApiKeyModal.state :=
  ApiKeyModal.mk "  AIza-demo " (Number.Finite (37 # 100)).
Definition short_key : ApiKeyModal.state :=
  ApiKeyModal.mk "k" (Number.Finite (4 # 10)).
Definition screen : Screen.state := Screen.mk None false (Number.Finite (4 # 10)).

(** A selection of a scan, a program and a text, of which the text is
    read first. *)
Definition a_pdf : ResumeUploader.File :=
  ResumeUploader.mkFile "a.pdf" "application/pdf".
Definition b_txt : ResumeUploader.File := ResumeUploader.mkFile "b.txt" "".
Definition selection : list ResumeUploader.File :=
  [a_pdf; ResumeUploader.mkFile "setup.exe" "application/octet-stream"; b_txt].
Definition readers : list ResumeUploader.Loaded :=
  [ResumeUploader.mkLoaded b_txt "id2" "BBBB";
   ResumeUploader.mkLoaded a_pdf "id1" "QUFB"].

Definition pasted : ResumeUploader.state :=
  ResumeUploader.mk " hello " ResumeUploader.paste.

(** Texts given by the bytes of their encoding: U+3000, U+00A0, U+FEFF,
    U+2028, which are white space, and U+200B, which is not. *)
Definition utf8 (bytes : list N) : string :=
  foldr (fun n s => String (Ascii.ascii_of_N n) s) EmptyString bytes.

Definition ideographic_space : string := utf8 [227; 128; 128]%N.
Definition no_break_space : string := utf8 [194; 160]%N.
Definition byte_order_mark : string := utf8 [239; 187; 191]%N.
Definition line_separator : string := utf8 [226; 128; 168]%N.
Definition zero_width_space : string := utf8 [226; 128; 139]%N.

End Samples.

(** * Theorems *)

(** One step of a computation: the first bind is opened, and the first
    occurrence of the primitive [op] with it. *)
Ltac bind_step := unfold mbind at 1; unfold JS_bind at 1; cbn beta iota.
Ltac run_step op :=
  bind_step; unfold op at 1; try unfold update at 1; try unfold observe at 1;
  cbn beta iota.

(** ** Numbers *)

Example parseFloat_ex1 : Number.parseFloat "1.7" = Number.Finite (17 # 10).
Proof. reflexivity. Qed.
Example parseFloat_ex2 : Number.parseFloat " -0.3abc" = Number.Finite (-3 # 10).
Proof. reflexivity. Qed.
Example parseFloat_ex3 : Number.parseFloat "abc" = Number.NaN.
Proof. reflexivity. Qed.
Example parseFloat_ex4 : Number.parseFloat "2.5e-1" = Number.Finite (1 # 4).
Proof. reflexivity. Qed.
Example parseFloat_ex5 : Number.parseFloat ".5" = Number.Finite (1 # 2).
Proof. reflexivity. Qed.
Example parseFloat_ex6 : Number.parseFloat "-Infinityx" = Number.Infinity true.
Proof. reflexivity. Qed.
Example parseFloat_ex7 : Number.parseFloat "1e" = Number.Finite 1.
Proof. reflexivity. Qed.
Example toFixed_ex1 : Number.toFixed1 (Number.Finite (4 # 10)) = "0.4".
Proof. reflexivity. Qed.
Example toFixed_ex2 : Number.toFixed1 (Number.Finite 1) = "1.0".
Proof. reflexivity. Qed.
Example toFixed_ex3 : Number.toFixed1 (Number.Finite (-123 # 100)) = "-1.2".
Proof. reflexivity. Qed.

Lemma Math_round_rounds_to (q : Q) : rounds_to q (Math_round q).
Proof.
  unfold rounds_to, Math_round.
  pose proof (Qfloor_le (q + (1 # 2))) as Hle.
  pose proof (Qlt_floor (q + (1 # 2))) as Hlt.
  rewrite inject_Z_plus in Hlt.
  set (f := inject_Z (Qfloor (q + (1 # 2)))) in *.
  change (inject_Z 1) with 1%Q in Hlt.
  split; lra.
Qed.

Lemma rounds_to_unique (q : Q) (a b : Z) : rounds_to q a -> rounds_to q b -> a = b.
Proof.
  unfold rounds_to. intros [Ha1 Ha2] [Hb1 Hb2].
  assert (inject_Z a < inject_Z (b + 1))%Q as H1.
  { rewrite inject_Z_plus. change (inject_Z 1) with 1%Q.
    set (x := inject_Z a) in *. set (y := inject_Z b) in *. lra. }
  assert (inject_Z b < inject_Z (a + 1))%Q as H2.
  { rewrite inject_Z_plus. change (inject_Z 1) with 1%Q.
    set (x := inject_Z a) in *. set (y := inject_Z b) in *. lra. }
  rewrite <- Zlt_Qlt in H1, H2.
  lia.
Qed.

(** ** The history store *)

Section HistoryStore_facts.
Context `{Platform}.

Lemma getHistory_run w :
  getHistory w = (Normal (read_history w).1, (read_history w).2).
Proof.
  unfold getHistory, read_history, try_catch, mbind, JS_bind,
    localStorage_getItem, observe.
  destruct (localStorage w !! STORAGE_KEY) as [[|c r]|]; simpl; try reflexivity.
  destruct (JSON_parse_history (String c r)); reflexivity.
Qed.

Lemma read_history_fst w : (read_history w).1 = stored_history (localStorage w).
Proof.
  unfold read_history, stored_history.
  destruct (localStorage w !! STORAGE_KEY) as [[|c r]|]; simpl; try reflexivity.
  destruct (JSON_parse_history (String c r)); reflexivity.
Qed.

Lemma read_history_storage w : localStorage (read_history w).2 = localStorage w.
Proof.
  unfold read_history.
  destruct (localStorage w !! STORAGE_KEY) as [[|c r]|]; simpl; try reflexivity.
  destruct (JSON_parse_history (String c r)); reflexivity.
Qed.

Lemma completed_scores_cons i items :
  completed_scores (i :: items) =
  if decide (is_completed i)
  then or_zero (AnalysisResult.score <$> BatchItem.result i) :: completed_scores items
  else completed_scores items.
Proof.
  unfold completed_scores. simpl.
  destruct (decide (is_completed i)) as [[E [r R]]|N].
  - rewrite (decide_True _ _ E), R. simpl.
    destruct (Z.eqb_spec (AnalysisResult.score r) 0) as [->|]; reflexivity.
  - destruct (decide (BatchItem.status i = completed)) as [E|E]; [|reflexivity].
    destruct (BatchItem.result i) as [r|] eqn:R; [|reflexivity].
    exfalso. apply N. split; [done|]. rewrite R. eauto.
Qed.

Lemma completed_scores_length items :
  length (completed_scores items) = length (filter is_completed items).
Proof.
  induction items as [|i items IH]; [reflexivity|].
  rewrite completed_scores_cons, filter_cons.
  destruct (decide (is_completed i)); simpl; by rewrite IH.
Qed.

Lemma completed_scores_nil items :
  completed_scores items = [] <-> (forall i, i ∈ items -> ~ is_completed i).
Proof.
  induction items as [|i items IH].
  - split; [|done]. intros _ i Hi. by apply not_elem_of_nil in Hi.
  - rewrite completed_scores_cons. destruct (decide (is_completed i)) as [C|C].
    + split; [done|]. intros Hall. exfalso. apply (Hall i); [left|done].
    + rewrite IH. split.
      * intros Hall j Hj. apply elem_of_cons in Hj as [->|Hj]; auto.
      * intros Hall j Hj. apply Hall. by right.
Qed.

Lemma totalScore_sum items acc :
  foldl (fun acc curr =>
           (acc + or_zero (AnalysisResult.score <$> BatchItem.result curr))%Z)
        acc (filter is_completed items)
  = (acc + sum_Z (completed_scores items))%Z.
Proof.
  revert acc. induction items as [|i items IH]; intros acc; [simpl; lia|].
  rewrite completed_scores_cons, filter_cons.
  destruct (decide (is_completed i)); simpl; rewrite IH; simpl; lia.
Qed.

Lemma saveSession_run job items w : saveSession job items w = save_run job items w.
Proof.
  unfold saveSession, save_run, written.
  unfold mbind at 1. unfold JS_bind at 1. unfold update at 1.
  unfold try_catch at 1.
  pose proof (completed_scores_length items) as L.
  case_bool_decide as E.
  - rewrite E in L. destruct (completed_scores items); [reflexivity|discriminate].
  - destruct (completed_scores items) as [|z zs] eqn:C; [simpl in L; lia|].
    clear L. pose proof (completed_scores_length items) as L.
    unfold mbind, JS_bind, Date_now, observe.
    rewrite getHistory_run.
    destruct (read_history (emit (Saving job items) w)) as [old w1] eqn:R.
    simpl fst. simpl snd.
    assert (localStorage w1 = localStorage w) as Hs.
    { pose proof (read_history_storage (emit (Saving job items) w)) as X.
      rewrite R in X. exact X. }
    unfold try_catch, localStorage_setItem, mbind, JS_bind, observe.
    rewrite Hs.
    rewrite totalScore_sum, <- L, Z.add_0_l.
    fold (mean (completed_scores items)).
    change (clock (emit (Saving job items) w)) with (clock w).
    fold (session_at (clock w) job items).
    destruct (quota (<[STORAGE_KEY:=JSON_stringify
                (take 20 (session_at (clock w) job items :: old))]>
                (localStorage w))) eqn:Q1; [reflexivity|].
    unfold throw, console_warn, update.
    change (localStorage (emit _ w1)) with (localStorage w1). rewrite Hs.
    destruct (quota (<[STORAGE_KEY:=JSON_stringify
                (take 20 (lightSession_of (session_at (clock w) job items) :: old))]>
                (localStorage w))) eqn:Q2; reflexivity.
Qed.

Lemma read_history_saving job items w :
  (read_history (emit (Saving job items) w)).1 = stored_history (localStorage w).
Proof. by rewrite read_history_fst. Qed.

End HistoryStore_facts.

Section HistoryStore_claims.
Context `{Platform}.

(** C4. When no item has status [completed] with a present result,
    [saveSession] returns [null] and the storage is left as it was. *)
Theorem saveSession_nothing_completed job items w :
  (forall i, i ∈ items ->
     ~ (BatchItem.status i = completed /\ is_Some (BatchItem.result i))) ->
  (saveSession job items w).1 = Normal None /\
  localStorage (saveSession job items w).2 = localStorage w.
Proof.
  intros Hnone. rewrite saveSession_run. unfold save_run.
  apply completed_scores_nil in Hnone. rewrite Hnone. split; reflexivity.
Qed.

(** C6. The [averageScore] of a saved session is the mean of the scores
    of the items with status [completed] and a present result, rounded
    to the nearest integer. *)
Theorem saveSession_averageScore job items w s w' :
  saveSession job items w = (Normal (Some s), w') ->
  completed_scores items <> [] /\
  rounds_to (mean (completed_scores items)) (HistorySession.averageScore s).
Proof.
  rewrite saveSession_run. unfold save_run.
  destruct (completed_scores items) as [|z zs] eqn:C; [discriminate|].
  rewrite <- C.
  destruct (read_history _) as [old w1].
  intros Hrun. split; [by rewrite C|].
  assert (s = session_at (clock w) job items) as ->.
  { destruct (quota _); [congruence|]. destruct (quota _); congruence. }
  apply Math_round_rounds_to.
Qed.

(** C10. When the history slot is absent, or holds a text that is not
    valid JSON, [getHistory] returns the empty list: nothing is thrown
    to the caller, and the storage is not touched. *)
Theorem getHistory_absent_or_invalid w :
  (localStorage w !! STORAGE_KEY = None \/
   exists s e, localStorage w !! STORAGE_KEY = Some s /\
               JSON_parse_history s = inl e) ->
  (getHistory w).1 = Normal [] /\
  localStorage (getHistory w).2 = localStorage w.
Proof.
  intros Hslot. rewrite getHistory_run. simpl.
  rewrite read_history_storage. split; [|done].
  f_equal. unfold read_history.
  destruct Hslot as [-> | (s & e & -> & Hbad)]; [done|].
  destruct s as [|c r]; [done|]. by rewrite Hbad.
Qed.

(** C5. After a successful save the history slot holds the new session
    (as built, or without its file contents after a degraded write)
    followed by the sessions stored before, cut to 20: with 20 sessions
    stored, the 19 newest of them follow the new one and the oldest is
    gone.  [getHistory] reads this list back whenever the platform's
    JSON reads back what it printed. *)
Theorem saveSession_prepends_and_caps job items w s w' :
  saveSession job items w = (Normal (Some s), w') ->
  let old := stored_history (localStorage w) in
  exists p persisted,
    (p = s \/ p = lightSession_of s) /\
    localStorage w' = written persisted (localStorage w) /\
    persisted = take 20 (p :: old) /\
    persisted = p :: take 19 old /\
    length persisted <= 20 /\
    (20 <= length old -> length persisted = 20) /\
    (JSON_stringify persisted <> "" ->
     JSON_parse_history (JSON_stringify persisted) = inr persisted ->
     stored_history (localStorage w') = persisted).
Proof.
  rewrite saveSession_run. unfold save_run.
  destruct (completed_scores items) as [|z zs] eqn:C; [discriminate|].
  clear C z zs.
  destruct (read_history _) as [old' w1] eqn:R.
  assert (old' = stored_history (localStorage w)) as ->.
  { rewrite <- (read_history_saving job items w), R. done. }
  set (old := stored_history (localStorage w)).
  set (session := session_at (clock w) job items).
  intros Hrun.
  assert (forall p,
    localStorage w' = written (take 20 (p :: old)) (localStorage w) ->
    (p = s \/ p = lightSession_of s) ->
    exists p persisted,
      (p = s \/ p = lightSession_of s) /\
      localStorage w' = written persisted (localStorage w) /\
      persisted = take 20 (p :: old) /\
      persisted = p :: take 19 old /\
      length persisted <= 20 /\
      (20 <= length old -> length persisted = 20) /\
      (JSON_stringify persisted <> "" ->
       JSON_parse_history (JSON_stringify persisted) = inr persisted ->
       stored_history (localStorage w') = persisted)) as Hgoal.
  { intros p Hw' Hp. exists p, (take 20 (p :: old)).
    repeat split; try done.
    - rewrite length_take. lia.
    - intros Hold. rewrite length_take, length_cons. fold old in Hold. lia.
    - intros Hne Hback. rewrite Hw'. unfold stored_history, written.
      rewrite lookup_insert_eq.
      destruct (JSON_stringify (take 20 (p :: old))) as [|c r] eqn:T; [done|].
      by rewrite Hback. }
  destruct (quota _).
  - injection Hrun as <- <-. apply (Hgoal session); [done|by left].
  - destruct (quota _); [|discriminate].
    injection Hrun as <- <-. apply (Hgoal (lightSession_of session)); [done|by right].
Qed.

End HistoryStore_claims.

Section HistoryStore_degraded.
Context `{Platform}.

(** C3 (amended). When the first write of a session is refused, the
    write is tried again with the content of every item's file emptied
    and every other field kept.  If that write is accepted the session
    is returned and the slot holds the lighter list.  If it is refused
    too, [saveSession] logs the failure and returns [null] without
    throwing, and the storage is left as it was. *)
Theorem saveSession_degrades job items w :
  completed_scores items <> [] ->
  let session := session_at (clock w) job items in
  let old := stored_history (localStorage w) in
  let light := lightSession_of session in
  quota (written (take 20 (session :: old)) (localStorage w)) = false ->
  let after := saveSession job items w in
  (HistorySession.items light = without_content <$> items /\
   Forall2 (fun item stripped =>
              UploadedFile.content (BatchItem.file stripped) = "" /\
              UploadedFile.id (BatchItem.file stripped)
                = UploadedFile.id (BatchItem.file item) /\
              UploadedFile.type (BatchItem.file stripped)
                = UploadedFile.type (BatchItem.file item) /\
              UploadedFile.name (BatchItem.file stripped)
                = UploadedFile.name (BatchItem.file item) /\
              UploadedFile.mimeType (BatchItem.file stripped)
                = UploadedFile.mimeType (BatchItem.file item) /\
              BatchItem.status stripped = BatchItem.status item /\
              BatchItem.result stripped = BatchItem.result item /\
              BatchItem.error stripped = BatchItem.error item)
           items (HistorySession.items light)) /\
  (quota (written (take 20 (light :: old)) (localStorage w)) = true ->
   after.1 = Normal (Some session) /\
   localStorage after.2 = written (take 20 (light :: old)) (localStorage w)) /\
  (quota (written (take 20 (light :: old)) (localStorage w)) = false ->
   after.1 = Normal None /\
   ~ raises after.1 /\
   localStorage after.2 = localStorage w /\
   Logged level_error "Failed to save history:" (Some quota_error) ∈ trace after.2).
Proof.
  intros Hsome session old light Hfull after. subst after.
  rewrite saveSession_run. unfold save_run.
  destruct (completed_scores items) as [|z zs] eqn:C; [done|]. clear Hsome C z zs.
  destruct (read_history _) as [old' w1] eqn:R.
  assert (old' = old) as ->.
  { subst old. rewrite <- (read_history_saving job items w), R. done. }
  assert (localStorage w1 = localStorage w) as Hs.
  { pose proof (read_history_storage (emit (Saving job items) w)) as X.
    rewrite R in X. exact X. }
  fold session. fold light. rewrite Hfull.
  split; [|split].
  - split; [reflexivity|]. simpl.
    apply Forall2_fmap_r, Forall_Forall2_diag, Forall_forall.
    intros item _. repeat split.
  - intros ->. simpl. done.
  - intros ->. simpl. repeat split; try done.
    + tauto.
    + apply elem_of_app. right. left.
Qed.

End HistoryStore_degraded.

(** C3, as stated, fails: with a storage that refuses both writes the
    caller gets [null], exactly what it gets when nothing was there to
    save, and no exception. *)
Lemma saveSession_swallows_second_failure :
  let w := Demo.empty_world in
  let session := session_at (clock w) Demo.job Demo.three_done in
  let after := @saveSession Demo.cramped Demo.job Demo.three_done w in
  @quota Demo.cramped (@written Demo.cramped [session] (localStorage w)) = false /\
  @quota Demo.cramped
    (@written Demo.cramped [lightSession_of session] (localStorage w)) = false /\
  ~ raises after.1 /\
  after.1 = (@saveSession Demo.cramped Demo.job Demo.none_done w).1.
Proof. vm_compute. repeat split; tauto. Qed.

Lemma saveSession_degrades_witness :
  let w := Demo.empty_world in
  let session := session_at (clock w) Demo.job Demo.three_done in
  let after := @saveSession Demo.tight Demo.job Demo.three_done w in
  after.1 = Normal (Some session) /\
  localStorage after.2 = @written Demo.tight [lightSession_of session] (localStorage w).
Proof.
  apply (@saveSession_degrades Demo.tight Demo.job Demo.three_done Demo.empty_world);
    vm_compute; [discriminate | reflexivity | reflexivity].
Defined.

Lemma saveSession_nothing_completed_witness :
  (@saveSession Demo.roomy Demo.job Demo.none_done
     (Demo.world (Demo.holding 2) [] Demo.job true)).1 = Normal None /\
  localStorage (@saveSession Demo.roomy Demo.job Demo.none_done
     (Demo.world (Demo.holding 2) [] Demo.job true)).2 = Demo.holding 2.
Proof.
  apply (@saveSession_nothing_completed Demo.roomy).
  intros i Hi. vm_compute in Hi.
  repeat (apply elem_of_cons in Hi as [->|Hi]); vm_compute;
    [intros [? _]; discriminate | intros [? _]; discriminate
    | intros [_ [? ?]]; discriminate | by apply not_elem_of_nil in Hi].
Defined.

(** C6, the example: items scoring 80, 60 and 100 average to 80. *)
Example averageScore_80_60_100 :
  HistorySession.averageScore
    (session_at 0 Demo.job Demo.three_done) = 80%Z /\
  completed_scores Demo.three_done = [80; 60; 100]%Z.
Proof. vm_compute. done. Qed.

Lemma saveSession_averageScore_witness :
  rounds_to (mean [80; 60; 100]%Z) 80.
Proof.
  apply (@saveSession_averageScore Demo.roomy Demo.job Demo.three_done
           Demo.empty_world
           (session_at (clock Demo.empty_world) Demo.job Demo.three_done)
           (@saveSession Demo.roomy Demo.job Demo.three_done Demo.empty_world).2).
  vm_compute. reflexivity.
Defined.

Lemma getHistory_absent_or_invalid_witness :
  let w := Demo.world {[ STORAGE_KEY := "((oops" ]} [] Demo.job true in
  (@getHistory Demo.roomy w).1 = Normal [] /\
  localStorage (@getHistory Demo.roomy w).2 = localStorage w.
Proof.
  apply (@getHistory_absent_or_invalid Demo.roomy).
  right. exists "((oops", (Error "SyntaxError"). vm_compute. done.
Defined.

Lemma saveSession_prepends_and_caps_witness :
  let w := Demo.world (Demo.holding 20) [] Demo.job true in
  let s := session_at (clock w) Demo.job Demo.three_done in
  exists p persisted,
    (p = s \/ p = lightSession_of s) /\
    localStorage (@saveSession Demo.roomy Demo.job Demo.three_done w).2
      = @written Demo.roomy persisted (localStorage w) /\
    persisted = take 20 (p :: @stored_history Demo.roomy (localStorage w)) /\
    persisted = p :: take 19 (@stored_history Demo.roomy (localStorage w)) /\
    length persisted <= 20 /\
    (20 <= length (@stored_history Demo.roomy (localStorage w)) ->
     length persisted = 20) /\
    (@JSON_stringify Demo.roomy persisted <> "" ->
     @JSON_parse_history Demo.roomy (@JSON_stringify Demo.roomy persisted)
       = inr persisted ->
     @stored_history Demo.roomy
       (localStorage (@saveSession Demo.roomy Demo.job Demo.three_done w).2)
       = persisted).
Proof.
  apply (@saveSession_prepends_and_caps Demo.roomy Demo.job Demo.three_done).
  vm_compute. reflexivity.
Defined.

(** C5, the example: a 21st save leaves 20 sessions, the new one first
    and the oldest of the 20 (number 19 here, stored last) gone. *)
Example twenty_first_save :
  let w := Demo.world (Demo.holding 20) [] Demo.job true in
  HistorySession.id <$>
    @stored_history Demo.roomy
      (localStorage (@saveSession Demo.roomy Demo.job Demo.three_done w).2)
  = "1700000000000" :: (Z_toString <$> (Z.of_nat <$> seq 0 19)).
Proof. vm_compute. reflexivity. Qed.

(** ** The analysis client *)

Section GeminiService_claims.
Context `{Platform}.

Lemma getAIClient_run w :
  getAIClient w =
  if truthy (localStorage w !! "gemini_api_key")
  then (Normal (mkClient (default "" (localStorage w !! "gemini_api_key"))), w)
  else (Throw (Error "API_KEY_MISSING"), w).
Proof.
  unfold getAIClient, getApiKey, localStorage_getItem, observe, mbind, JS_bind.
  destruct (truthy _); reflexivity.
Qed.

(** C7 (amended). For a text file, [extractResumeRawText] issues no
    provider call and changes nothing.  With a credential stored it
    returns the file's content unchanged; without one it fails with the
    missing-credential error, the check coming first. *)
Theorem extractResumeRawText_text file w :
  UploadedFile.type file = text ->
  let after := extractResumeRawText file w in
  after.2 = w /\
  requests (trace after.2) = requests (trace w) /\
  (truthy (localStorage w !! "gemini_api_key") = true ->
   after.1 = Normal (UploadedFile.content file)) /\
  (truthy (localStorage w !! "gemini_api_key") = false ->
   after.1 = Throw (Error "API_KEY_MISSING")).
Proof.
  intros Htext after.
  assert (after =
          if truthy (localStorage w !! "gemini_api_key")
          then (Normal (UploadedFile.content file), w)
          else (Throw (Error "API_KEY_MISSING"), w)) as ->.
  { subst after. unfold extractResumeRawText.
    destruct (decide (UploadedFile.type file = text)) as [_|Hno]; [|done].
    unfold mbind at 1. unfold JS_bind at 1. rewrite getAIClient_run.
    destruct (truthy (localStorage w !! "gemini_api_key")); reflexivity. }
  destruct (truthy (localStorage w !! "gemini_api_key")); simpl; done.
Qed.

End GeminiService_claims.

(** C7, as stated, fails: without a stored credential the content of a
    text file is not returned. *)
Lemma extractResumeRawText_text_needs_key :
  let file := Demo.cv "a" "AAAA" in
  UploadedFile.type file = text /\
  (@extractResumeRawText Demo.roomy file Demo.empty_world).1
    = Throw (Error "API_KEY_MISSING") /\
  (@extractResumeRawText Demo.roomy file Demo.empty_world).1
    <> Normal (UploadedFile.content file).
Proof. vm_compute. repeat split; discriminate. Qed.

Lemma extractResumeRawText_text_witness :
  let w := Demo.world {[ "gemini_api_key" := "AIza-demo" ]} [] Demo.job true in
  (@extractResumeRawText Demo.roomy (Demo.cv "a" "AAAA") w).2 = w /\
  (@extractResumeRawText Demo.roomy (Demo.cv "a" "AAAA") w).1 = Normal "AAAA".
Proof.
  pose proof (@extractResumeRawText_text Demo.roomy (Demo.cv "a" "AAAA")
                (Demo.world {[ "gemini_api_key" := "AIza-demo" ]} [] Demo.job true)
                eq_refl) as (Hworld & _ & Hkey & _).
  split; [exact Hworld | apply Hkey; vm_compute; reflexivity].
Defined.

(** ** The sampling temperature *)

Lemma clamp_between x : Number.isNaN x = false -> Number.between 0 1 (clamp x).
Proof.
  destruct x as [|[]|q]; simpl; try done.
  intros _. unfold clamp, Number.Math_min, Number.Math_max, Number.of_Z.
  simpl Number.leb.
  destruct (Qle_bool (inject_Z 1) q) eqn:E1; simpl.
  - done.
  - destruct (Qle_bool (inject_Z 0) q) eqn:E0; simpl.
    + apply Qle_bool_iff in E0. split; [exact E0|].
      apply Qnot_lt_le. intros Hlt. apply Qlt_le_weak, Qle_bool_iff in Hlt.
      change (inject_Z 1) with 1%Q in E1. congruence.
    + done.
Qed.

(** On read: a stored text that starts with a number gives a temperature
    in [0, 1], and so does an absent or empty one. *)
Lemma temperature_of_between storedTemp :
  (truthy storedTemp = true ->
   Number.isNaN (Number.parseFloat (default "" storedTemp)) = false) ->
  Number.between 0 1 (temperature_of storedTemp).
Proof.
  unfold temperature_of. destruct (truthy storedTemp).
  - intros Hnum. apply clamp_between. by apply Hnum.
  - intros _. simpl. split; discriminate.
Qed.

(** On write: a change of the input keeps the dialog's temperature in
    [0, 1]. *)
Lemma handleTemperatureChange_between value st :
  Number.between 0 1 (ApiKeyModal.temperature st) ->
  Number.between 0 1
    (ApiKeyModal.temperature (ApiKeyModal.handleTemperatureChange value st)).
Proof.
  intros Hst. unfold ApiKeyModal.handleTemperatureChange.
  destruct (Number.isNaN (Number.parseFloat value)) eqn:E; simpl; [done|].
  by apply clamp_between.
Qed.

(** C8, the examples: an input of 1.7 is persisted as 1.0, one of -0.3
    as 0.0. *)
Example temperature_inputs_persisted :
  let st := ApiKeyModal.mk "AIza-demo" (Number.Finite (4 # 10)) in
  let saved value :=
    localStorage
      (@ApiKeyModal.handleSave Demo.roomy (mret ())
         (ApiKeyModal.handleTemperatureChange value st) Demo.empty_world).2
      !! "gemini_temperature" in
  saved "1.7" = Some "1.0" /\ saved "-0.3" = Some "0.0".
Proof. vm_compute. done. Qed.

(** C8, where the code departs from it: a stored text that is not a
    number is read as [NaN], not as the default 0.4 the comment of
    [getTemperature] announces, and [NaN] is what the request carries;
    the dialog then persists the text NaN. *)
Theorem getTemperature_invalid_text :
  let w := Demo.world {[ "gemini_temperature" := "abc" ]} [] Demo.job true in
  (getTemperature w).1 = Normal Number.NaN /\
  ~ Number.between 0 1 Number.NaN /\
  (st' ← ApiKeyModal.onOpen (ApiKeyModal.mk "" (Number.Finite (4 # 10)));
   @ApiKeyModal.handleSave Demo.roomy (mret ()) st') w
  = (Normal (), with_storage {[ "gemini_temperature" := "NaN" ]} w).
Proof.
  split; [reflexivity|]. split; [intros []|]. vm_compute. reflexivity.
Qed.

(** ** The batch orchestrator *)

Section Orchestrator_facts.
Context `{Platform}.

Lemma batchLoop_cons job i item rest p w :
  batchLoop job i (item :: rest) p w =
  let w1 := set_batchItems (replace_by_id item (with_status analyzing)) w in
  let c := (analyzeResume (BatchItem.file item) job w1).1 in
  let w3 := emit (Settled i c) (analyzeResume (BatchItem.file item) job w1).2 in
  match settle item c with
  | Some q =>
      batchLoop job (S i) rest (<[i := q]> p)
        (emit (settled_toast item c)
           (set_batchItems (replace_by_id item (fun _ => q)) w3))
  | None => (Normal None, abort_world w3)
  end.
Proof.
  cbn [batchLoop].
  unfold mbind at 1. unfold JS_bind at 1. unfold setBatchItems at 1. unfold update at 1.
  unfold mbind at 1. unfold JS_bind at 1. unfold try_catch at 1.
  unfold mbind at 1. unfold JS_bind at 1. unfold await at 1.
  destruct (analyzeResume (BatchItem.file item) job _) as [[result|e] w2]; simpl.
  - reflexivity.
  - destruct (decide (message e = "API_KEY_MISSING")); reflexivity.
Qed.

Lemma analyzeResume_run file job w :
  analyzeResume file job w = analyze_run file job w.
Proof.
  unfold analyzeResume, analyze_run.
  unfold mbind at 1. unfold JS_bind at 1. rewrite getAIClient_run.
  destruct (truthy (localStorage w !! "gemini_api_key")); [|reflexivity].
  unfold mbind at 1. unfold JS_bind at 1. unfold getTemperature at 1.
  unfold mbind at 1. unfold JS_bind at 1. unfold localStorage_getItem at 1.
  unfold observe at 1. cbn beta iota.
  unfold mret at 1. unfold JS_ret at 1. cbn beta iota.
  fold (analysis_request file job w).
  unfold try_catch, ai_generateContent, console_error, lift_parse, throw,
    mbind, JS_bind, mret, JS_ret, observe, update.
  cbn beta iota.
  destruct (generateContent _ _ _) as [e|txt]; [reflexivity|].
  cbn beta iota.
  destruct (truthy txt); [|reflexivity].
  destruct (JSON_parse_analysis (default "" txt)); reflexivity.
Qed.

Lemma analyzeResume_frame file job w :
  ui (analyzeResume file job w).2 = ui w /\
  exists evs, trace (analyzeResume file job w).2 = trace w ++ evs /\
              Forall service_event evs /\ length (requests evs) <= 1.
Proof.
  rewrite analyzeResume_run. unfold analyze_run.
  destruct (truthy (localStorage w !! "gemini_api_key")).
  2:{ split; [done|]. exists []. rewrite app_nil_r. split; [done|].
      split; [constructor|simpl; lia]. }
  set (req := analysis_request _ _ _).
  set (ai := mkClient _).
  assert (forall e : JsError,
    exists evs,
      (trace w ++ [Requested ai req])
        ++ [Logged level_error "Gemini Analysis Error:" (Some e)]
      = trace w ++ evs /\
      Forall service_event evs /\ length (requests evs) <= 1) as Hfail.
  { intros e. eexists [_; _]. split; [by rewrite <- app_assoc|].
    split; [repeat constructor|simpl; lia]. }
  destruct (generateContent (issued w) ai req) as [e|txt]; cbn.
  - split; [done|]. apply Hfail.
  - destruct (truthy txt); cbn.
    + destruct (JSON_parse_analysis (default "" txt)) as [e|r]; cbn.
      * split; [done|]. apply Hfail.
      * split; [done|]. eexists [_]. split; [done|].
        split; [repeat constructor|simpl; lia].
    + split; [done|]. apply Hfail.
Qed.

Lemma frames_app a b : frames (a ++ b) = frames a ++ frames b.
Proof. apply omap_app. Qed.
Lemma savings_app a b : savings (a ++ b) = savings a ++ savings b.
Proof. apply omap_app. Qed.
Lemma aborted_at_app a b : aborted_at (a ++ b) = aborted_at a ++ aborted_at b.
Proof. apply omap_app. Qed.
Lemma requests_app a b : requests (a ++ b) = requests a ++ requests b.
Proof. apply omap_app. Qed.
Lemma settlements_app a b : settlements (a ++ b) = settlements a ++ settlements b.
Proof. apply omap_app. Qed.

Lemma service_events_silent evs :
  Forall service_event evs ->
  frames evs = [] /\ savings evs = [] /\ aborted_at evs = [] /\
  settlements evs = [].
Proof.
  induction 1 as [|e evs He _ (IH1 & IH2 & IH3 & IH4)]; [done|].
  destruct e; try done; simpl; rewrite ?IH1, ?IH2, ?IH3, ?IH4; done.
Qed.

Lemma replace_by_id_other item q l :
  file_id item ∉ file_id <$> l -> replace_by_id item q l = l.
Proof.
  unfold replace_by_id.
  induction l as [|p l IH]; intros Hnot; [done|].
  rewrite fmap_cons, not_elem_of_cons in Hnot. destruct Hnot as [Hp Hl].
  rewrite fmap_cons, decide_False by congruence. f_equal. by apply IH.
Qed.

Lemma replace_by_id_middle item q pre x rest :
  NoDup (file_id <$> (pre ++ x :: rest)) ->
  file_id x = file_id item ->
  replace_by_id item q (pre ++ x :: rest) = pre ++ q x :: rest.
Proof.
  intros Hnd Hx. rewrite fmap_app, fmap_cons in Hnd.
  apply NoDup_app in Hnd as (Hpre & Hdisj & Hrest).
  apply NoDup_cons in Hrest as [Hx_rest _].
  unfold replace_by_id. rewrite fmap_app, fmap_cons.
  rewrite (decide_True _ _ Hx).
  fold (replace_by_id item q pre). fold (replace_by_id item q rest).
  rewrite !replace_by_id_other; [done| |].
  - by rewrite <- Hx.
  - rewrite <- Hx. intros Hin. apply (Hdisj _ Hin). left.
Qed.

Lemma settle_Some item c q :
  settle item c = Some q ->
  terminal q /\ BatchItem.file q = BatchItem.file item /\ ~ missing_credential c.
Proof.
  destruct c as [r|e]; simpl.
  - intros [= <-]. split; [by left|]. split; [reflexivity|]. simpl. tauto.
  - destruct (decide _) as [|Hne]; [done|]. intros [= <-].
    split; [by right|]. split; [reflexivity|]. simpl. exact Hne.
Qed.

Lemma settle_None item c : settle item c = None -> missing_credential c.
Proof.
  destruct c as [r|e]; simpl; [done|]. by destruct (decide _).
Qed.

Lemma aborted_at_Settled i c :
  aborted_at [Settled i c] = if decide (missing_credential c) then [i] else [].
Proof. unfold aborted_at. simpl. by destruct (decide _). Qed.

Lemma batchLoop_outcome job remaining : forall pre w,
  App.batchItems (ui w) = pre ++ remaining ->
  NoDup (file_id <$> (pre ++ remaining)) ->
  Forall terminal pre ->
  Forall is_idle remaining ->
  let run := batchLoop job (length pre) remaining (pre ++ remaining) w in
  exists evs,
    trace run.2 = trace w ++ evs /\
    savings evs = [] /\
    Forall in_sequence (frames evs) /\
    loop_outcome (pre ++ remaining) (length pre) (ui w) run.1 (ui run.2) evs.
Proof.
  induction remaining as [|item rest IH]; intros pre w Hb Hnd Hpre Hidle run.
  - subst run. simpl. exists []. rewrite !app_nil_r in *.
    split; [done|]. split; [done|]. split; [constructor|].
    replace (ui w) with (ui_with pre (ui w)) at 2.
    2:{ unfold ui_with. rewrite <- Hb. by destruct (ui w). }
    constructor; try done. by rewrite Nat.sub_diag.
  - subst run. rewrite batchLoop_cons.
    set (w1 := set_batchItems _ w). cbn zeta.
    destruct (analyzeResume_frame (BatchItem.file item) job w1)
      as (Hui & evs_a & Htr & Hsrv & _).
    apply service_events_silent in Hsrv as (Hf_a & Hs_a & Ha_a & Hn_a).
    set (c := (analyzeResume (BatchItem.file item) job w1).1) in *.
    set (w2 := (analyzeResume (BatchItem.file item) job w1).2) in *.
    apply Forall_cons in Hidle as [Hitem Hrest].
    set (frame1 := pre ++ with_status analyzing item :: rest).
    assert (App.batchItems (ui w1) = frame1) as Hb1.
    { subst w1. unfold set_batchItems. simpl. rewrite Hb.
      by apply replace_by_id_middle. }
    assert (ui w1 = ui_with frame1 (ui w)) as Hu1.
    { rewrite <- Hb1. subst w1. reflexivity. }
    assert (trace w1 = trace w ++ [Rendered frame1]) as Ht1.
    { rewrite <- Hb1. subst w1. reflexivity. }
    assert (in_sequence frame1) as Hseq1 by by constructor.
    destruct (settle item c) as [q|] eqn:Hq.
    + apply settle_Some in Hq as (Hterm & Hfile & Hok).
      set (frame2 := pre ++ q :: rest).
      set (w4 := emit _ (set_batchItems _ _)).
      assert (file_id q = file_id item) as Hid by (unfold file_id; by rewrite Hfile).
      assert (App.batchItems (ui w4) = (pre ++ [q]) ++ rest) as Hb4.
      { subst w4. unfold set_batchItems. simpl. rewrite Hui, Hb1. subst frame1.
        rewrite <- app_assoc. simpl.
        apply (replace_by_id_middle item (fun _ => q)); [|done].
        rewrite fmap_app, fmap_cons in *. exact Hnd. }
      assert (frame2 = (pre ++ [q]) ++ rest) as Hf2.
      { subst frame2. by rewrite <- app_assoc. }
      assert (ui w4 = ui_with frame2 (ui w)) as Hu4.
      { rewrite Hf2, <- Hb4.
        subst w4. unfold set_batchItems. simpl. rewrite Hui, Hu1. reflexivity. }
      assert (trace w4 = trace w ++ ([Rendered frame1] ++ evs_a)
                ++ [Settled (length pre) c; Rendered frame2; settled_toast item c])
        as Ht4.
      { rewrite Hf2, <- Hb4.
        subst w4. unfold set_batchItems. simpl. fold w2. rewrite Htr, Ht1.
        rewrite <- !app_assoc. reflexivity. }
      assert (<[length pre := q]> (pre ++ item :: rest) = (pre ++ [q]) ++ rest) as ->.
      { rewrite insert_app_r_alt by lia. rewrite Nat.sub_diag. simpl.
        by rewrite <- app_assoc. }
      replace (S (length pre)) with (length (pre ++ [q]))
        by (rewrite length_app; simpl; lia).
      destruct (IH (pre ++ [q]) w4) as (evs & Htr' & Hsav & Hfr & Hout).
      { exact Hb4. }
      { rewrite <- app_assoc. simpl. rewrite fmap_app, fmap_cons, Hid.
        rewrite fmap_app, fmap_cons in Hnd. exact Hnd. }
      { apply Forall_app. split; [done|]. by constructor. }
      { done. }
      set (prefix := ([Rendered frame1] ++ evs_a)
                       ++ [Settled (length pre) c; Rendered frame2; settled_toast item c])
        in *.
      assert (aborted_at prefix = []) as Hpa.
      { subst prefix. rewrite !aborted_at_app, Ha_a. simpl.
        rewrite decide_False by done. by destruct c. }
      assert (savings prefix = []) as Hps.
      { subst prefix. rewrite !savings_app, Hs_a. simpl. by destruct c. }
      assert (frames prefix = [frame1; frame2]) as Hpf.
      { subst prefix. rewrite !frames_app, Hf_a. simpl. by destruct c. }
      assert (settlements prefix = [length pre]) as Hpn.
      { subst prefix. rewrite !settlements_app, Hn_a. simpl. by destruct c. }
      exists (prefix ++ evs).
      split; [by rewrite Htr', Ht4, <- app_assoc|].
      split; [by rewrite savings_app, Hps, Hsav|].
      split.
      { rewrite frames_app, Hpf. simpl. constructor; [done|]. constructor; [|done].
        rewrite Hf2. constructor; [|done].
        apply Forall_app. split; [done|]. by constructor. }
      assert (BatchItem.file <$> (pre ++ [q]) ++ rest
              = BatchItem.file <$> pre ++ item :: rest) as Hfiles.
      { rewrite <- app_assoc. simpl. rewrite !fmap_app, !fmap_cons. by rewrite Hfile. }
      rewrite Hu4 in Hout.
      inversion Hout as [final evs0 Hff Hft Hfa Hfn Hc Hu Hev
                        | dn it rs before o Hff Hle Hdn Hrs Hba Hbn Hmo Hc Hu Hev].
      * replace (ui_with final (ui_with frame2 (ui w))) with (ui_with final (ui w))
          by reflexivity.
        constructor; [by rewrite Hff, Hfiles|done| |].
        -- by rewrite aborted_at_app, Hpa, Hfa.
        -- rewrite settlements_app, Hpn, Hfn.
           rewrite !length_app. simpl length.
           replace (length pre + S (length rest) - length pre) with (S (length rest))
             by lia.
           replace (length pre + 1 + length rest - (length pre + 1))
             with (length rest) by lia.
           simpl. do 2 f_equal. lia.
      * replace (ui_aborted (dn ++ with_status analyzing it :: rs) (ui_with frame2 (ui w)))
          with (ui_aborted (dn ++ with_status analyzing it :: rs) (ui w)) by reflexivity.
        rewrite length_app in Hle. simpl in Hle.
        rewrite app_assoc.
        constructor; try done.
        -- by rewrite Hff, Hfiles.
        -- lia.
        -- by rewrite aborted_at_app, Hpa, Hba.
        -- rewrite settlements_app, Hpn, Hbn.
           rewrite length_app. simpl length.
           replace (length dn - length pre) with (S (length dn - (length pre + 1)))
             by lia.
           simpl. do 2 f_equal. lia.
    + apply settle_None in Hq. cbn [fst snd].
      exists (([Rendered frame1] ++ evs_a) ++ [Settled (length pre) c; abort_toast]).
      split.
      { unfold abort_world. simpl. fold w2. rewrite Htr, Ht1.
        by rewrite <- !app_assoc. }
      split; [rewrite !savings_app, Hs_a; by simpl|].
      split.
      { rewrite !frames_app, Hf_a. simpl. constructor; [done|constructor]. }
      replace (ui (abort_world (emit (Settled (length pre) c) w2)))
        with (ui_aborted frame1 (ui w)).
      2:{ unfold abort_world. simpl. fold w2. rewrite Hui, Hu1. reflexivity. }
      subst frame1. constructor; try done.
      rewrite settlements_app, Hn_a, Nat.sub_diag. done.
Qed.

Lemma save_run_frame job items w :
  ui (save_run job items w).2 = ui w /\
  exists evs, trace (save_run job items w).2 = trace w ++ Saving job items :: evs /\
              Forall service_event evs.
Proof.
  unfold save_run.
  destruct (completed_scores items); [split; [done|]; exists []; by split|].
  unfold read_history.
  set (w0 := emit (Saving job items) w).
  assert (exists evs0 w1,
    match localStorage w0 !! STORAGE_KEY with
    | Some (String c r) =>
        match JSON_parse_history (String c r) with
        | inr h => (h, w0)
        | inl e => ([], emit (Logged level_error "Failed to load history:" (Some e)) w0)
        end
    | _ => ([], w0)
    end.2 = w1 /\ ui w1 = ui w /\ trace w1 = trace w ++ Saving job items :: evs0 /\
    Forall service_event evs0) as (evs0 & w1 & Hw1 & Hu & Ht & Hs).
  { destruct (localStorage w0 !! STORAGE_KEY) as [[|c r]|].
    - exists [], w0. repeat split; done.
    - destruct (JSON_parse_history (String c r)).
      + eexists [_], _. split; [reflexivity|]. split; [done|].
        split; [simpl; by rewrite <- app_assoc|]. by repeat constructor.
      + exists [], w0. repeat split; done.
    - exists [], w0. repeat split; done. }
  destruct (match localStorage w0 !! STORAGE_KEY with
            | Some (String c r) => _ | _ => _ end) as [old w1'].
  simpl in Hw1. subst w1'.
  destruct (quota _).
  - split; [done|]. exists evs0. split; done.
  - destruct (quota _).
    + split; [done|]. exists (evs0 ++ [quota_warning]). simpl. rewrite Ht.
      split; [by rewrite <- app_assoc|]. apply Forall_app. split; [done|].
      by repeat constructor.
    + split; [done|]. eexists (evs0 ++ [quota_warning; _]). simpl. rewrite Ht.
      split; [by rewrite <- !app_assoc|]. apply Forall_app. split; [done|].
      by repeat constructor.
Qed.

Lemma handleBatchAnalyze_run w : handleBatchAnalyze w = batch_run w.
Proof.
  unfold handleBatchAnalyze, batch_run.
  bind_step. unfold observe at 1. cbn beta iota.
  destruct (negb (App.hasApiKey (ui w))); [reflexivity|].
  destruct (_ || _); [reflexivity|].
  fold idle_item.
  run_step setBatchItems. run_step setCurrentView. run_step setIsProcessing.
  run_step showToast. bind_step.
  destruct (batchLoop _ _ _ _ _) as [[[processed|]|e] w1]; cbn [fst snd];
    [|reflexivity|reflexivity].
  run_step setIsProcessing. run_step showToast.
  bind_step. rewrite saveSession_run.
  destruct (save_run _ _ _) as [[[session|]|e] w3]; cbn [fst snd]; reflexivity.
Qed.

Lemma batch_run_closed w :
  ~ gates_open (ui w) ->
  exists evs, trace (batch_run w).2 = trace w ++ evs /\
    frames evs = [] /\ aborted_at evs = [] /\ savings evs = [] /\
    settlements evs = [] /\
    App.batchItems (ui (batch_run w).2) = App.batchItems (ui w).
Proof.
  intros Hclosed. unfold batch_run.
  destruct (App.hasApiKey (ui w)) eqn:Hkey; simpl.
  - destruct (bool_decide (length (App.files (ui w)) = 0)) eqn:Hlen; simpl.
    + eexists [_]. repeat split; done.
    + destruct (JobContext.description (App.jobContext (ui w))) as [|a d] eqn:Hd; simpl.
      * eexists [_]. repeat split; done.
      * exfalso. apply Hclosed. split; [done|]. split; [|by rewrite Hd].
        apply bool_decide_eq_false in Hlen. by destruct (App.files (ui w)).
  - eexists [_]. repeat split; done.
Qed.

Lemma idle_items_files (files : list UploadedFile.t) : BatchItem.file <$> (idle_item <$> files) = files.
Proof. rewrite <- list_fmap_compose. apply list_fmap_id. Qed.

Lemma idle_items_ids (files : list UploadedFile.t) :
  file_id <$> (idle_item <$> files) = UploadedFile.id <$> files.
Proof. by rewrite <- list_fmap_compose. Qed.

Lemma idle_items_idle (files : list UploadedFile.t) : Forall is_idle (idle_item <$> files).
Proof. apply Forall_fmap, Forall_forall. done. Qed.

Lemma batch_run_open w :
  gates_open (ui w) ->
  NoDup (UploadedFile.id <$> App.files (ui w)) ->
  exists evs, trace (batch_run w).2 = trace w ++ evs /\
    Forall in_sequence (frames evs) /\
    batch_outcome (ui w) (ui (batch_run w).2) evs.
Proof.
  intros Hopen Hnd. pose proof Hopen as (Hkey & Hfiles & Hdesc).
  unfold batch_run. rewrite Hkey. cbn [negb].
  rewrite bool_decide_eq_false_2 by (by destruct (App.files (ui w))).
  destruct (JobContext.description (App.jobContext (ui w))) as [|a d] eqn:Hd; [done|].
  cbn [truthy negb orb]. cbn zeta.
  set (initialItems := idle_item <$> App.files (ui w)).
  set (start := Toasted _ success).
  set (w0 := emit start _).
  destruct (batchLoop_outcome (App.jobContext (ui w)) initialItems [] w0)
    as (evs_l & Htr & Hsav & Hfr & Hout).
  { reflexivity. }
  { simpl. subst initialItems. by rewrite idle_items_ids. }
  { constructor. }
  { apply idle_items_idle. }
  cbn [app length] in Htr, Hout.
  assert (trace w0 = trace w ++ [Rendered initialItems; start]) as Ht0.
  { subst w0. simpl. by rewrite <- app_assoc. }
  assert (in_sequence initialItems) as Hseq0.
  { apply (between_turns [] initialItems); [constructor|apply idle_items_idle]. }
  assert (BatchItem.file <$> initialItems = App.files (ui w)) as Hinit
    by apply idle_items_files.
  set (run := batchLoop _ 0 initialItems initialItems w0) in *.
  assert (length initialItems = length (App.files (ui w))) as Hlen
    by (subst initialItems; apply length_fmap).
  inversion Hout as [final evs0 Hff Hft Hfa Hfn Hc Hu Hev
                    | dn it rs before o Hff Hle Hdn Hrs Hba Hbn Hmo Hc Hu Hev].
  - set (finish := Toasted _ success).
    set (w2 := emit finish (set_isProcessing false run.2)).
    destruct (save_run_frame (App.jobContext (ui w)) final w2)
      as (Hus & evs_s & Hts & Hsrv).
    apply service_events_silent in Hsrv as (Hf_s & Hs_s & Ha_s & Hn_s).
    set (sv := save_run _ final w2) in *.
    assert (trace sv.2 = trace w ++
              ([Rendered initialItems; start] ++ evs_l ++ [finish])
              ++ Saving (App.jobContext (ui w)) final :: evs_s) as Ht.
    { rewrite Hts. subst w2. simpl. rewrite Htr, Ht0.
      by rewrite <- !app_assoc. }
    assert (App.batchItems (ui sv.2) = final /\ App.isProcessing (ui sv.2) = false)
      as [Hbs Hps].
    { rewrite Hus. subst w2. simpl. rewrite <- Hu. done. }
    rewrite Hinit in Hff.
    assert (forall tail u',
      App.batchItems u' = final -> App.isProcessing u' = false ->
      frames tail = [] -> aborted_at tail = [] -> savings tail = [] ->
      settlements tail = [] ->
      Forall in_sequence
        (frames ((([Rendered initialItems; start] ++ evs_l ++ [finish])
                  ++ Saving (App.jobContext (ui w)) final :: evs_s) ++ tail)) /\
      batch_outcome (ui w) u'
        ((([Rendered initialItems; start] ++ evs_l ++ [finish])
          ++ Saving (App.jobContext (ui w)) final :: evs_s) ++ tail)) as Hend.
    { intros tail u' Hb' Hp' Hft' Hat' Hst' Hnt'. split.
      - rewrite !frames_app, Hft'. simpl. rewrite Hf_s, !app_nil_r.
        by constructor.
      - apply batch_completes; rewrite ?Hb'; try done.
        + rewrite !aborted_at_app, Hat'. simpl. by rewrite Ha_s, Hfa.
        + rewrite !settlements_app, Hnt'. simpl.
          rewrite Hn_s, Hfn, !app_nil_r, Nat.sub_0_r. by rewrite Hlen.
        + rewrite !savings_app, Hst'. simpl. by rewrite Hs_s, Hsav. }
    set (body := ([Rendered initialItems; start] ++ evs_l ++ [finish])
                 ++ Saving (App.jobContext (ui w)) final :: evs_s) in *.
    destruct sv.1 as [[session|]|e]; cbn [fst snd].
    + set (saved := Toasted _ success).
      exists (body ++ [saved]). split.
      { unfold set_historySessions, emit, with_ui. cbn [trace].
        rewrite Ht. symmetry. apply app_assoc. }
      apply Hend; done.
    + exists body. split; [exact Ht|].
      rewrite <- (app_nil_r body). apply Hend; done.
    + exists body. split; [exact Ht|].
      rewrite <- (app_nil_r body). apply Hend; done.
  - cbn [fst snd].
    exists ([Rendered initialItems; start] ++ before
            ++ [Settled (length dn) o; abort_toast]).
    split; [rewrite Htr, Ht0, <- Hev; by rewrite <- !app_assoc|].
    split.
    { rewrite frames_app. simpl. constructor; [done|]. by rewrite Hev. }
    rewrite Hinit in Hff.
    rewrite app_assoc.
    apply (batch_aborts _ _ _ dn it rs ([Rendered initialItems; start] ++ before) o);
      try done.
    all: try (rewrite <- Hu; reflexivity).
    all: try (by rewrite aborted_at_app, Hba).
    all: try (by rewrite settlements_app, Hbn, Nat.sub_0_r).
    rewrite <- app_assoc, savings_app. simpl. by rewrite Hev.
Qed.

End Orchestrator_facts.

Lemma filter_analyzing_none (l : list BatchItem.t) :
  Forall (fun p => terminal p \/ is_idle p) l -> filter is_analyzing l = [].
Proof.
  induction 1 as [|p l Hp _ IH]; [done|].
  rewrite filter_cons, IH, decide_False; [done|].
  unfold is_analyzing, terminal, is_idle in *. intros E. rewrite E in Hp.
  destruct Hp as [[|]|]; discriminate.
Qed.

Lemma in_sequence_at_most_one frame :
  in_sequence frame -> length (filter is_analyzing frame) <= 1.
Proof.
  intros [d r Hd Hr | d x r Hd Hx Hr].
  - rewrite filter_analyzing_none; [simpl; lia|].
    apply Forall_app. split; eapply Forall_impl; eauto.
  - rewrite filter_app, filter_cons, (decide_True _ _ Hx).
    rewrite !filter_analyzing_none; [simpl; lia| |];
      eapply Forall_impl; eauto.
Qed.

Lemma in_sequence_in_order frame j p :
  in_sequence frame -> frame !! j = Some p -> is_analyzing p ->
  forall j', j' < j -> exists q, frame !! j' = Some q /\ terminal q.
Proof.
  assert (forall l k q, Forall (fun p => terminal p \/ is_idle p) l ->
            l !! k = Some q -> ~ is_analyzing q) as Hnot.
  { intros l k q Hl Hk E. eapply Forall_lookup_1 in Hl; [|exact Hk].
    unfold is_analyzing, terminal, is_idle in *. rewrite E in Hl.
    destruct Hl as [[|]|]; discriminate. }
  intros [d r Hd Hr | d x r Hd Hx Hr] Hj Hp j' Hlt.
  - exfalso. eapply Hnot; [|exact Hj|exact Hp].
    apply Forall_app. split; eapply Forall_impl; eauto.
  - destruct (decide (j < length d)) as [Hin|Hout].
    { exfalso. rewrite lookup_app_l in Hj by done.
      eapply (Hnot d); [|exact Hj|exact Hp]. eapply Forall_impl; eauto. }
    destruct (decide (j = length d)) as [->|Hne].
    { destruct (lookup_lt_is_Some_2 d j' Hlt) as [q Hq].
      exists q. split; [by rewrite lookup_app_l|].
      eapply Forall_lookup_1; eauto. }
    exfalso. rewrite lookup_app_r in Hj by lia.
    destruct (j - length d) as [|n] eqn:E; [lia|]. simpl in Hj.
    eapply (Hnot r); [|exact Hj|exact Hp]. eapply Forall_impl; eauto.
Qed.

Section Orchestrator_claims.
Context `{Platform}.

(** C9 (amended). Throughout a run of the batch handler over files with
    pairwise distinct ids, every value the [batchItems] state takes has
    at most one item with status [analyzing], and whenever an item has
    that status every item before it has status [completed] or
    [error].  The ids must be distinct because the state is updated by
    id. *)
Theorem handleBatchAnalyze_one_at_a_time w evs frame :
  NoDup (UploadedFile.id <$> App.files (ui w)) ->
  trace (handleBatchAnalyze w).2 = trace w ++ evs ->
  frame ∈ frames evs ->
  length (filter is_analyzing frame) <= 1 /\
  (forall j p, frame !! j = Some p -> is_analyzing p ->
     forall j', j' < j -> exists q, frame !! j' = Some q /\ terminal q).
Proof.
  intros Hnd Htr Hin. rewrite handleBatchAnalyze_run in Htr.
  assert (Forall in_sequence (frames evs)) as Hseq.
  { destruct (decide (gates_open (ui w))) as [Hopen|Hclosed].
    - destruct (batch_run_open w Hopen Hnd) as (evs' & Htr' & Hfr & _).
      rewrite Htr in Htr'. apply app_inv_head in Htr'. by subst evs'.
    - destruct (batch_run_closed w Hclosed) as (evs' & Htr' & Hfr & _).
      rewrite Htr in Htr'. apply app_inv_head in Htr'. subst evs'.
      rewrite Hfr. constructor. }
  eapply Forall_forall in Hseq; [|exact Hin].
  split; [by apply in_sequence_at_most_one|].
  intros j p Hj Hp. by eapply in_sequence_in_order.
Qed.

(** C2 (amended). If during a run over files with pairwise distinct
    ids the analysis of item [k] settles with the missing-credential
    error, then the run ends there: the settlement is followed by the
    toast alone, and the analyses awaited in the run are those of the
    items 0 to [k], in this order, so no analysis is started for a later
    item; [saveSession] is not called in the run; every item after [k]
    still has status [idle]; and the caller is told to configure the
    credential (the settings dialog is opened, [hasApiKey] is reset,
    processing is off). *)
Theorem handleBatchAnalyze_missing_credential w evs k :
  NoDup (UploadedFile.id <$> App.files (ui w)) ->
  trace (handleBatchAnalyze w).2 = trace w ++ evs ->
  k ∈ aborted_at evs ->
  let u' := ui (handleBatchAnalyze w).2 in
  (exists before o,
       evs = before ++ [Settled k o; abort_toast] /\
       missing_credential o /\ aborted_at before = []) /\
    settlements evs = seq 0 (S k) /\
    savings evs = [] /\
  BatchItem.file <$> App.batchItems u' = App.files (ui w) /\
  (forall j p, k < j -> App.batchItems u' !! j = Some p ->
               BatchItem.status p = idle) /\
  App.isSettingsOpen u' = true /\
  App.hasApiKey u' = false /\
  App.isProcessing u' = false /\
  App.historySessions u' = App.historySessions (ui w).
Proof.
  intros Hnd Htr Hk u'. subst u'. rewrite handleBatchAnalyze_run in *.
  destruct (decide (gates_open (ui w))) as [Hopen|Hclosed].
  2:{ destruct (batch_run_closed w Hclosed) as (evs' & Htr' & _ & Hab & _).
      rewrite Htr in Htr'. apply app_inv_head in Htr'. subst evs'.
      rewrite Hab in Hk. by apply not_elem_of_nil in Hk. }
  destruct (batch_run_open w Hopen Hnd) as (evs' & Htr' & _ & Hout).
  rewrite Htr in Htr'. apply app_inv_head in Htr'. subst evs'.
  destruct Hout as [Hno _ _ _ _ _
                     | _ _ _ Hab _ _ _
                     | dn it rs before o _ Hb Hff Hdn Hrs Hev Hba Hbn Hmo Hsv Hso Hka Hpr Hhs].
    - done.
    - rewrite Hab in Hk. by apply not_elem_of_nil in Hk.
    - assert (k = length dn) as ->.
      { rewrite Hev, aborted_at_app, Hba in Hk. simpl in Hk.
        rewrite decide_True in Hk by done. by apply list_elem_of_singleton in Hk. }
      split; [by exists before, o|].
      split.
      { rewrite Hev, settlements_app, Hbn, seq_S. reflexivity. }
      split; [done|].
    split.
    { rewrite Hb, <- Hff, !fmap_app, !fmap_cons. done. }
    split; [|done].
    intros j p Hlt Hj. rewrite Hb in Hj.
    rewrite lookup_app_r in Hj by lia.
    destruct (j - length dn) as [|n] eqn:E; [lia|]. simpl in Hj.
    eapply Forall_lookup_1 in Hrs; [|exact Hj]. exact Hrs.
Qed.

(** C1 (amended). Started as the button of [App] starts it, with the
    credential flag set, a non-empty list of files and a non-empty job
    description, and with pairwise distinct file ids, a run of the batch
    handler leaves exactly one item per input file, in input order.
    When no analysis settled with the missing-credential error, every
    item has status [completed] or [error], each file was analysed
    once, in input order, and this list is the one handed to
    [saveSession].  An item has status [idle] only if the analysis of
    an earlier item settled with the missing-credential error. *)
Theorem handleBatchAnalyze_one_item_per_file w evs :
  App.hasApiKey (ui w) = true ->
  App.files (ui w) <> [] ->
  JobContext.description (App.jobContext (ui w)) <> "" ->
  NoDup (UploadedFile.id <$> App.files (ui w)) ->
  trace (handleBatchAnalyze w).2 = trace w ++ evs ->
  let items := App.batchItems (ui (handleBatchAnalyze w).2) in
  BatchItem.file <$> items = App.files (ui w) /\
  (aborted_at evs = [] ->
     Forall terminal items /\
     settlements evs = seq 0 (length (App.files (ui w))) /\
     savings evs = [items]) /\
    (forall j p, items !! j = Some p -> BatchItem.status p = idle ->
                 exists k, k < j /\ k ∈ aborted_at evs).
  Proof.
  intros Hkey Hfiles Hdesc Hnd Htr items. subst items.
  rewrite handleBatchAnalyze_run in *.
  destruct (batch_run_open w (conj Hkey (conj Hfiles Hdesc)) Hnd)
    as (evs' & Htr' & _ & Hout).
  rewrite Htr in Htr'. apply app_inv_head in Htr'. subst evs'.
  destruct Hout as [Hno _ _ _ _ _
                     | _ Hff Hterm Hab Hsn Hsv _
                     | dn it rs before o _ Hb Hff Hdn Hrs Hev Hba Hbn Hmo Hsv Hso Hka Hpr Hhs].
  - exfalso. by apply Hno.
  - split; [done|]. split; [done|].
    intros j p Hj Hp. exfalso.
    eapply Forall_lookup_1 in Hterm; [|exact Hj].
    unfold terminal in Hterm. rewrite Hp in Hterm. by destruct Hterm.
  - assert (aborted_at evs = [length dn]) as Hab.
    { rewrite Hev, aborted_at_app, Hba. simpl. by rewrite decide_True. }
    split; [rewrite Hb, <- Hff, !fmap_app, !fmap_cons; done|].
    split; [by rewrite Hab|].
    intros j p Hj Hp. exists (length dn). rewrite Hab.
    split; [|by apply list_elem_of_singleton].
    rewrite Hb in Hj.
    destruct (decide (j < length dn)) as [Hin|Hout].
    { exfalso. rewrite lookup_app_l in Hj by done.
      eapply Forall_lookup_1 in Hdn; [|exact Hj].
      unfold terminal in Hdn. rewrite Hp in Hdn. by destruct Hdn. }
    destruct (decide (j = length dn)) as [->|Hne]; [|lia].
    exfalso. rewrite lookup_app_r, Nat.sub_diag in Hj by lia.
    simpl in Hj. injection Hj as <-. simpl in Hp. discriminate.
Qed.

End Orchestrator_claims.

(** C1, as stated, fails for files that share an id: the items are
    updated by id, so each settlement overwrites the items of both
    files.  Here the run completes, and both items end as the failed
    item of the second file: the first file has no item. *)
Lemma handleBatchAnalyze_shared_id_loses_a_file :
  let w :=
    Demo.world Demo.keyed [Demo.cv "a" "AAAA"; Demo.cv "a" "BBBB"] Demo.job true in
  let run := @handleBatchAnalyze Demo.steady w in
  let items := App.batchItems (ui run.2) in
  App.hasApiKey (ui w) = true /\
  App.files (ui w) <> [] /\
  JobContext.description (App.jobContext (ui w)) <> "" /\
  aborted_at (trace run.2) = [] /\
  UploadedFile.content <$> App.files (ui w) = ["AAAA"; "BBBB"] /\
  UploadedFile.content <$> (BatchItem.file <$> items) = ["BBBB"; "BBBB"] /\
  BatchItem.status <$> items = [error; error] /\
  BatchItem.file <$> items <> App.files (ui w).
Proof. vm_compute. repeat split; discriminate. Qed.

(** C2, as stated, fails for files that share an id: the analysis of
    the second item settles with the missing-credential error, and the
    third item is not idle, having been overwritten with the first,
    whose id it shares. *)
Lemma handleBatchAnalyze_shared_id_not_idle_after_abort :
  let w :=
    Demo.world Demo.keyed
      [Demo.cv "a" "AAAA"; Demo.cv "b" "BBBB"; Demo.cv "a" "CCCC"] Demo.job true in
  let run := @handleBatchAnalyze Demo.key_cleared w in
  aborted_at (trace run.2) = [1] /\
  BatchItem.status <$> App.batchItems (ui run.2) = [completed; analyzing; completed].
Proof. vm_compute. split; reflexivity. Qed.

Lemma handleBatchAnalyze_one_item_per_file_witness :
  let w := Demo.world Demo.keyed Demo.three_files Demo.job true in
  let run := @handleBatchAnalyze Demo.steady w in
  let items := App.batchItems (ui run.2) in
  BatchItem.file <$> items = Demo.three_files /\
  (aborted_at (trace run.2) = [] ->
   Forall terminal items /\
   settlements (trace run.2) = [0; 1; 2] /\
   savings (trace run.2) = [items]) /\
  (forall j p, items !! j = Some p -> BatchItem.status p = idle ->
               exists k, k < j /\ k ∈ aborted_at (trace run.2)).
Proof.
  apply (@handleBatchAnalyze_one_item_per_file Demo.steady
           (Demo.world Demo.keyed Demo.three_files Demo.job true)).
  - reflexivity.
  - vm_compute. discriminate.
  - vm_compute. discriminate.
  - apply (bool_decide_unpack _). vm_compute. exact I.
  - vm_compute. reflexivity.
Defined.

Lemma handleBatchAnalyze_missing_credential_witness :
  let w := Demo.world Demo.keyed Demo.three_files Demo.job true in
  let run := @handleBatchAnalyze Demo.key_cleared w in
  let u' := ui run.2 in
  (exists before o,
     trace run.2 = before ++ [Settled 1 o; abort_toast] /\
     missing_credential o /\ aborted_at before = []) /\
  settlements (trace run.2) = [0; 1] /\
  savings (trace run.2) = [] /\
  BatchItem.file <$> App.batchItems u' = Demo.three_files /\
  (forall j p, 1 < j -> App.batchItems u' !! j = Some p ->
               BatchItem.status p = idle) /\
  App.isSettingsOpen u' = true /\
  App.hasApiKey u' = false /\
  App.isProcessing u' = false /\
  App.historySessions u' = [].
Proof.
  apply (@handleBatchAnalyze_missing_credential Demo.key_cleared
           (Demo.world Demo.keyed Demo.three_files Demo.job true)).
  - apply (bool_decide_unpack _). vm_compute. exact I.
  - vm_compute. reflexivity.
  - apply list_elem_of_lookup. exists 0. vm_compute. reflexivity.
Defined.

Lemma handleBatchAnalyze_one_at_a_time_witness :
  length (filter is_analyzing Demo.second_turn) <= 1 /\
  (forall j p, Demo.second_turn !! j = Some p -> is_analyzing p ->
     forall j', j' < j -> exists q, Demo.second_turn !! j' = Some q /\ terminal q).
Proof.
  apply (@handleBatchAnalyze_one_at_a_time Demo.steady
           (Demo.world Demo.keyed Demo.three_files Demo.job true)
           (trace (@handleBatchAnalyze Demo.steady
                     (Demo.world Demo.keyed Demo.three_files Demo.job true)).2)).
  - apply (bool_decide_unpack _). vm_compute. exact I.
  - vm_compute. reflexivity.
  - apply list_elem_of_lookup. exists 3. vm_compute. reflexivity.
Defined.

(** C9, as stated, fails for files that share an id: the state is
    updated by id, so the two files are shown under analysis together,
    in two of the five values the state takes. *)
Example shared_id_shows_two_analyzing :
  let w := Demo.world Demo.keyed [Demo.cv "a" "AAAA"; Demo.cv "a" "BBBB"] Demo.job true in
  (fun f => length (filter is_analyzing f))
    <$> frames (trace (@handleBatchAnalyze Demo.steady w).2)
  = [0; 2; 0; 2; 0].
Proof. vm_compute. reflexivity. Qed.

(** * Further properties of the code *)

(** ** More of the history store *)

Section HistoryStore_more.
Context `{Platform}.

Lemma deleteSession_run id w :
  deleteSession id w =
  let kept := filter (fun s => HistorySession.id s <> id) (read_history w).1 in
  if quota (written kept (localStorage w))
  then (Normal kept, with_storage (written kept (localStorage w)) (read_history w).2)
  else (Throw quota_error, (read_history w).2).
Proof.
  unfold deleteSession. bind_step. rewrite getHistory_run. cbn beta iota.
  unfold localStorage_setItem, mbind, JS_bind, observe, update, throw, mret, JS_ret.
  cbn beta iota. rewrite read_history_storage. unfold written.
  destruct (quota _); reflexivity.
Qed.

Lemma read_history_ui w : ui (read_history w).2 = ui w.
Proof.
  unfold read_history.
  destruct (localStorage w !! STORAGE_KEY) as [[|c r]|]; try reflexivity.
  destruct (JSON_parse_history (String c r)); reflexivity.
Qed.

(** X1. [saveSession] never throws, whatever the items, the storage and
    the platform, and it changes no entry of the storage but the history
    slot. *)
Theorem saveSession_never_raises job items w :
  ~ raises (saveSession job items w).1 /\
  forall key, key <> STORAGE_KEY ->
    localStorage (saveSession job items w).2 !! key = localStorage w !! key.
Proof.
  rewrite saveSession_run. unfold save_run.
  destruct (completed_scores items); [split; [tauto|done]|].
  pose proof (read_history_storage (emit (Saving job items) w)) as Hs.
  destruct (read_history _) as [old w1]. simpl in Hs.
  destruct (quota _).
  - split; [simpl; tauto|]. intros key Hk. simpl. unfold written.
    by rewrite lookup_insert_ne.
  - destruct (quota _).
    + split; [simpl; tauto|]. intros key Hk. simpl. unfold written.
      by rewrite lookup_insert_ne.
    + split; [simpl; tauto|]. intros key Hk. simpl. by rewrite Hs.
Qed.

Lemma sum_Z_bounds lo hi (l : list Z) :
  Forall (fun z => lo <= z <= hi)%Z l ->
  (Z.of_nat (length l) * lo <= sum_Z l <= Z.of_nat (length l) * hi)%Z.
Proof.
  induction 1 as [|z l Hz _ IH]; [simpl; lia|].
  cbn [sum_Z foldr length]. fold (sum_Z l). lia.
Qed.

Lemma mean_bounds lo hi (l : list Z) :
  l <> [] -> Forall (fun z => lo <= z <= hi)%Z l ->
  (inject_Z lo <= mean l /\ mean l <= inject_Z hi)%Q.
Proof.
  intros Hne Hl. apply sum_Z_bounds in Hl.
  assert (0 < Z.of_nat (length l))%Z as Hn by (destruct l; [done|simpl; lia]).
  assert (0 < inject_Z (Z.of_nat (length l)))%Q as HnQ.
  { change 0%Q with (inject_Z 0). by rewrite <- Zlt_Qlt. }
  unfold mean. split.
  - apply Qle_shift_div_l; [done|].
    rewrite <- inject_Z_mult, <- Zle_Qle. lia.
  - apply Qle_shift_div_r; [done|].
    rewrite <- inject_Z_mult, <- Zle_Qle. lia.
Qed.

(** X2. The [averageScore] of a saved session lies between any two
    integer bounds that hold for the scores it averages: with scores in
    0..100 it is in 0..100. *)
Theorem saveSession_averageScore_bounds job items w s w' lo hi :
  saveSession job items w = (Normal (Some s), w') ->
  Forall (fun z => lo <= z <= hi)%Z (completed_scores items) ->
  (lo <= HistorySession.averageScore s <= hi)%Z.
Proof.
  rewrite saveSession_run. unfold save_run.
  destruct (completed_scores items) as [|z zs] eqn:C; [discriminate|].
  destruct (read_history _) as [old w1].
  intros Hrun Hall.
  assert (s = session_at (clock w) job items) as ->.
  { destruct (quota _); [congruence|]. destruct (quota _); congruence. }
  simpl. rewrite C.
  destruct (mean_bounds lo hi (z :: zs)) as [Hlo Hhi]; [done|done|].
  destruct (Math_round_rounds_to (mean (z :: zs))) as [H1 H2].
  set (a := Math_round (mean (z :: zs))) in *.
  split.
  - assert (inject_Z lo < inject_Z (a + 1))%Q as Hlt.
    { rewrite inject_Z_plus. change (inject_Z 1) with 1%Q.
      set (x := inject_Z a) in *. set (y := inject_Z lo) in *.
      set (m := mean (z :: zs)) in *. lra. }
    rewrite <- Zlt_Qlt in Hlt. lia.
  - assert (inject_Z a < inject_Z (hi + 1))%Q as Hlt.
    { rewrite inject_Z_plus. change (inject_Z 1) with 1%Q.
      set (x := inject_Z a) in *. set (y := inject_Z hi) in *.
      set (m := mean (z :: zs)) in *. lra. }
    rewrite <- Zlt_Qlt in Hlt. lia.
Qed.

(** X3. When its write is accepted, [deleteSession] returns the stored
    sessions without those whose id is [id], in their order, and stores
    that list; no returned session has the id, every session sharing the
    id goes, a list without the id comes back whole, and no other entry
    of the storage changes. *)
Theorem deleteSession_removes id w l w' :
  deleteSession id w = (Normal l, w') ->
  let old := stored_history (localStorage w) in
  l = filter (fun s => HistorySession.id s <> id) old /\
  (forall s, s ∈ l <-> s ∈ old /\ HistorySession.id s <> id) /\
  sublist l old /\
  ((forall s, s ∈ old -> HistorySession.id s <> id) -> l = old) /\
  localStorage w' = written l (localStorage w) /\
  (forall key, key <> STORAGE_KEY -> localStorage w' !! key = localStorage w !! key).
Proof.
  intros Hrun old. rewrite deleteSession_run in Hrun. cbn zeta in Hrun.
  rewrite read_history_fst in Hrun. fold old in Hrun.
  destruct (quota _); [|discriminate]. injection Hrun as <- <-.
  split; [done|]. split; [intros s; rewrite list_elem_of_filter; tauto|].
  split; [apply sublist_filter|].
  split.
  { intros Hfresh. subst old.
    induction (stored_history (localStorage w)) as [|s o IH]; [done|].
    rewrite filter_cons, decide_True by (apply Hfresh; left).
    f_equal. apply IH. intros t Ht. apply Hfresh. by right. }
  split; [done|]. intros key Hk. simpl. unfold written.
  by rewrite lookup_insert_ne.
Qed.

(** X4. When its write is refused, [deleteSession] throws the quota
    error, unlike [saveSession], and the storage is left as it was; the
    handler of [App] lets the error through, without touching the list
    it shows and without toast. *)
Theorem deleteSession_refused id w :
  quota (written (filter (fun s => HistorySession.id s <> id)
                         (stored_history (localStorage w)))
                 (localStorage w)) = false ->
  (deleteSession id w).1 = Throw quota_error /\
  localStorage (deleteSession id w).2 = localStorage w /\
  (handleDeleteSession id w).1 = Throw quota_error /\
  ui (handleDeleteSession id w).2 = ui w /\
  localStorage (handleDeleteSession id w).2 = localStorage w /\
  Forall (fun e => match e with Toasted _ _ => False | _ => True end)
         (drop (length (trace w)) (trace (handleDeleteSession id w).2)).
Proof.
  intros Hq.
  assert (deleteSession id w = (Throw quota_error, (read_history w).2)) as Hd.
  { rewrite deleteSession_run. cbn zeta. rewrite read_history_fst, Hq. done. }
  assert (handleDeleteSession id w = (Throw quota_error, (read_history w).2)) as Hh.
  { unfold handleDeleteSession. bind_step. by rewrite Hd. }
  rewrite Hd, Hh. cbn [fst snd].
  rewrite read_history_storage, read_history_ui.
  repeat split; try done.
  unfold read_history.
  destruct (localStorage w !! STORAGE_KEY) as [[|c r]|]; cbn [snd].
  1,3: rewrite drop_all; constructor.
  destruct (JSON_parse_history (String c r)); cbn [snd trace emit].
  - rewrite drop_app_length. by repeat constructor.
  - rewrite drop_all. constructor.
Qed.

End HistoryStore_more.

(** ** More of the batch orchestrator *)

Section Orchestrator_more.
Context `{Platform}.

Lemma outcomes_app a b : outcomes (a ++ b) = outcomes a ++ outcomes b.
Proof. apply omap_app. Qed.

Lemma service_events_no_outcome evs :
  Forall service_event evs -> outcomes evs = [].
Proof.
  induction 1 as [|e evs He _ IH]; [done|]. destruct e; try done; simpl; by rewrite ?IH.
Qed.

Lemma save_run_logs job items w :
  ui (save_run job items w).2 = ui w /\
  exists evs, trace (save_run job items w).2 = trace w ++ Saving job items :: evs /\
              Forall is_log evs.
Proof.
  unfold save_run.
  destruct (completed_scores items); [split; [done|]; exists []; by split|].
  pose proof (read_history_ui (emit (Saving job items) w)) as Hu.
  assert (exists evs0, trace (read_history (emit (Saving job items) w)).2
                       = trace w ++ Saving job items :: evs0 /\ Forall is_log evs0)
    as (evs0 & Ht & Hl).
  { unfold read_history.
    destruct (localStorage _ !! STORAGE_KEY) as [[|c r]|].
    1,3: exists []; by split.
    destruct (JSON_parse_history (String c r)).
    - eexists [_]. split; [simpl; by rewrite <- app_assoc|]. by repeat constructor.
    - exists []. by split. }
  destruct (read_history _) as [old w1]. cbn [snd] in *.
  destruct (quota _).
  - split; [done|]. by exists evs0.
  - destruct (quota _).
    + split; [done|]. exists (evs0 ++ [quota_warning]). simpl. rewrite Ht.
      split; [by rewrite <- app_assoc|]. apply Forall_app. split; [done|].
      by repeat constructor.
    + split; [done|]. eexists (evs0 ++ [quota_warning; _]). simpl. rewrite Ht.
      split; [by rewrite <- !app_assoc|]. apply Forall_app. split; [done|].
      by repeat constructor.
Qed.

Lemma save_run_settles job items w :
  exists r, (save_run job items w).1 = Normal r.
Proof.
  unfold save_run. destruct (completed_scores items); [by eexists|].
  destruct (read_history _) as [old w1].
  destruct (quota _); [by eexists|]. destruct (quota _); by eexists.
Qed.

Lemma logs_silent evs :
  Forall is_log evs ->
  requests evs = [] /\ outcomes evs = [] /\ savings evs = [].
Proof.
  induction 1 as [|e evs He _ (IH1 & IH2 & IH3)]; [done|].
  destruct e; try done.
Qed.

Lemma batchLoop_tracker job remaining : forall pre w,
  let run := batchLoop job (length pre) remaining (pre ++ remaining) w in
  same_inputs (ui w) (ui run.2) /\
  exists evs cs,
    trace run.2 = trace w ++ evs /\
    length (requests evs) <= length cs /\
    length cs <= length remaining /\
    savings evs = [] /\
    outcomes evs = zip (seq (length pre) (length cs)) cs /\
    match run.1 with
    | Normal (Some final) =>
        length cs = length remaining /\
        Some <$> final = (Some <$> pre) ++ zip_with settle remaining cs
    | Normal None => exists c, last cs = Some c /\ missing_credential c
    | Throw _ => False
    end.
Proof.
  induction remaining as [|item rest IH]; intros pre w run.
  - subst run. simpl. split; [done|]. exists [], []. rewrite !app_nil_r.
    repeat split; done.
  - subst run. rewrite batchLoop_cons.
    set (w1 := set_batchItems _ w). cbn zeta.
    destruct (analyzeResume_frame (BatchItem.file item) job w1)
      as (Hui & evs_a & Htr & Hsrv & Hreq).
    pose proof (service_events_no_outcome _ Hsrv) as Ho_a.
    apply service_events_silent in Hsrv as (_ & Hs_a & _ & _).
    set (c := (analyzeResume (BatchItem.file item) job w1).1) in *.
    set (w2 := (analyzeResume (BatchItem.file item) job w1).2) in *.
    destruct (settle item c) as [q|] eqn:Hq.
    + set (w4 := emit _ (set_batchItems _ _)).
      assert (<[length pre := q]> (pre ++ item :: rest) = (pre ++ [q]) ++ rest) as ->.
      { rewrite insert_app_r_alt by lia. rewrite Nat.sub_diag. simpl.
        by rewrite <- app_assoc. }
      replace (S (length pre)) with (length (pre ++ [q]))
        by (rewrite length_app; simpl; lia).
      destruct (IH (pre ++ [q]) w4) as (Hin & evs & cs & Htr' & Hrq & Hlen & Hsav & Hout & Hres).
      set (run := batchLoop job _ rest _ w4) in *.
      assert (same_inputs (ui w) (ui w4)) as Hin4.
      { subst w4. unfold same_inputs, set_batchItems. simpl. rewrite Hui. subst w1.
        unfold set_batchItems. simpl. done. }
      split.
      { destruct Hin as (? & ? & ? & ?), Hin4 as (? & ? & ? & ?).
        unfold same_inputs. repeat split; congruence. }
      set (frame1 := App.batchItems (ui w1)).
      set (frame2 := App.batchItems (ui w4)).
      exists (([Rendered frame1] ++ evs_a)
              ++ [Settled (length pre) c; Rendered frame2; settled_toast item c] ++ evs),
             (c :: cs).
      split.
      { rewrite Htr'. subst w4 frame2. unfold set_batchItems. simpl. fold w2.
        rewrite Htr. subst w1 frame1. unfold set_batchItems. simpl.
        rewrite <- !app_assoc. reflexivity. }
      split.
      { assert (requests ([Settled (length pre) c; Rendered frame2;
                            settled_toast item c] ++ evs) = requests evs) as Ht
          by (rewrite requests_app; by destruct c).
        rewrite requests_app, Ht, requests_app, !length_app.
        change (length (requests [Rendered frame1])) with 0. simpl. lia. }
      split; [simpl; lia|].
      split.
      { assert (savings ([Settled (length pre) c; Rendered frame2;
                           settled_toast item c] ++ evs) = savings evs) as Ht
          by (rewrite savings_app; by destruct c).
        rewrite savings_app, Ht, savings_app, Hs_a. done. }
      split.
      { assert (outcomes ([Settled (length pre) c; Rendered frame2;
                            settled_toast item c] ++ evs)
                = (length pre, c) :: outcomes evs) as Ht
          by (rewrite outcomes_app; by destruct c).
        rewrite outcomes_app, Ht, outcomes_app, Ho_a, Hout, length_app. simpl.
        do 3 f_equal. lia. }
      destruct run.1 as [[final|]|e].
      * destruct Hres as [Hl Hf]. split; [simpl; lia|].
        rewrite Hf, fmap_app, <- app_assoc. simpl. by rewrite Hq.
      * destruct Hres as (c' & Hlast & Hmiss). exists c'. split; [|done].
        destruct cs; [done|]. exact Hlast.
      * done.
    + apply settle_None in Hq. cbn [fst snd].
      split.
      { unfold abort_world, same_inputs. simpl. fold w2. rewrite Hui. subst w1. done. }
      exists (([Rendered (App.batchItems (ui w1))] ++ evs_a)
              ++ [Settled (length pre) c; abort_toast]), [c].
      split.
      { unfold abort_world. simpl. fold w2. rewrite Htr. subst w1.
        unfold set_batchItems. simpl. by rewrite <- !app_assoc. }
      split; [rewrite !requests_app, !length_app; simpl; lia|].
      split; [simpl; lia|].
      split; [rewrite !savings_app, Hs_a; done|].
      split; [rewrite !outcomes_app, Ho_a; done|].
      by exists c.
Qed.

End Orchestrator_more.

Section Orchestrator_summary.
Context `{Platform}.

Lemma batch_run_summary w :
  let u := ui w in
  let run := batch_run w in
  run.1 = Normal () /\
  App.files (ui run.2) = App.files u /\
  App.jobContext (ui run.2) = App.jobContext u /\
  exists evs cs,
    trace run.2 = trace w ++ evs /\
    length (requests evs) <= length cs /\
    length cs <= length (App.files u) /\
    outcomes evs = zip (seq 0 (length cs)) cs /\
    ((savings evs = [] /\
      App.historySessions (ui run.2) = App.historySessions u /\
      (gates_open u -> exists c, last cs = Some c /\ missing_credential c)) \/
     (exists final ws r,
        gates_open u /\
        savings evs = [final] /\
        length cs = length (App.files u) /\
        Some <$> final = zip_with settle (idle_item <$> App.files u) cs /\
        (save_run (App.jobContext u) final ws).1 = Normal r /\
        localStorage run.2 = localStorage (save_run (App.jobContext u) final ws).2 /\
        App.historySessions (ui run.2) = option_list r ++ App.historySessions u)).
Proof.
  intros u run. subst u run. unfold batch_run.
  destruct (App.hasApiKey (ui w)) eqn:Hkey; cbn [negb]; cycle 1.
  { cbn [fst snd]. do 3 (split; [done|]). eexists [_], []. simpl.
    split; [done|]. split; [done|]. split; [lia|]. split; [done|].
    left. do 2 (split; [done|]).
    intros (Hk & _). congruence. }
  destruct (bool_decide (length (App.files (ui w)) = 0)) eqn:Hlen; cbn [orb].
  { cbn [fst snd]. do 3 (split; [done|]). eexists [_], []. simpl.
    split; [done|]. split; [done|]. split; [lia|]. split; [done|].
    left. do 2 (split; [done|]).
    intros (_ & Hf & _). apply bool_decide_eq_true in Hlen.
    by destruct (App.files (ui w)). }
  destruct (JobContext.description (App.jobContext (ui w))) as [|a d] eqn:Hd;
    cbn [truthy negb].
  { cbn [fst snd]. do 3 (split; [done|]). eexists [_], []. simpl.
    split; [done|]. split; [done|]. split; [lia|]. split; [done|].
    left. do 2 (split; [done|]).
    intros (_ & _ & Hf). done. }
  assert (gates_open (ui w)) as Hopen.
  { split; [done|]. split; [|by rewrite Hd].
    apply bool_decide_eq_false in Hlen. by destruct (App.files (ui w)). }
  cbn zeta.
  set (initialItems := idle_item <$> App.files (ui w)).
  set (start := Toasted _ success).
  set (w0 := emit start _).
  destruct (batchLoop_tracker (App.jobContext (ui w)) initialItems [] w0)
    as ((Hf & Hj & _ & Hh) & evs_l & cs & Htr & Hrq & Hlen' & Hsav & Hout & Hres).
  cbn [app length] in *.
  assert (trace w0 = trace w ++ [Rendered initialItems; start]) as Ht0.
  { subst w0. simpl. by rewrite <- app_assoc. }
  assert (length initialItems = length (App.files (ui w))) as Hlen0
    by (subst initialItems; apply length_fmap).
  set (run := batchLoop _ 0 initialItems initialItems w0) in *.
  destruct run.1 as [[final|]|e]; [| |done].
  - destruct Hres as [Hcs Hfinal].
    set (finish := Toasted _ success).
    set (w2 := emit finish (set_isProcessing false run.2)).
    destruct (save_run_logs (App.jobContext (ui w)) final w2)
      as (Hus & evs_s & Hts & Hlogs).
    apply logs_silent in Hlogs as (Hr_s & Ho_s & Hs_s).
    destruct (save_run_settles (App.jobContext (ui w)) final w2) as [r Hsv].
    set (sv := save_run _ final w2) in *.
    assert (trace sv.2 = trace w ++
              ([Rendered initialItems; start] ++ evs_l ++ [finish])
              ++ [Saving (App.jobContext (ui w)) final] ++ evs_s) as Ht.
    { rewrite Hts. subst w2. simpl. rewrite Htr, Ht0.
      by rewrite <- !app_assoc. }
    assert (App.files (ui sv.2) = App.files (ui w) /\
            App.jobContext (ui sv.2) = App.jobContext (ui w) /\
            App.historySessions (ui sv.2) = App.historySessions (ui w))
      as (Hfs & Hjs & Hhs).
    { rewrite Hus. subst w2. simpl. rewrite Hf, Hj, Hh. subst w0. done. }
    assert (forall tl,
      length (requests (([Rendered initialItems; start] ++ evs_l ++ [finish])
                ++ [Saving (App.jobContext (ui w)) final] ++ evs_s ++ tl))
        = length (requests evs_l) + length (requests tl) /\
      outcomes (([Rendered initialItems; start] ++ evs_l ++ [finish])
                ++ [Saving (App.jobContext (ui w)) final] ++ evs_s ++ tl)
        = outcomes evs_l ++ outcomes tl /\
      savings (([Rendered initialItems; start] ++ evs_l ++ [finish])
                ++ [Saving (App.jobContext (ui w)) final] ++ evs_s ++ tl)
        = final :: savings tl) as Hevs.
    { intros tl.
      rewrite !requests_app, !outcomes_app, !savings_app, Hr_s, Ho_s, Hs_s, Hsav.
      rewrite !length_app, Hout. simpl. rewrite app_nil_r. repeat split; lia. }
    rewrite Hsv. destruct r as [session|].
    + cbn [fst snd].
      split; [done|]. split; [done|]. split; [done|].
      eexists (([Rendered initialItems; start] ++ evs_l ++ [finish])
               ++ [Saving (App.jobContext (ui w)) final] ++ evs_s ++ [_]), cs.
      destruct (Hevs [Toasted "本次分析结果已保存到历史记录。" success])
        as (Hr1 & Ho1 & Hs1).
      split. { simpl. rewrite Ht. by rewrite <- !app_assoc. }
      split. { rewrite Hr1. simpl. lia. }
      split; [lia|].
      split. { rewrite Ho1. simpl. by rewrite app_nil_r. }
      right. exists final, w2, (Some session).
      split; [done|]. split; [by rewrite Hs1|]. split; [lia|]. split; [done|].
      split; [done|]. split; [done|].
      simpl. by rewrite Hhs.
    + cbn [fst snd].
      split; [done|]. split; [done|]. split; [done|].
      exists (([Rendered initialItems; start] ++ evs_l ++ [finish])
               ++ [Saving (App.jobContext (ui w)) final] ++ evs_s ++ []), cs.
      destruct (Hevs []) as (Hr1 & Ho1 & Hs1).
      split. { rewrite Ht. by rewrite app_nil_r. }
      split. { rewrite Hr1. simpl. lia. }
      split; [lia|].
      split. { rewrite Ho1. simpl. by rewrite app_nil_r. }
      right. exists final, w2, None.
      split; [done|]. split; [by rewrite Hs1|]. split; [lia|]. split; [done|].
      split; [done|]. split; [done|].
      done.
  - cbn [fst snd].
    split; [done|]. split; [by rewrite Hf|]. split; [by rewrite Hj|].
    exists ([Rendered initialItems; start] ++ evs_l), cs.
    split. { rewrite Htr, Ht0. by rewrite <- app_assoc. }
    split. { rewrite requests_app. simpl. lia. }
    split; [lia|].
    split. { rewrite outcomes_app. simpl. done. }
    left. split. { rewrite savings_app. simpl. done. }
    split. { rewrite Hh. subst w0. done. }
    done.
Qed.

End Orchestrator_summary.

Section Orchestrator_more_claims.
Context `{Platform}.

Lemma save_run_Some job items w s :
  (save_run job items w).1 = Normal (Some s) ->
  s = session_at (clock w) job items /\
  exists p, (p = s \/ p = lightSession_of s) /\
    localStorage (save_run job items w).2
    = written (take 20 (p :: stored_history (localStorage w))) (localStorage w).
Proof.
  unfold save_run. destruct (completed_scores items); [done|].
  pose proof (read_history_fst (emit (Saving job items) w)) as Hold.
  destruct (read_history _) as [old w1]. cbn [fst] in Hold.
  change (localStorage (emit (Saving job items) w)) with (localStorage w) in Hold.
  subst old.
  destruct (quota _).
  - cbn [fst snd]. intros [= <-]. split; [done|]. eexists. split; [by left|done].
  - destruct (quota _); [|done].
    cbn [fst snd]. intros [= <-]. split; [done|]. eexists. split; [by right|done].
Qed.

Lemma settled_items files : forall cs final,
  Some <$> final = zip_with settle (idle_item <$> files) cs ->
  length cs = length files ->
  BatchItem.file <$> final = files /\ Forall terminal final.
Proof.
  induction files as [|f files IH]; intros [|c cs] [|q final]; try done.
  simpl. intros [= Hq Hrest] [= Hlen].
  destruct (IH _ _ Hrest Hlen) as [Hf Ht].
  symmetry in Hq. apply settle_Some in Hq.
  split; [by f_equal; [apply Hq|]|]. constructor; [apply Hq|done].
Qed.

(** X5. [handleBatchAnalyze] never raises, whatever the state it is
    called in; it sends at most one request to the provider per selected
    file, calls [saveSession] at most once, and leaves the selected
    files and the job description as they were. *)
Theorem handleBatchAnalyze_bounded w :
  let run := handleBatchAnalyze w in
  run.1 = Normal () /\
  App.files (ui run.2) = App.files (ui w) /\
  App.jobContext (ui run.2) = App.jobContext (ui w) /\
  exists evs, trace run.2 = trace w ++ evs /\
    length (requests evs) <= length (App.files (ui w)) /\
    length (savings evs) <= 1.
Proof.
  intros run. subst run. rewrite handleBatchAnalyze_run.
  destruct (batch_run_summary w)
    as (Hn & Hf & Hj & evs & cs & Ht & Hrq & Hlen & _ & Hcase).
  do 3 (split; [done|]). exists evs. split; [done|]. split; [lia|].
  destruct Hcase as [(-> & _)|(final & ws & r & _ & -> & _)]; simpl; lia.
Qed.

(** X6. The items [handleBatchAnalyze] hands to [saveSession] are, file
    by file and in the order of the selection, what the analysis of that
    file made of its idle item: completed with the result, or failed
    with the message of the error.  This holds also when files share an
    id, where the items shown on screen differ. *)
Theorem handleBatchAnalyze_saved_items w evs final :
  trace (handleBatchAnalyze w).2 = trace w ++ evs ->
  final ∈ savings evs ->
  let files := App.files (ui w) in
  exists cs,
    length cs = length files /\
    outcomes evs = zip (seq 0 (length files)) cs /\
    Some <$> final = zip_with settle (idle_item <$> files) cs /\
    BatchItem.file <$> final = files /\
    Forall terminal final.
Proof.
  rewrite handleBatchAnalyze_run. intros Htr Hin files. subst files.
  destruct (batch_run_summary w)
    as (_ & _ & _ & evs' & cs & Ht & _ & _ & Hout & Hcase).
  rewrite Ht in Htr. apply app_inv_head in Htr. subst evs'.
  destruct Hcase as [(Hs & _)|(final' & ws & r & _ & Hs & Hlen & Hfinal & _)].
  { rewrite Hs in Hin. by apply elem_of_nil in Hin. }
  rewrite Hs in Hin. apply list_elem_of_singleton in Hin. subst final'.
  exists cs. split; [done|]. split; [by rewrite <- Hlen|]. split; [done|].
  by apply settled_items with cs.
Qed.

(** X7. A run of [handleBatchAnalyze] puts at most one session in
    front of the sessions the component holds and drops none of them:
    the list in memory is not cut to twenty.  When it adds a session,
    that session holds the items handed to [saveSession], and the
    history slot holds the first twenty of a list headed by the session
    or by its copy without file contents. *)
Theorem handleBatchAnalyze_history_grows w :
  let run := handleBatchAnalyze w in
  exists new evs,
    trace run.2 = trace w ++ evs /\
    App.historySessions (ui run.2) = new ++ App.historySessions (ui w) /\
    (new = [] \/
     exists s p h,
       new = [s] /\
       savings evs = [HistorySession.items s] /\
       (p = s \/ p = lightSession_of s) /\
       localStorage run.2 !! STORAGE_KEY = Some (JSON_stringify (take 20 (p :: h)))).
Proof.
  intros run. subst run. rewrite handleBatchAnalyze_run.
  destruct (batch_run_summary w)
    as (_ & _ & _ & evs & cs & Ht & _ & _ & _ & Hcase).
  destruct Hcase as [(Hs & Hh & _)|(final & ws & r & _ & Hs & _ & _ & Hsv & Hst & Hh)].
  { exists [], evs. split; [done|]. split; [done|]. by left. }
  exists (option_list r), evs. split; [done|]. split; [done|].
  destruct r as [s|]; [right|by left].
  apply save_run_Some in Hsv as (Hsess & p & Hp & Hw).
  exists s, p, (stored_history (localStorage ws)).
  split; [done|]. split; [by rewrite Hs, Hsess|]. split; [done|].
  rewrite Hst, Hw. unfold written. apply lookup_insert_eq.
Qed.

End Orchestrator_more_claims.

(** ** The history handlers of [App] *)

Section HistoryHandlers.
Context `{Platform}.

Lemma stored_history_delete m : stored_history (delete STORAGE_KEY m) = [].
Proof. unfold stored_history. by rewrite lookup_delete_eq. Qed.

(** X8. When the write is accepted, [handleDeleteSession] replaces the
    sessions the component holds by the stored ones without the deleted
    id, whatever it held before: sessions that were in memory only are
    gone as well.  It shows one toast, after the console line of an
    unreadable slot if there is one; and the component then holds
    what the store holds, provided the list reads back as written. *)
Theorem handleDeleteSession_reloads id w w' :
  handleDeleteSession id w = (Normal (), w') ->
  let kept := filter (fun s => HistorySession.id s <> id)
                     (stored_history (localStorage w)) in
  App.historySessions (ui w') = kept /\
  localStorage w' = written kept (localStorage w) /\
  (exists logs, trace w' = trace w ++ logs ++ [Toasted "历史记录已删除。" success] /\
                Forall is_log logs /\ length logs <= 1) /\
  (stored_history (localStorage w') = kept -> mirrors w').
Proof.
  unfold handleDeleteSession. bind_step. rewrite deleteSession_run. cbn zeta.
  rewrite read_history_fst.
  destruct (quota _); [|discriminate]. cbn beta iota.
  unfold setHistorySessions, showToast, update, mbind, JS_bind. cbn beta iota.
  intros [= <-]. cbn zeta. split; [done|]. split; [done|]. split.
  - unfold read_history.
    destruct (localStorage w !! STORAGE_KEY) as [[|c r]|]; cbn [snd].
    1,3: exists []; split; [done|]; split; [constructor|simpl; lia].
    destruct (JSON_parse_history (String c r)); cbn [snd].
    + eexists [_]. split; [simpl; by rewrite <- app_assoc|].
      split; [by repeat constructor|simpl; lia].
    + exists []. split; [done|]. split; [constructor|simpl; lia].
  - intros Hback. unfold mirrors. rewrite Hback. done.
Qed.

(** X9. [handleClearAllHistory] does nothing when the confirmation is
    declined.  Confirmed, it leaves the storage as [clearHistory] does,
    with every other entry untouched, empties the list of the component
    and shows one toast; [getHistory] then returns the empty list
    without a console line. *)
Theorem handleClearAllHistory_clears w :
  handleClearAllHistory false w = (Normal (), w) /\
  let run := handleClearAllHistory true w in
  run.1 = Normal () /\
  localStorage run.2 = localStorage (clearHistory w).2 /\
  (forall key, key <> STORAGE_KEY ->
     localStorage run.2 !! key = localStorage w !! key) /\
  App.historySessions (ui run.2) = [] /\
  mirrors run.2 /\
  getHistory run.2 = (Normal [], run.2) /\
  trace run.2 = trace w ++ [Toasted "所有历史记录已清除。" success].
Proof.
  split; [done|]. cbn zeta.
  unfold handleClearAllHistory, clearHistory, localStorage_removeItem,
    setHistorySessions, showToast, update, mbind, JS_bind.
  cbn [fst snd]. split; [done|]. split; [done|].
  split. { intros key Hk. simpl. by rewrite lookup_delete_ne. }
  split; [done|].
  split. { unfold mirrors. simpl. by rewrite stored_history_delete. }
  split; [|done].
  rewrite getHistory_run. unfold read_history. simpl.
  change "resume_ai_history_v1" with STORAGE_KEY. by rewrite lookup_delete_eq.
Qed.

Lemma onMount_run w :
  onMount w =
  let k := truthy (localStorage w !! "gemini_api_key") in
  let w2 := set_hasApiKey k
              (set_historySessions (fun _ => stored_history (localStorage w))
                 (read_history w).2) in
  (Normal (), if k then w2 else set_isSettingsOpen true w2).
Proof.
  unfold onMount. bind_step. rewrite getHistory_run. cbn beta iota.
  unfold setHistorySessions, setHasApiKey, setIsSettingsOpen, localStorage_getItem,
    update, observe, mbind, JS_bind, mret, JS_ret. cbn beta iota zeta.
  cbn [localStorage set_historySessions with_ui].
  rewrite read_history_storage, read_history_fst.
  destruct (truthy _); reflexivity.
Qed.

(** X10. After the mount effect the component holds what the store
    holds, the storage is as it was, and the credential flag tells
    whether a credential is stored: it is set exactly when
    [getAIClient] will not fail.  The settings dialog is opened when
    there is none, and never closed. *)
Theorem onMount_mirrors w :
  let run := onMount w in
  run.1 = Normal () /\
  localStorage run.2 = localStorage w /\
  mirrors run.2 /\
  App.hasApiKey (ui run.2) = truthy (localStorage w !! "gemini_api_key") /\
  (App.hasApiKey (ui run.2) = true <-> ~ raises (getAIClient run.2).1) /\
  App.isSettingsOpen (ui run.2)
    = App.isSettingsOpen (ui w) || negb (App.hasApiKey (ui run.2)) /\
  App.files (ui run.2) = App.files (ui w) /\
  App.batchItems (ui run.2) = App.batchItems (ui w).
Proof.
  cbn zeta. rewrite onMount_run. cbn zeta.
  pose proof (read_history_storage w) as Hs.
  pose proof (read_history_ui w) as Hu.
  set (w1 := (read_history w).2) in *.
  destruct (truthy (localStorage w !! "gemini_api_key")) eqn:Hk; cbn [fst snd].
  - split; [done|]. split; [done|].
    split. { unfold mirrors. simpl. by rewrite Hs. }
    split; [done|].
    split. { rewrite getAIClient_run. simpl. rewrite Hs, Hk. simpl. tauto. }
    simpl. rewrite Hu. split; [by rewrite orb_false_r|done].
  - split; [done|]. split; [done|].
    split. { unfold mirrors. simpl. by rewrite Hs. }
    split; [done|].
    split. { rewrite getAIClient_run. simpl. rewrite Hs, Hk. simpl.
             split; [done|tauto]. }
    simpl. rewrite Hu. split; [by rewrite orb_true_r|done].
Qed.

(** X11. [handleRestoreSession] leaves the files and the items of the
    component aligned, file by file, shows the list, closes the history
    drawer and touches neither the storage nor the stored sessions of
    the component.  Restoring the copy of a session that was saved
    without file contents gives files with the same ids and names and
    empty contents. *)
Theorem handleRestoreSession_aligned session sc w :
  let run := handleRestoreSession session sc w in
  let u' := ui run.2 in
  App.batchItems u' = HistorySession.items session /\
  BatchItem.file <$> App.batchItems u' = App.files u' /\
  App.jobContext u'
    = JobContext.mk (HistorySession.jobTitle session)
                    (HistorySession.jobDescription session) /\
  App.currentView u' = list_view /\
  App.historySessions u' = App.historySessions (ui w) /\
  localStorage run.2 = localStorage w /\
  (exists sc', run.1 = Normal sc' /\ Screen.isHistoryOpen sc' = false /\
     Screen.selectedDetailId sc' = Screen.selectedDetailId sc) /\
  let light := ui (handleRestoreSession (lightSession_of session) sc w).2 in
  UploadedFile.id <$> App.files light = UploadedFile.id <$> App.files u' /\
  UploadedFile.name <$> App.files light = UploadedFile.name <$> App.files u' /\
  Forall (fun f => UploadedFile.content f = "") (App.files light).
Proof.
  cbn zeta. unfold handleRestoreSession, setJobContext, setFiles, setBatchItems,
    setCurrentView, showToast, update, mbind, JS_bind, mret, JS_ret.
  cbn [fst snd ui localStorage set_jobContext set_files set_batchItems
       set_currentView emit with_ui App.batchItems App.files App.jobContext
       App.currentView App.historySessions].
  do 6 (split; [done|]). split; [eexists; split; [reflexivity|]; split; reflexivity|].
  unfold lightSession_of. cbn [HistorySession.items].
  rewrite <- !list_fmap_compose.
  split; [by apply list_fmap_ext; intros ? []|].
  split; [by apply list_fmap_ext; intros ? []|].
  rewrite !Forall_fmap. apply Forall_forall. intros item _. reflexivity.
Qed.

End HistoryHandlers.

(** ** The settings dialog *)

Section Settings.
Context `{Platform}.

Lemma tenths_of_unit q :
  (0 <= q)%Q -> (q <= 1)%Q ->
  (0 <= Math_round (q * inject_Z 10) <= 10)%Z.
Proof.
  intros H0 H1. unfold Math_round. split.
  - change 0%Z with (Qfloor (1 # 2)). apply Qfloor_resp_le.
    change (inject_Z 10) with 10%Q. lra.
  - assert (Qfloor (q * inject_Z 10 + (1 # 2)) <= Qfloor (10 + (1 # 2)))%Z as Hle
      by (apply Qfloor_resp_le; change (inject_Z 10) with 10%Q; lra).
    exact Hle.
Qed.

Lemma toFixed1_tenths q :
  (0 <= q)%Q ->
  Number.toFixed1 (Number.Finite q)
  = let n := Math_round (q * inject_Z 10) in
    (Number.decimal (n / 10) ++ "." ++ Number.decimal (n mod 10))%string.
Proof.
  intros H0. unfold Number.toFixed1, Math_round.
  assert (Qle_bool 0 q = true) as -> by by apply Qle_bool_iff.
  cbn [negb]. cbn zeta.
  assert (Qabs q * inject_Z 10 + (1 # 2) == q * inject_Z 10 + (1 # 2))%Q as Heq
    by (by rewrite Qabs_pos).
  by rewrite (Qfloor_comp _ _ Heq).
Qed.

(** The text written for a temperature in [0, 1] reads back as that
    temperature rounded to one decimal. *)
Lemma temperature_read_back q :
  (0 <= q)%Q -> (q <= 1)%Q ->
  temperature_of (Some (Number.toFixed1 (Number.Finite q)))
  = Number.Finite (Qred (Math_round (q * inject_Z 10) # 10)).
Proof.
  intros H0 H1. rewrite toFixed1_tenths by done. cbn zeta.
  pose proof (tenths_of_unit q H0 H1) as Hn.
  set (n := Math_round (q * inject_Z 10)) in *.
  clearbody n.
  assert (exists k : nat, k <= 10 /\ n = Z.of_nat k) as (k & Hk & ->)
    by (exists (Z.to_nat n); lia).
  do 11 (destruct k as [|k]; [vm_compute; reflexivity|]). lia.
Qed.

Lemma handleSave_run (onClose : JS unit) st w :
  ApiKeyModal.handleSave onClose st w =
  let key := ApiKeyModal.trim (ApiKeyModal.apiKey st) in
  let m1 := if truthy (Some key) then <["gemini_api_key" := key]> (localStorage w)
            else delete "gemini_api_key" (localStorage w) in
  let m2 := <["gemini_temperature" := Number.toFixed1 (ApiKeyModal.temperature st)]> m1 in
  if truthy (Some key) && negb (quota m1) then (Throw quota_error, w)
  else if quota m2 then onClose (with_storage m2 w)
  else (Throw quota_error, with_storage m1 w).
Proof.
  unfold ApiKeyModal.handleSave. cbn zeta.
  unfold localStorage_setItem, localStorage_removeItem, update, observe, throw,
    mbind, JS_bind. cbn beta iota.
  destruct (truthy (Some _)); cbn [andb].
  - destruct (quota _); cbn [negb]; [|done]. cbn [localStorage with_storage].
    destruct (quota _); done.
  - cbn [localStorage with_storage]. destruct (quota _); done.
Qed.

Lemma handleSettingsClose_run sc w :
  handleSettingsClose sc w =
  let k := truthy (localStorage w !! "gemini_api_key") in
  (Normal (Screen.mk (Screen.selectedDetailId sc) (Screen.isHistoryOpen sc)
                     (temperature_of (localStorage w !! "gemini_temperature"))),
   emit (if k then Toasted "API Key 已更新。" success
         else Toasted "API Key 未配置，部分功能将受限。" warning)
     (set_hasApiKey k (set_isSettingsOpen false w))).
Proof.
  unfold handleSettingsClose, setIsSettingsOpen, setHasApiKey, showToast,
    localStorage_getItem, update, observe, mbind, JS_bind, mret, JS_ret.
  cbn beta iota zeta. cbn [localStorage set_isSettingsOpen with_ui].
  destruct (truthy _); reflexivity.
Qed.

Lemma nearest_tenth q :
  (Qabs (q - (Math_round (q * inject_Z 10) # 10)) <= 1 # 20)%Q.
Proof.
  destruct (Math_round_rounds_to (q * inject_Z 10)) as [Hlo Hhi].
  set (n := Math_round (q * inject_Z 10)) in *.
  assert (n # 10 == inject_Z n * (1 # 10))%Q as -> by (unfold Qeq; simpl; lia).
  change (inject_Z 10) with 10%Q in *.
  set (x := inject_Z n) in *.
  apply Qabs_Qle_condition. split; lra.
Qed.

(** X12. A temperature in [0, 1] saved by the settings dialog is read
    back by [getTemperature], and by [handleSettingsClose] for the
    component, as that temperature rounded to one decimal: a multiple of
    0.1 in [0, 1], at most 0.05 away. *)
Theorem handleSave_temperature_read_back st sc q w w' :
  ApiKeyModal.handleSave (mret ()) st w = (Normal (), w') ->
  ApiKeyModal.temperature st = Number.Finite q ->
  (0 <= q)%Q -> (q <= 1)%Q ->
  let n := Math_round (q * inject_Z 10) in
  (getTemperature w').1 = Normal (Number.Finite (Qred (n # 10))) /\
  (exists sc', (handleSettingsClose sc w').1 = Normal sc' /\
     Screen.temperature sc' = Number.Finite (Qred (n # 10))) /\
  (0 <= n <= 10)%Z /\
  (Qabs (q - (n # 10)) <= 1 # 20)%Q.
Proof.
  rewrite handleSave_run. cbn zeta. intros Hrun Ht H0 H1.
  destruct (_ && _); [discriminate|]. destruct (quota _); [|discriminate].
  assert (temperature_of (localStorage w' !! "gemini_temperature")
          = Number.Finite (Qred (Math_round (q * inject_Z 10) # 10))) as Hread.
  { injection Hrun as <-. cbn [localStorage with_storage].
    rewrite lookup_insert_eq, Ht. by apply temperature_read_back. }
  clear Hrun.
  split.
  { unfold getTemperature, localStorage_getItem, observe, mbind, JS_bind, mret, JS_ret.
    cbn beta iota. cbn [fst]. by rewrite Hread. }
  split.
  { rewrite handleSettingsClose_run. cbn zeta. cbn [fst]. eexists. split; [done|].
    cbn [Screen.temperature]. exact Hread. }
  split; [by apply tenths_of_unit|apply nearest_tenth].
Qed.

(** X13. After a save of the settings dialog, [getAIClient] gives a
    client holding the trimmed text of the key field, and fails with the
    missing-credential error when that text is empty, whatever was
    stored before; [handleSettingsClose] then sets the credential flag
    accordingly, closes the dialog and shows one toast. *)
Theorem handleSave_credential st sc w w' :
  ApiKeyModal.handleSave (mret ()) st w = (Normal (), w') ->
  let key := ApiKeyModal.trim (ApiKeyModal.apiKey st) in
  let close := handleSettingsClose sc w' in
  (getAIClient w').1
    = (if truthy (Some key) then Normal (mkClient key)
       else Throw (Error "API_KEY_MISSING")) /\
  App.hasApiKey (ui close.2) = truthy (Some key) /\
  App.isSettingsOpen (ui close.2) = false /\
  localStorage close.2 = localStorage w' /\
  exists msg kind, trace close.2 = trace w ++ [Toasted msg kind] /\
    (kind = success <-> truthy (Some key) = true).
Proof.
  rewrite handleSave_run. cbn zeta.
  generalize (ApiKeyModal.trim (ApiKeyModal.apiKey st)). intros key Hrun.
  destruct (_ && _); [discriminate|]. destruct (quota _); [|discriminate].
  injection Hrun as <-.
  rewrite getAIClient_run, handleSettingsClose_run. cbn zeta.
  cbn [localStorage with_storage fst snd].
  rewrite lookup_insert_ne by done.
  destruct key as [|c key]; cbn [truthy].
  - rewrite lookup_delete_eq. cbn [truthy].
    do 4 (split; [done|]). do 2 eexists. split; [reflexivity|]. done.
  - rewrite lookup_insert_eq. cbn [truthy default].
    do 4 (split; [done|]). do 2 eexists. split; [reflexivity|]. done.
Qed.

(** X14. The save of the settings dialog is not atomic: when the write
    of the key is accepted and the write of the temperature refused,
    [handleSave] throws the quota error with the key already replaced
    (or removed, for a blank field), the stored temperature as it was,
    and without calling [onClose]. *)
Theorem handleSave_temperature_refused (onClose : JS unit) st w :
  let key := ApiKeyModal.trim (ApiKeyModal.apiKey st) in
  let m1 := if truthy (Some key) then <["gemini_api_key" := key]> (localStorage w)
            else delete "gemini_api_key" (localStorage w) in
  (truthy (Some key) = true -> quota m1 = true) ->
  quota (<["gemini_temperature" := Number.toFixed1 (ApiKeyModal.temperature st)]> m1)
    = false ->
  let run := ApiKeyModal.handleSave onClose st w in
  run.1 = Throw quota_error /\
  localStorage run.2 !! "gemini_api_key"
    = (if truthy (Some key) then Some key else None) /\
  localStorage run.2 !! "gemini_temperature"
    = localStorage w !! "gemini_temperature" /\
  ui run.2 = ui w /\ trace run.2 = trace w.
Proof.
  cbn zeta. rewrite handleSave_run. cbn zeta.
  generalize (ApiKeyModal.trim (ApiKeyModal.apiKey st)). intros key Hkey Htemp.
  rewrite Htemp.
  destruct key as [|c key]; cbn [truthy] in *.
  - cbn [andb negb fst snd localStorage with_storage].
    rewrite lookup_delete_eq, lookup_delete_ne by done. done.
  - rewrite Hkey by done. cbn [andb negb fst snd localStorage with_storage].
    rewrite lookup_insert_eq, lookup_insert_ne by done. done.
Qed.

(** X15. [handleClearKey] removes the stored credential and nothing
    else, and empties the key field.  The component is not told: its
    credential flag stays as it was, while [getAIClient] and
    [analyzeResume] from then on fail with the missing-credential error,
    the latter without a request to the provider. *)
Theorem handleClearKey_clears st file job w :
  let run := handleClearKey st w in
  run.1 = Normal (ApiKeyModal.mk "" (ApiKeyModal.temperature st)) /\
  (forall key, key <> "gemini_api_key" ->
     localStorage run.2 !! key = localStorage w !! key) /\
  ui run.2 = ui w /\
  (getAIClient run.2).1 = Throw (Error "API_KEY_MISSING") /\
  analyzeResume file job run.2 = (Throw (Error "API_KEY_MISSING"), run.2).
Proof.
  cbn zeta. unfold handleClearKey, localStorage_removeItem, update, mbind, JS_bind,
    mret, JS_ret. cbn [fst snd].
  split; [done|].
  split. { intros key Hk. simpl. by rewrite lookup_delete_ne. }
  split; [done|].
  rewrite getAIClient_run, analyzeResume_run. unfold analyze_run.
  cbn [localStorage with_storage]. rewrite lookup_delete_eq. done.
Qed.

End Settings.

(** ** The analysis client *)

Section GeminiService_more.
Context `{Platform}.

Lemma ai_generateContent_run ai req w :
  ai_generateContent ai req w =
  match generateContent (issued w) ai req with
  | GenerateContent.rejects e => (Throw e, requested ai req w)
  | GenerateContent.responds txt => (Normal txt, requested ai req w)
  end.
Proof.
  unfold ai_generateContent, requested, update, observe, throw, mbind, JS_bind,
    mret, JS_ret. cbn beta iota.
  destruct (generateContent _ _ _); reflexivity.
Qed.

Lemma extractResumeRawText_run file w :
  UploadedFile.type file <> text ->
  extractResumeRawText file w = extract_run file w.
Proof.
  intros Hty. unfold extractResumeRawText, extract_run. cbn zeta.
  unfold mbind at 1. unfold JS_bind at 1. rewrite getAIClient_run.
  destruct (truthy (localStorage w !! "gemini_api_key")); [|reflexivity].
  cbn beta iota.
  unfold mbind at 1. unfold JS_bind at 1.
  unfold getTemperature, localStorage_getItem, observe.
  unfold mbind at 1. unfold JS_bind at 1. cbn beta iota.
  unfold mret at 1. unfold JS_ret at 1. cbn beta iota.
  rewrite decide_False by done.
  unfold try_catch, mbind, JS_bind. rewrite ai_generateContent_run.
  fold (extraction_request file w).
  destruct (generateContent _ _ _); reflexivity.
Qed.


(** X17. [analyzeResume] checks the credential before anything else:
    without one it fails with the missing-credential error and the world
    is as it was.  With one it sends exactly one request, with the
    analysis schema and the stored temperature; a success adds nothing
    to the console, and every failure — a rejected request, a response
    without text, a text that does not parse — is logged once and
    rethrown.  The component state is not touched. *)
Theorem analyzeResume_one_request file job w :
  let run := analyzeResume file job w in
  if truthy (localStorage w !! "gemini_api_key") then
    let req := analysis_request file job w in
    ui run.2 = ui w /\
    issued run.2 = S (issued w) /\
    GenerateContent.responseSchema req = Some analysisSchema /\
    Normal (GenerateContent.temperature req) = (getTemperature w).1 /\
    exists ai logs,
      trace run.2 = trace w ++ Requested ai req :: logs /\
      match run.1 with
      | Normal r =>
          logs = [] /\
          exists txt, generateContent (issued w) ai req
                      = GenerateContent.responds (Some txt) /\
                      txt <> "" /\ JSON_parse_analysis txt = inr r
      | Throw e =>
          logs = [Logged level_error "Gemini Analysis Error:" (Some e)] /\
          (generateContent (issued w) ai req = GenerateContent.rejects e \/
           (exists reply, generateContent (issued w) ai req
                          = GenerateContent.responds reply /\
                          truthy reply = false /\
                          e = Error "Gemini API 未返回文本数据") \/
           (exists txt, generateContent (issued w) ai req
                        = GenerateContent.responds (Some txt) /\
                        JSON_parse_analysis txt = inl e))
      end
  else run = (Throw (Error "API_KEY_MISSING"), w).
Proof.
  cbn zeta. rewrite analyzeResume_run. unfold analyze_run.
  destruct (truthy (localStorage w !! "gemini_api_key")); [|done].
  cbn zeta. set (ai := mkClient _). set (req := analysis_request file job w).
  assert (forall e w1, trace w1 = trace w ++ [Requested ai req] ->
            trace (emit (Logged level_error "Gemini Analysis Error:" (Some e)) w1)
            = trace w ++ Requested ai req
                :: [Logged level_error "Gemini Analysis Error:" (Some e)]) as Hlog.
  { intros e w1 Hw1. simpl. rewrite Hw1. by rewrite <- app_assoc. }
  destruct (generateContent (issued w) ai req) as [e|reply] eqn:Hg.
  - cbn [fst snd]. do 4 (split; [done|]). exists ai. eexists.
    split; [by apply Hlog|]. split; [done|]. by left.
  - destruct reply as [[|c r]|].
    + cbn [truthy fst snd]. do 4 (split; [done|]). exists ai. eexists.
      split; [by apply Hlog|]. split; [done|]. right. left. by eexists.
    + cbn [truthy]. change (default "" (Some (String c r))) with (String c r).
      destruct (JSON_parse_analysis (String c r)) as [e|res] eqn:Hp.
      * cbn [fst snd]. do 4 (split; [done|]). exists ai. eexists.
        split; [by apply Hlog|]. split; [done|].
        right. right. by exists (String c r).
      * cbn [fst snd]. do 4 (split; [done|]). exists ai, []. split; [done|].
        split; [done|]. by exists (String c r).
    + cbn [truthy fst snd]. do 4 (split; [done|]). exists ai. eexists.
      split; [by apply Hlog|]. split; [done|]. right. left. by eexists.
Qed.

End GeminiService_more.

(** ** The raw-text handler of the detail view *)

Section AnalysisView_facts.
Context `{Platform}.

Lemma extract_run_ui file w : ui (extract_run file w).2 = ui w.
Proof.
  unfold extract_run. destruct (truthy _); [|done]. cbn zeta.
  destruct (generateContent _ _ _); done.
Qed.

Lemma handleExtractRawText_run f st w :
  UploadedFile.type f <> text ->
  AnalysisView.handleExtractRawText (Some f) st w =
  match extractResumeRawText f w with
  | (Normal txt, w1) =>
      (Normal (AnalysisView.mk false (Some txt) true),
       emit (Toasted "简历原文提取成功！" success) w1)
  | (Throw e, w1) =>
      (Normal (AnalysisView.mk false (AnalysisView.extractedText st)
                               (AnalysisView.isRawTextModalOpen st)),
       emit (Logged level_error "" (Some e))
         (emit (Toasted ("提取原文失败：" ++ message e) failure) w1))
  end.
Proof.
  intros Hty. unfold AnalysisView.handleExtractRawText.
  rewrite decide_False by done. cbn zeta.
  unfold try_catch, mbind, JS_bind, showToast, console_error, update, mret, JS_ret.
  destruct (extractResumeRawText f w) as [[txt|e] w1]; reflexivity.
Qed.

(** X18. [handleExtractRawText] never raises and never touches the
    state of [App], not even on a missing credential.  Without a file,
    or for a text file, it shows one warning and does nothing else: no
    request is made.  Otherwise the busy flag ends cleared whatever
    happened; on success the text is kept and the preview opened, after
    a success toast; on failure text and preview stay as they were, and
    a failure toast with the error's message and a console line
    follow. *)
Theorem handleExtractRawText_settles file st w :
  let run := AnalysisView.handleExtractRawText file st w in
  let skipped :=
    run = (Normal st,
           emit (Toasted "此简历类型不支持原文提取，或文件信息缺失。" warning) w) in
  ui run.2 = ui w /\
  match file with
  | None => skipped
  | Some f =>
      if decide (UploadedFile.type f = text) then skipped
      else
        let call := extractResumeRawText f w in
        exists st', run.1 = Normal st' /\
          AnalysisView.isExtractingText st' = false /\
          match call.1 with
          | Normal txt =>
              AnalysisView.extractedText st' = Some txt /\
              AnalysisView.isRawTextModalOpen st' = true /\
              trace run.2 = trace call.2 ++ [Toasted "简历原文提取成功！" success]
          | Throw e =>
              AnalysisView.extractedText st' = AnalysisView.extractedText st /\
              AnalysisView.isRawTextModalOpen st'
                = AnalysisView.isRawTextModalOpen st /\
              trace run.2
                = trace call.2 ++ [Toasted ("提取原文失败：" ++ message e) failure;
                                   Logged level_error "" (Some e)]
          end
  end.
Proof.
  cbn zeta. destruct file as [f|]; [|done].
  destruct (decide (UploadedFile.type f = text)) as [Hty|Hty].
  { unfold AnalysisView.handleExtractRawText. rewrite decide_True by done. done. }
  rewrite handleExtractRawText_run by done.
  pose proof (extract_run_ui f w) as Hui.
  rewrite <- extractResumeRawText_run in Hui by done.
  destruct (extractResumeRawText f w) as [[txt|e] w1]; cbn [fst snd] in *.
  - split; [done|]. eexists. split; [reflexivity|]. done.
  - split; [done|]. eexists. split; [reflexivity|]. split; [done|].
    split; [done|]. split; [done|]. simpl. by rewrite <- app_assoc.
Qed.

End AnalysisView_facts.

(** ** The uploader *)

Section ResumeUploader_facts.
Import ResumeUploader.

Lemma visit_step files total file c :
  visit files total file (mkProgress [] c [])
  = mkProgress [] (if decide (is_read file) then c else S c) [].
Proof.
  destruct (decide (is_read file)) as [Hr|Hr]; unfold is_read in Hr; unfold visit.
  - destruct (kind_of file); done.
  - destruct (kind_of file); [by destruct Hr|by destruct Hr|].
    cbn [newFiles processedCount calls length].
    by rewrite andb_false_r.
Qed.

Lemma visit_all files total fileList : forall c,
  foldl (fun p file => visit files total file p) (mkProgress [] c []) fileList
  = mkProgress [] (c + length (filter (fun f => ~ is_read f) fileList)) [].
Proof.
  induction fileList as [|file rest IH]; intros c.
  { simpl. f_equal. lia. }
  cbn [foldl]. rewrite visit_step, IH, filter_cons.
  destruct (decide (is_read file)) as [Hr|Hr].
  - rewrite decide_False by tauto. done.
  - rewrite decide_True by done. cbn [length]. f_equal. lia.
Qed.

Lemma onload_read files total l p :
  is_read (of_file l) ->
  onload files total (of_file l) (drawn_id l) (yielded l) p
  = let new := newFiles p ++ [uploaded l] in
    mkProgress new (S (processedCount p))
      (calls p ++ if bool_decide (S (processedCount p) = total)
                  then [files ++ new] else []).
Proof.
  unfold is_read, onload, uploaded. intros Hr.
  destruct (kind_of (of_file l)); [| |done]; cbn zeta;
    destruct (bool_decide _); by rewrite ?app_nil_r.
Qed.

Lemma onload_all files total finished : forall p,
  Forall (fun l => is_read (of_file l)) finished ->
  let q := foldl (fun p l => onload files total (of_file l) (drawn_id l) (yielded l) p)
                 p finished in
  newFiles q = newFiles p ++ (uploaded <$> finished) /\
  processedCount q = processedCount p + length finished /\
  calls q = calls p ++
            (if bool_decide (processedCount p < total <= processedCount p + length finished)
             then [files ++ newFiles p
                     ++ (uploaded <$> take (total - processedCount p) finished)]
             else []).
Proof.
  induction finished as [|l rest IH]; intros p Hall; cbn zeta.
  { simpl. rewrite !app_nil_r. split; [done|]. split; [lia|].
    rewrite bool_decide_eq_false_2 by lia. by rewrite app_nil_r. }
  apply Forall_cons in Hall as [Hl Hrest].
  cbn [foldl]. rewrite onload_read by done. cbn zeta.
  destruct (IH (mkProgress (newFiles p ++ [uploaded l]) (S (processedCount p))
                  (calls p ++ if bool_decide (S (processedCount p) = total)
                              then [files ++ newFiles p ++ [uploaded l]] else []))
              Hrest) as (Hn & Hc & Hcalls).
  cbn zeta in Hn, Hc, Hcalls. cbn [newFiles processedCount calls] in Hn, Hc, Hcalls.
  rewrite Hn, Hc, Hcalls. cbn [length fmap list_fmap].
  split; [by rewrite <- app_assoc|]. split; [lia|].
  rewrite <- app_assoc. f_equal.
  destruct (bool_decide (S (processedCount p) = total)) eqn:Hnow.
  - apply bool_decide_eq_true in Hnow.
    rewrite bool_decide_eq_false_2 by lia.
    rewrite bool_decide_eq_true_2 by lia.
    replace (total - processedCount p) with 1 by lia.
    simpl. done.
  - apply bool_decide_eq_false in Hnow.
    destruct (bool_decide (S (processedCount p) < total <= _)) eqn:Hlater.
    + apply bool_decide_eq_true in Hlater.
      rewrite bool_decide_eq_true_2 by lia.
      replace (total - processedCount p) with (S (total - S (processedCount p))) by lia.
      simpl. by rewrite <- app_assoc.
    + apply bool_decide_eq_false in Hlater.
      rewrite bool_decide_eq_false_2 by lia. done.
Qed.

Lemma read_or_skipped (fileList : list File) :
  length (filter is_read fileList)
  + length (filter (fun f => ~ is_read f) fileList) = length fileList.
Proof.
  induction fileList as [|file rest IH]; [done|].
  rewrite !filter_cons. destruct (decide (is_read file)).
  - rewrite decide_False by tauto. simpl. lia.
  - rewrite decide_True by done. simpl. lia.
Qed.

(** X19. [processFiles] tells its parent at most once, and only when
    the reader of every supported file has finished and there is at
    least one such file: a selection of unsupported files only, or a
    reader that never finishes, leaves the selection as it was.  The
    call then hands over the earlier files followed by the new ones in
    the order in which their readers finished, whatever the order in
    which they were selected. *)
Theorem processFiles_calls_once files fileList finished :
  Forall (fun l => is_read (of_file l)) finished ->
  length finished <= length (filter is_read fileList) ->
  processFiles files fileList finished
  = if decide (finished <> [] /\ length finished = length (filter is_read fileList))
    then [files ++ (uploaded <$> finished)]
    else [].
Proof.
  intros Hall Hlen. unfold processFiles. cbn zeta.
  rewrite (visit_all files (length fileList) fileList 0).
  destruct (onload_all files (length fileList) finished
              (mkProgress [] (0 + length (filter (fun f => ~ is_read f) fileList)) [])
              Hall) as (_ & _ & Hcalls).
  cbn zeta in Hcalls. cbn [newFiles processedCount calls] in Hcalls.
  rewrite Hcalls. cbn [app].
  pose proof (read_or_skipped fileList) as Htot.
  set (skipped := length (filter (fun f => ~ is_read f) fileList)) in *.
  set (read := length (filter is_read fileList)) in *.
  destruct (decide (finished <> [] /\ length finished = read)) as [[Hne Heq]|Hno].
  - assert (0 < length finished) by (destruct finished; [done|simpl; lia]).
    rewrite bool_decide_eq_true_2 by lia.
    replace (length fileList - (0 + skipped)) with (length finished) by lia.
    by rewrite firstn_all.
  - rewrite bool_decide_eq_false_2; [done|].
    intros [H1 H2]. apply Hno. split; [|lia].
    intros ->. simpl in *. lia.
Qed.

(** X20. [handlePasteSubmit] does nothing for a text that is blank.
    Otherwise it hands over the earlier files followed by one text file
    whose content is the text as typed, not trimmed, and clears the
    input.  Removing that file again gives the earlier files back when
    its id is new among them; an id that an earlier file already has
    takes that file away too. *)
Theorem handlePasteSubmit_then_removeFile newId files st :
  ApiKeyModal.trim (textInput st) <> "" ->
  exists added,
    handlePasteSubmit newId files st = (Some (files ++ [added]), mk "" upload) /\
    UploadedFile.id added = newId /\
    UploadedFile.type added = text /\
    UploadedFile.content added = textInput st /\
    removeFile newId (files ++ [added])
      = filter (fun f => UploadedFile.id f <> newId) files /\
    (newId ∉ UploadedFile.id <$> files -> removeFile newId (files ++ [added]) = files).
Proof.
  intros Hne. unfold handlePasteSubmit.
  destruct (ApiKeyModal.trim (textInput st)) as [|c r] eqn:Ht; [done|].
  cbn [truthy negb]. eexists. split; [reflexivity|].
  do 3 (split; [done|]).
  assert (forall x, removeFile newId (files ++ [x]) =
                    filter (fun f => UploadedFile.id f <> newId) files ++
                    filter (fun f => UploadedFile.id f <> newId) [x]) as Hrm
    by (intros x; apply filter_app).
  split.
  - rewrite Hrm, filter_cons, decide_False by (cbn; tauto).
    by rewrite filter_nil, app_nil_r.
  - intros Hfresh. rewrite Hrm, filter_cons, decide_False by (cbn; tauto).
    rewrite filter_nil, app_nil_r.
    clear -Hfresh. induction files as [|f files IH]; [done|].
    rewrite filter_cons, decide_True.
    + f_equal. apply IH. intros Hin. apply Hfresh. by right.
    + intros Heq. apply Hfresh. rewrite <- Heq. by left.
Qed.

End ResumeUploader_facts.

(** ** The rows of the results table *)

Section Sorting.
Context {A : Type} (compare : A -> A -> Z).

Lemma sort_insert_perm x l : sort_insert compare x l ≡ₚ x :: l.
Proof.
  induction l as [|y r IH]; [done|]. simpl.
  destruct (compare x y <=? 0)%Z; [done|].
  rewrite IH. apply Permutation_swap.
Qed.

Lemma Array_sort_perm l : Array_sort compare l ≡ₚ l.
Proof.
  induction l as [|x l IH]; [done|].
  unfold Array_sort in *. cbn [foldr]. by rewrite sort_insert_perm, IH.
Qed.

Lemma Array_sort_fixed l :
  StronglySorted (precedes compare) l -> Array_sort compare l = l.
Proof.
  induction 1 as [|x l Hs IH Hx]; [done|].
  unfold Array_sort in *. cbn [foldr]. rewrite IH.
  destruct l as [|y r]; [done|]. simpl.
  apply Forall_cons in Hx as [Hxy _]. unfold precedes in Hxy.
  by rewrite (proj2 (Z.leb_le _ _) Hxy).
Qed.

Hypothesis total : forall a b, precedes compare a b \/ precedes compare b a.
Hypothesis transitive : forall a b c,
  precedes compare a b -> precedes compare b c -> precedes compare a c.

Lemma sort_insert_sorted x l :
  StronglySorted (precedes compare) l ->
  StronglySorted (precedes compare) (sort_insert compare x l).
Proof.
  induction 1 as [|y r Hs IH Hy]; [by repeat constructor|]. simpl.
  destruct (compare x y <=? 0)%Z eqn:Hxy.
  - apply Z.leb_le in Hxy. constructor; [by constructor|].
    constructor; [done|].
    eapply Forall_impl; [exact Hy|]. intros z Hz. by apply transitive with y.
  - apply Z.leb_gt in Hxy. constructor; [done|].
    rewrite sort_insert_perm. constructor; [|done].
    destruct (total y x) as [|Hle]; [done|]. unfold precedes in Hle. lia.
Qed.

Lemma Array_sort_sorted l : StronglySorted (precedes compare) (Array_sort compare l).
Proof.
  induction l as [|x l IH]; [constructor|].
  unfold Array_sort in *. cbn [foldr]. by apply sort_insert_sorted.
Qed.

End Sorting.

Lemma StronglySorted_weaken {A} (R S : A -> A -> Prop) (l : list A) :
  (forall a b, R a b -> S a b) -> StronglySorted R l -> StronglySorted S l.
Proof.
  intros HRS. induction 1 as [|x l Hs IH Hx]; constructor; [done|].
  eapply Forall_impl; [exact Hx|]. intros y. apply HRS.
Qed.

Section BatchResults_facts.
Context `{Strings}.
Import BatchResults.

Lemma filter_filter {A} (f g : A -> bool) (l : list A) :
  List.filter g (List.filter f l) = List.filter (fun x => f x && g x) l.
Proof.
  induction l as [|x l IH]; [done|]. simpl.
  destruct (f x); simpl; [destruct (g x); by rewrite IH|done].
Qed.

Lemma filter_true {A} (l : list A) : List.filter (fun _ => true) l = l.
Proof. induction l as [|x l IH]; [done|]. simpl. by rewrite IH. Qed.

Lemma processedItems_filtered items searchTerm sortBy filterRec minScore :
  processedItems items searchTerm sortBy filterRec minScore
  = Array_sort (compare sortBy)
      (List.filter (passes searchTerm filterRec minScore) items).
Proof.
  unfold processedItems. cbn zeta. f_equal.
  assert (forall (c : bool) (f : BatchItem.t -> bool) (l : list BatchItem.t),
            (if c then List.filter f l else l)
            = List.filter (fun x => negb c || f x) l) as Hif.
  { intros [] f l; [done|]. simpl. by rewrite filter_true. }
  rewrite !Hif.
  assert (match filterRec with
          | ALL => List.filter
                     (fun x => negb (truthy (Some searchTerm))
                               || matches_search (toLowerCase searchTerm) x) items
          | only rec =>
              List.filter
                (fun item =>
                   bool_decide (AnalysisResult.recommendation <$> BatchItem.result item
                                = Some rec))
                (List.filter
                   (fun x => negb (truthy (Some searchTerm))
                             || matches_search (toLowerCase searchTerm) x) items)
          end
          = List.filter
              (fun x =>
                 (negb (truthy (Some searchTerm))
                  || matches_search (toLowerCase searchTerm) x)
                 && match filterRec with
                    | ALL => true
                    | only rec =>
                        bool_decide (AnalysisResult.recommendation <$> BatchItem.result x
                                     = Some rec)
                    end) items) as ->.
  { destruct filterRec; [|apply filter_filter].
    apply List.filter_ext. intros x. by rewrite andb_true_r. }
  rewrite filter_filter. reflexivity.
Qed.

(** X21. The rows of the table are the items that pass the filters
    switched on, each as often as it occurs among the items and none
    else, in some order; with no search text, no recommendation filter
    and no minimum score they are all the items.  A minimum score above
    zero hides every item without a result. *)
Theorem processedItems_rows items searchTerm sortBy filterRec minScore :
  let rows := processedItems items searchTerm sortBy filterRec minScore in
  rows ≡ₚ List.filter (passes searchTerm filterRec minScore) items /\
  (forall row, row ∈ rows <->
               row ∈ items /\ passes searchTerm filterRec minScore row = true) /\
  length rows <= length items /\
  (searchTerm = "" -> filterRec = ALL -> (minScore <= 0)%Z -> rows ≡ₚ items) /\
  ((0 < minScore)%Z ->
   forall row, row ∈ rows ->
     exists r, BatchItem.result row = Some r /\
               (minScore <= AnalysisResult.score r)%Z).
Proof.
  cbn zeta. rewrite processedItems_filtered.
  set (kept := List.filter _ items).
  pose proof (Array_sort_perm (compare sortBy) kept) as Hperm.
  assert (forall row, row ∈ Array_sort (compare sortBy) kept <->
            row ∈ items /\ passes searchTerm filterRec minScore row = true) as Hin.
  { intros row. rewrite Hperm. subst kept.
    rewrite !list_elem_of_In. apply List.filter_In. }
  split; [done|]. split; [done|].
  split. { rewrite Hperm. subst kept. apply List.filter_length_le. }
  split.
  - intros -> -> Hmin. rewrite Hperm. subst kept.
    rewrite (List.filter_ext _ (fun _ => true)); [by rewrite filter_true|].
    intros x. unfold passes. simpl.
    by rewrite (proj2 (Z.ltb_ge _ _) Hmin).
  - intros Hmin row Hrow. apply Hin in Hrow as [_ Hp].
    unfold passes in Hp. apply andb_prop in Hp as [_ Hp].
    rewrite (proj2 (Z.ltb_lt _ _) Hmin) in Hp. simpl in Hp.
    apply Z.leb_le in Hp.
    destruct (BatchItem.result row) as [r|]; simpl in Hp; [|lia].
    exists r. split; [done|].
    destruct (AnalysisResult.score r =? 0)%Z; lia.
Qed.

Lemma compare_scoreDesc a b :
  precedes (compare scoreDesc) a b <-> (score_or_minus_one b <= score_or_minus_one a)%Z.
Proof. unfold precedes, compare. lia. Qed.

(** The rank of an item under the ascending sort: items without score
    count as larger than any score. *)
Lemma compare_scoreAsc a b :
  precedes (compare scoreAsc) a b <->
  (score_or_minus_one b = (-1)%Z \/
   (score_or_minus_one a <> (-1)%Z /\
    (score_or_minus_one a <= score_or_minus_one b)%Z)).
Proof.
  unfold precedes, compare. repeat case_bool_decide; lia.
Qed.

(** X22. Sorted by score, the rows are in order from the first to the
    last: descending, by falling scores, an item without result
    counting as -1; ascending, by rising scores with the items without
    result at the end.  Sorting rows that are in order leaves them as
    they are. *)
Theorem processedItems_in_order items searchTerm filterRec minScore :
  let desc := processedItems items searchTerm scoreDesc filterRec minScore in
  let asc := processedItems items searchTerm scoreAsc filterRec minScore in
  StronglySorted
    (fun a b => (score_or_minus_one b <= score_or_minus_one a)%Z) desc /\
  StronglySorted
    (fun a b => score_or_minus_one b = (-1)%Z \/
                (score_or_minus_one a <> (-1)%Z /\
                 (score_or_minus_one a <= score_or_minus_one b)%Z)) asc /\
  Array_sort (compare scoreDesc) desc = desc /\
  Array_sort (compare scoreAsc) asc = asc.
Proof.
  cbn zeta. rewrite !processedItems_filtered.
  set (kept := List.filter _ items).
  assert (StronglySorted (precedes (compare scoreDesc))
            (Array_sort (compare scoreDesc) kept)) as Hd.
  { apply Array_sort_sorted.
    - intros a b. rewrite !compare_scoreDesc. lia.
    - intros a b c. rewrite !compare_scoreDesc. lia. }
  assert (StronglySorted (precedes (compare scoreAsc))
            (Array_sort (compare scoreAsc) kept)) as Ha.
  { apply Array_sort_sorted.
    - intros a b. rewrite !compare_scoreAsc. lia.
    - intros a b c. rewrite !compare_scoreAsc. lia. }
  split.
  { eapply StronglySorted_weaken; [|exact Hd]. intros a b. apply compare_scoreDesc. }
  split.
  { eapply StronglySorted_weaken; [|exact Ha]. intros a b. apply compare_scoreAsc. }
  split; by apply Array_sort_fixed.
Qed.

End BatchResults_facts.

(** ** Saving, then deleting; selecting; resetting *)

Section RoundTrips.
Context `{Platform}.

Lemma filter_fresh (id : string) (l : list HistorySession.t) :
  Forall (fun o => HistorySession.id o <> id) l ->
  filter (fun s => HistorySession.id s <> id) l = l.
Proof.
  induction 1 as [|o l Ho _ IH]; [done|].
  by rewrite filter_cons, decide_True, IH.
Qed.

(** X23. Deleting the session that [saveSession] just stored gives the
    stored sessions back as they were before the save, provided the
    list was read back as written, held fewer than twenty sessions and
    none with the id of the new one.  (The id is the clock's time in
    milliseconds: two saves within one millisecond share it.) *)
Theorem saveSession_then_deleteSession job items w s w1 l w2 :
  saveSession job items w = (Normal (Some s), w1) ->
  deleteSession (HistorySession.id s) w1 = (Normal l, w2) ->
  let old := stored_history (localStorage w) in
  (forall p, p = s \/ p = lightSession_of s ->
     stored_history (written (take 20 (p :: old)) (localStorage w))
     = take 20 (p :: old)) ->
  length old < 20 ->
  Forall (fun o => HistorySession.id o <> HistorySession.id s) old ->
  l = old /\ HistorySession.id s = Z_toString (clock w).
Proof.
  intros Hsave Hdel old Hback Hlen Hfresh.
  rewrite saveSession_run in Hsave.
  assert ((save_run job items w).1 = Normal (Some s)) as Hs by by rewrite Hsave.
  apply save_run_Some in Hs as (Hsess & p & Hp & Hst).
  rewrite Hsave in Hst. cbn [snd] in Hst. fold old in Hst.
  rewrite deleteSession_run in Hdel. cbn zeta in Hdel.
  rewrite read_history_fst, Hst, (Hback p Hp) in Hdel.
  destruct (quota _); [|discriminate]. injection Hdel as <- _.
  split; [|by rewrite Hsess].
  change (take 20 (p :: old)) with (p :: take 19 old). rewrite filter_cons.
  assert (HistorySession.id p = HistorySession.id s) as Hid
    by (by destruct Hp as [->| ->]).
  rewrite decide_False by (rewrite Hid; tauto).
  rewrite take_ge by lia. by apply filter_fresh.
Qed.

(** X24. After [handleViewDetails] on an item of the list, the detail
    view shows the first item of the list that has the file id of the
    chosen one: the chosen item itself when ids are not shared.
    [handleBackToList] leaves nothing selected. *)
Theorem handleViewDetails_selects item sc w :
  item ∈ App.batchItems (ui w) ->
  let run := handleViewDetails item sc w in
  App.currentView (ui run.2) = detail /\
  App.batchItems (ui run.2) = App.batchItems (ui w) /\
  exists sc' j p,
    run.1 = Normal sc' /\
    selectedBatchItem (ui run.2) sc' = Some p /\
    App.batchItems (ui w) !! j = Some p /\
    file_id p = file_id item /\
    (forall k q, App.batchItems (ui w) !! k = Some q -> k < j ->
                 file_id q <> file_id item) /\
    (NoDup (file_id <$> App.batchItems (ui w)) -> p = item) /\
    exists sc'',
      (handleBackToList sc' run.2).1 = Normal sc'' /\
      selectedBatchItem (ui (handleBackToList sc' run.2).2) sc'' = None /\
      App.currentView (ui (handleBackToList sc' run.2).2) = list_view.
Proof.
  intros Hin. cbn zeta.
  unfold handleViewDetails, setCurrentView, update, mbind, JS_bind, mret, JS_ret.
  cbn [fst snd]. split; [done|]. split; [done|].
  destruct (list_find (fun i => file_id i = file_id item) (App.batchItems (ui w)))
    as [[j p]|] eqn:Hfind.
  2:{ apply list_find_None in Hfind. rewrite Forall_forall in Hfind.
      by destruct (Hfind item Hin). }
  pose proof Hfind as Hfound.
  apply list_find_Some in Hfind as (Hj & Hp & Hfirst).
  eexists _, j, p. split; [reflexivity|].
  split. { unfold selectedBatchItem. cbn. rewrite Hfound. done. }
  split; [done|]. split; [done|]. split; [exact Hfirst|].
  split; [|eexists; split; [reflexivity|]; split; reflexivity].
  intros Hnd. apply list_elem_of_lookup in Hin as [k Hk].
  assert (j = k) as ->.
  { apply (NoDup_lookup _ _ _ (file_id item) Hnd).
    - by rewrite list_lookup_fmap, Hj, <- Hp.
    - by rewrite list_lookup_fmap, Hk. }
  congruence.
Qed.

(** X25. [handleReset] empties the selection of files and the items
    and keeps the job description, the stored credential, the storage
    and the sessions.  Nothing is then selected for the detail view, and
    [handleBatchAnalyze] right after it sends no request and saves
    nothing. *)
Theorem handleReset_closes_the_gates sc w :
  let run := handleReset sc w in
  App.files (ui run.2) = [] /\
  App.batchItems (ui run.2) = [] /\
  App.currentView (ui run.2) = input /\
  App.jobContext (ui run.2) = App.jobContext (ui w) /\
  App.historySessions (ui run.2) = App.historySessions (ui w) /\
  localStorage run.2 = localStorage w /\
  (exists sc', run.1 = Normal sc' /\ selectedBatchItem (ui run.2) sc' = None) /\
  ~ gates_open (ui run.2) /\
  exists toast,
    trace (handleBatchAnalyze run.2).2 = trace run.2 ++ [toast] /\
    is_toast toast /\
    issued (handleBatchAnalyze run.2).2 = issued w.
Proof.
  cbn zeta.
  unfold handleReset, setFiles, setBatchItems, setCurrentView, showToast,
    update, mbind, JS_bind, mret, JS_ret. cbn [fst snd].
  do 6 (split; [done|]). split; [by eexists|].
  split. { intros (_ & Hf & _). by apply Hf. }
  rewrite handleBatchAnalyze_run. unfold batch_run. cbn zeta.
  set (w1 := emit _ _).
  assert (App.files (ui w1) = []) as Hfiles by done.
  destruct (App.hasApiKey (ui w1)); cbn [negb].
  - rewrite Hfiles. cbn [length bool_decide orb]. rewrite bool_decide_eq_true_2 by done.
    cbn [orb snd]. eexists. split; [reflexivity|]. done.
  - cbn [snd]. eexists. split; [reflexivity|]. done.
Qed.

End RoundTrips.

(** ** The further properties on concrete inputs *)

Lemma saveSession_averageScore_bounds_witness :
  (0 <= HistorySession.averageScore
          (session_at (clock Demo.empty_world) Demo.job Demo.three_done) <= 100)%Z.
Proof.
  apply (@saveSession_averageScore_bounds Demo.roomy Demo.job Demo.three_done
           Demo.empty_world _
           (@saveSession Demo.roomy Demo.job Demo.three_done Demo.empty_world).2).
  - vm_compute. reflexivity.
  - replace (completed_scores Demo.three_done) with [80; 60; 100]%Z
      by (vm_compute; reflexivity).
    repeat (constructor; [lia|]). constructor.
Defined.

Lemma deleteSession_removes_witness :
  Demo.past <$> [0; 2]
  = filter (fun s => HistorySession.id s <> "1")
           (@stored_history Demo.roomy (localStorage Samples.three_past)).
Proof.
  refine (proj1 (@deleteSession_removes Demo.roomy "1" Samples.three_past
                   (Demo.past <$> [0; 2])
                   (@deleteSession Demo.roomy "1" Samples.three_past).2 _)).
  vm_compute. reflexivity.
Defined.

Lemma deleteSession_refused_witness :
  (@deleteSession Demo.cramped "1" Samples.three_past).1 = Throw quota_error.
Proof.
  refine (proj1 (@deleteSession_refused Demo.cramped "1" Samples.three_past _)).
  vm_compute. reflexivity.
Defined.

Lemma handleBatchAnalyze_saved_items_witness :
  let w := Samples.three_selected in
  let run := @handleBatchAnalyze Demo.steady w in
  let final := App.batchItems (ui run.2) in
  exists cs,
    length cs = length (App.files (ui w)) /\
    outcomes (trace run.2) = zip (seq 0 (length (App.files (ui w)))) cs /\
    Some <$> final = zip_with settle (idle_item <$> App.files (ui w)) cs /\
    BatchItem.file <$> final = App.files (ui w) /\
    Forall terminal final.
Proof.
  apply (@handleBatchAnalyze_saved_items Demo.steady Samples.three_selected).
  - reflexivity.
  - apply list_elem_of_lookup. exists 0. vm_compute. reflexivity.
Defined.

Lemma handleDeleteSession_reloads_witness :
  App.historySessions (ui (@handleDeleteSession Demo.roomy "1" Samples.three_past).2)
  = filter (fun s => HistorySession.id s <> "1")
           (@stored_history Demo.roomy (localStorage Samples.three_past)).
Proof.
  refine (proj1 (@handleDeleteSession_reloads Demo.roomy "1" Samples.three_past
                   (@handleDeleteSession Demo.roomy "1" Samples.three_past).2 _)).
  vm_compute. reflexivity.
Defined.

Lemma handleSave_temperature_read_back_witness :
  (getTemperature
     (@ApiKeyModal.handleSave Demo.roomy (mret ()) Samples.dialog
        Demo.empty_world).2).1
  = Normal (Number.Finite (2 # 5)).
Proof.
  refine (proj1 (@handleSave_temperature_read_back Demo.roomy Samples.dialog
                   Samples.screen (37 # 100) Demo.empty_world
                   (@ApiKeyModal.handleSave Demo.roomy (mret ()) Samples.dialog
                      Demo.empty_world).2 _ _ _ _)).
  - vm_compute. reflexivity.
  - reflexivity.
  - unfold Qle. simpl. lia.
  - unfold Qle. simpl. lia.
Defined.

Lemma handleSave_credential_witness :
  (@getAIClient
     (@ApiKeyModal.handleSave Demo.roomy (mret ()) Samples.dialog
        Demo.empty_world).2).1
  = Normal (mkClient "AIza-demo").
Proof.
  refine (proj1 (@handleSave_credential Demo.roomy Samples.dialog Samples.screen
                   Demo.empty_world
                   (@ApiKeyModal.handleSave Demo.roomy (mret ()) Samples.dialog
                      Demo.empty_world).2 _)).
  vm_compute. reflexivity.
Defined.

Lemma handleSave_temperature_refused_witness :
  (@ApiKeyModal.handleSave Samples.narrow (mret ()) Samples.short_key
     Demo.empty_world).1 = Throw quota_error.
Proof.
  refine (proj1 (@handleSave_temperature_refused Samples.narrow (mret ())
                   Samples.short_key Demo.empty_world _ _)).
  - intros _. vm_compute. reflexivity.
  - vm_compute. reflexivity.
Defined.


Lemma processFiles_calls_once_witness :
  ResumeUploader.processFiles [] Samples.selection Samples.readers
  = [uploaded <$> Samples.readers].
Proof.
  refine (processFiles_calls_once [] Samples.selection Samples.readers _ _).
  - repeat (constructor; [vm_compute; discriminate|]). constructor.
  - apply (bool_decide_unpack _). vm_compute. exact I.
Defined.

Lemma handlePasteSubmit_then_removeFile_witness :
  exists added,
    ResumeUploader.handlePasteSubmit "n1" [Demo.cv "a" "AAAA"] Samples.pasted
    = (Some ([Demo.cv "a" "AAAA"] ++ [added]),
       ResumeUploader.mk "" ResumeUploader.upload) /\
    UploadedFile.content added = " hello ".
Proof.
  destruct (handlePasteSubmit_then_removeFile "n1" [Demo.cv "a" "AAAA"] Samples.pasted)
    as (added & Hcall & _ & _ & Hcontent & _).
  - vm_compute. discriminate.
  - exists added. split; [exact Hcall|exact Hcontent].
Defined.

Lemma saveSession_then_deleteSession_witness :
  Demo.past <$> [0; 1] = @stored_history Demo.roomy (localStorage Samples.two_past).
Proof.
  refine (proj1 (@saveSession_then_deleteSession Demo.roomy Demo.job Demo.three_done
                   Samples.two_past
                   (session_at (clock Samples.two_past) Demo.job Demo.three_done)
                   (@saveSession Demo.roomy Demo.job Demo.three_done
                      Samples.two_past).2
                   (Demo.past <$> [0; 1])
                   (@deleteSession Demo.roomy "1700000000000"
                      (@saveSession Demo.roomy Demo.job Demo.three_done
                         Samples.two_past).2).2 _ _ _ _ _)).
  - vm_compute. reflexivity.
  - vm_compute. reflexivity.
  - intros p [-> | ->]; vm_compute; reflexivity.
  - apply (bool_decide_unpack _). vm_compute. exact I.
  - apply (bool_decide_unpack _). vm_compute. exact I.
Defined.

Lemma handleViewDetails_selects_witness :
  App.currentView
    (ui (@handleViewDetails (Demo.done (Demo.cv "b" "BBBB") 60) Samples.screen
           Samples.listed).2) = detail.
Proof.
  refine (proj1 (handleViewDetails_selects (Demo.done (Demo.cv "b" "BBBB") 60)
                   Samples.screen Samples.listed _)).
  apply list_elem_of_lookup. exists 1. reflexivity.
Defined.


(** ** White space *)

Lemma skip_white_idempotent s :
  Number.skip_white (Number.skip_white s) = Number.skip_white s.
Proof.
  remember (String.length s) as n eqn:Hn. revert s Hn.
  induction n as [n IH] using lt_wf_ind. intros s ->.
  destruct s as [|c1 r1]; [done|]. cbn [Number.skip_white].
  destruct (Number.is_white c1) eqn:E1.
  { apply (IH (String.length r1)); [simpl; lia|done]. }
  destruct r1 as [|c2 r2].
  { cbn [Number.skip_white]. by rewrite E1. }
  destruct (Number.is_white2 c1 c2) eqn:E2.
  { apply (IH (String.length r2)); [simpl; lia|done]. }
  destruct r2 as [|c3 r3].
  { cbn [Number.skip_white]. by rewrite E1, E2. }
  destruct (Number.is_white3 c1 c2 c3) eqn:E3.
  { apply (IH (String.length r3)); [simpl; lia|done]. }
  cbn [Number.skip_white]. by rewrite E1, E2, E3.
Qed.

(** What [skip_white] skips is white space only. *)
Lemma skip_white_skipped s :
  exists lead, s = (lead ++ Number.skip_white s)%string /\ Number.skip_white lead = "".
Proof.
  remember (String.length s) as n eqn:Hn. revert s Hn.
  induction n as [n IH] using lt_wf_ind. intros s ->.
  destruct s as [|c1 r1]; [by exists ""|]. cbn [Number.skip_white].
  destruct (Number.is_white c1) eqn:E1.
  { destruct (IH (String.length r1) ltac:(simpl; lia) r1 eq_refl)
      as (lead & Hs & Hl).
    exists (String c1 lead). split; [rewrite Hs at 1; reflexivity|].
    cbn [Number.skip_white]. by rewrite E1. }
  destruct r1 as [|c2 r2]; [by exists ""|].
  destruct (Number.is_white2 c1 c2) eqn:E2.
  { destruct (IH (String.length r2) ltac:(simpl; lia) r2 eq_refl)
      as (lead & Hs & Hl).
    exists (String c1 (String c2 lead)). split; [rewrite Hs at 1; reflexivity|].
    cbn [Number.skip_white]. by rewrite E1, E2. }
  destruct r2 as [|c3 r3]; [by exists ""|].
  destruct (Number.is_white3 c1 c2 c3) eqn:E3.
  { destruct (IH (String.length r3) ltac:(simpl; lia) r3 eq_refl)
      as (lead & Hs & Hl).
    exists (String c1 (String c2 (String c3 lead))). split; [rewrite Hs at 1; reflexivity|].
    cbn [Number.skip_white]. by rewrite E1, E2, E3. }
  by exists "".
Qed.

Lemma trim_end_cut s :
  exists tail, s = (Number.trim_end s ++ tail)%string /\ Number.skip_white tail = "".
Proof.
  induction s as [|c r (tail & Hr & Ht)]; [by exists ""|].
  cbn [Number.trim_end].
  destruct (Number.skip_white (String c r)) as [|c' r'] eqn:E.
  - by exists (String c r).
  - exists tail. split; [|done]. rewrite Hr at 1. reflexivity.
Qed.

(** [trim] gives the empty text exactly for a text of white space
    only. *)
Lemma trim_blank s : ApiKeyModal.trim s = "" <-> Number.skip_white s = "".
Proof.
  unfold ApiKeyModal.trim. split; [|by intros ->].
  pose proof (skip_white_idempotent s) as Hi.
  destruct (Number.skip_white s) as [|c r]; [done|].
  cbn [Number.trim_end]. rewrite Hi. done.
Qed.

(** [trim] removes white space only: the text is what [trim] gives
    between two texts of white space. *)
Lemma trim_removes_white_space s :
  exists lead tail,
    s = (lead ++ ApiKeyModal.trim s ++ tail)%string /\
    Number.skip_white lead = "" /\ Number.skip_white tail = "".
Proof.
  destruct (skip_white_skipped s) as (lead & Hs & Hl).
  destruct (trim_end_cut (Number.skip_white s)) as (tail & Ht & Htl).
  exists lead, tail. unfold ApiKeyModal.trim. by rewrite <- Ht.
Qed.

(** [trim] on white space of more than one byte: ideographic spaces
    alone trim to nothing, a byte order mark, a no-break space and a
    line separator are removed at the ends, the space inside stays, and
    a zero-width space is no white space. *)
Example trim_white_space :
  ApiKeyModal.trim (Samples.ideographic_space ++ Samples.ideographic_space)%string = "" /\
  ApiKeyModal.trim
    (Samples.byte_order_mark ++ " AIza demo" ++ Samples.no_break_space
       ++ Samples.line_separator)%string = "AIza demo" /\
  ApiKeyModal.trim ("  职位 A  ")%string = "职位 A" /\
  ApiKeyModal.trim ("a" ++ Samples.zero_width_space)%string
  = ("a" ++ Samples.zero_width_space)%string.
Proof. vm_compute. repeat split; reflexivity. Qed.

(** A paste of ideographic spaces is blank: nothing is handed over.  A
    key field of one ideographic space is blank: the stored key is
    removed. *)
Example blank_inputs :
  let st :=
    ResumeUploader.mk (Samples.ideographic_space ++ Samples.ideographic_space)%string
      ResumeUploader.paste in
  ResumeUploader.handlePasteSubmit "n1" [] st = (None, st) /\
  localStorage
    (@ApiKeyModal.handleSave Demo.roomy (mret ())
       (ApiKeyModal.mk Samples.ideographic_space (Number.Finite (4 # 10)))
       Samples.with_key).2 !! "gemini_api_key" = None.
Proof. vm_compute. split; reflexivity. Qed.
